(** * Google Pay Web Push Provisioning integration library: popup session model

    A shallow embedding of the integration script (API version 1.6): the
    options validator [AppOptions], the window session manager [AppContext],
    the message router and the two public entry points [openAppWindow] and
    [closeAppWindow], together with the part of the browser they talk to
    (popup windows, timers, the host window's name and location).

    How the JavaScript is rendered:
    - values are a tagged union [JSValue]; numbers are IEEE binary64 floats;
      a well-formed string is the byte string of its UTF-8 encoding, and a
      string with a lone surrogate, which has no such encoding, is a value
      of its own; objects are plain property tables that inherit from
      [Object.prototype] (no getters);
    - [Math.max], [Number.prototype.toString], the [toString] method call
      and [encodeURIComponent] are written out after ECMAScript, with the
      TypeError and URIError they throw;
    - code that runs on the page is a function from the page state to a
      completion (normal return or thrown error) and a new state; the
      session objects live in a store and are referred to by address, so
      that a poll closure that outlives its session still sees its object;
    - integrator callbacks are opaque: a call is recorded in a log, with
      its argument; it returns [undefined], as the [Callback] type says,
      and has no other effect on the page. *)

From Stdlib Require Import ZArith String Ascii List Bool Lia.
From Stdlib Require Import Floats.PrimFloat Floats.FloatOps Floats.SpecFloat.
From Stdlib Require Import DecimalString.
From stdpp Require Import base list strings.

Open Scope string_scope.

(* ===================================================================== *)
(** ** JavaScript values *)
(* ===================================================================== *)

(** An integrator-specified callback function.  [cb_source] is what
    [Function.prototype.toString] returns for it. *)
Record Callback := mkCallback { cb_id : nat; cb_source : string }.

#[warnings="-register-all"]
Inductive JSValue :=
| VUndefined
| VNull
| VBoolean (b : bool)
| VNumber (x : float)
| VString (s : string)
| VIllFormedString (units : list N)  (* UTF-16 code units, a lone surrogate among them *)
| VFunction (f : Callback)
| VObject (props : list (string * JSValue)).

(** The empty object literal [{}]. *)
Definition empty_object : JSValue := VObject [].

Definition typeof (v : JSValue) : string :=
  match v with
  | VUndefined => "undefined"
  | VNull => "object"
  | VBoolean _ => "boolean"
  | VNumber _ => "number"
  | VString _ => "string"
  | VIllFormedString _ => "string"
  | VFunction _ => "function"
  | VObject _ => "object"
  end.

(** ToBoolean. *)
Definition truthy (v : JSValue) : bool :=
  match v with
  | VUndefined | VNull => false
  | VBoolean b => b
  | VNumber x => negb (is_zero x || is_nan x)
  | VString s => negb (String.eqb s "")
  | VIllFormedString _ => true
  | VFunction _ | VObject _ => true
  end.

(** [v === s] for a well-formed string [s]. *)
Definition strict_eq_string (v : JSValue) (s : string) : bool :=
  match v with
  | VString s' => String.eqb s' s
  | _ => false
  end.

(** [v === null]. *)
Definition is_null (v : JSValue) : bool :=
  match v with VNull => true | _ => false end.

Fixpoint assoc {A} (k : string) (l : list (string * A)) : option A :=
  match l with
  | [] => None
  | (k', x) :: l' => if String.eqb k' k then Some x else assoc k l'
  end.

(** Property read [v[k]] on a value that is neither [undefined] nor [null]:
    an own property of an object, [undefined] for an absent property and
    for the keys this library reads on a primitive or a function. *)
Definition get (v : JSValue) (k : string) : JSValue :=
  match v with
  | VObject props => default VUndefined (assoc k props)
  | _ => VUndefined
  end.

(** The views of a value at the types of the JSDoc annotations:
    [!Callback|undefined] and [number|undefined]. *)
Definition asCallback (v : JSValue) : option Callback :=
  match v with VFunction f => Some f | _ => None end.

Definition asNumber (v : JSValue) : option float :=
  match v with VNumber x => Some x | _ => None end.

Definition ofCallback (c : option Callback) : JSValue :=
  match c with Some f => VFunction f | None => VUndefined end.

Definition ofNumber (n : option float) : JSValue :=
  match n with Some x => VNumber x | None => VUndefined end.

(* ===================================================================== *)
(** ** Numbers: [Math.max] and [Number.prototype.toString] *)
(* ===================================================================== *)

(** [Math.max(a, b)]: NaN if either is NaN, +0 is larger than -0. *)
Definition Math_max (a b : float) : float :=
  if is_nan a || is_nan b then nan
  else if PrimFloat.ltb a b then b
  else if PrimFloat.ltb b a then a
  else if is_zero a && is_zero b
       then (if get_sign a then b else a)
       else a.

Module NumberToString.

Definition digits (n : Z) : string := NilZero.string_of_int (Z.to_int n).

Definition pow10 (n : Z) : Z := 10 ^ n.

(** A positive finite double is [m * 2^e]; with [E = e - 2] its value is
    [4m * 2^E], the upper end of its rounding interval is [(4m+2) * 2^E]
    and the lower end [(4m-2) * 2^E], or [(4m-1) * 2^E] when the double is
    the smallest of its binade.  Both ends belong to the interval when
    [m] is even (round to nearest, ties to even). *)
Record interval := mkInterval {
  iv_lo : Z; iv_mid : Z; iv_hi : Z;   (* numerators *)
  iv_exp : Z;                         (* binary exponent E *)
  iv_closed : bool }.

Definition interval_of (m : positive) (e : Z) : interval :=
  let m := Z.pos m in
  let boundary := (m =? 2 ^ 52)%Z && (-1074 <? e)%Z in
  {| iv_lo := if boundary then 4 * m - 1 else 4 * m - 2;
     iv_mid := 4 * m; iv_hi := 4 * m + 2;
     iv_exp := e - 2; iv_closed := Z.even m |}.

(** Compare [a * 2^E] with [s * 10^t] over the integers. *)
Definition cmp (a E s t : Z) : comparison :=
  let l := (a * (if 0 <=? E then 2 ^ E else 1) * (if 0 <=? t then 1 else pow10 (- t)))%Z in
  let r := (s * (if 0 <=? t then pow10 t else 1) * (if 0 <=? E then 1 else 2 ^ (- E)))%Z in
  (l ?= r)%Z.

(** [floor (mid * 2^E / 10^t)]. *)
Definition floor_scaled (a E t : Z) : Z :=
  let l := (a * (if 0 <=? E then 2 ^ E else 1) * (if 0 <=? t then 1 else pow10 (- t)))%Z in
  let r := ((if 0 <=? t then pow10 t else 1) * (if 0 <=? E then 1 else 2 ^ (- E)))%Z in
  (l / r)%Z.

Definition inside (iv : interval) (s t : Z) : bool :=
  match cmp (iv_lo iv) (iv_exp iv) s t, cmp (iv_hi iv) (iv_exp iv) s t with
  | Lt, Gt => true
  | Eq, Gt | Lt, Eq => iv_closed iv
  | _, _ => false
  end.

(** The least [n >= from] with [x < 10^n]. *)
Fixpoint magnitude (iv : interval) (from : Z) (fuel : nat) : Z :=
  match fuel with
  | O => from
  | S fuel' =>
      match cmp (iv_mid iv) (iv_exp iv) 1 from with
      | Lt => from
      | _ => magnitude iv (from + 1) fuel'
      end
  end.

(** For [k] digits: the candidates [s] and [s + 1] around [x / 10^(n-k)],
    kept when they round to [x]; of two, the closer one, the even one on
    a tie. *)
Definition candidate (iv : interval) (n k : Z) : option (Z * Z) :=
  let t := (n - k)%Z in
  let s := floor_scaled (iv_mid iv) (iv_exp iv) t in
  let lo_ok := inside iv s t in
  let hi_ok := inside iv (s + 1) t in
  let up := if (s + 1 =? pow10 k)%Z then (pow10 (k - 1), n + 1)%Z else (s + 1, n)%Z in
  match lo_ok, hi_ok with
  | true, false => Some (s, n)
  | false, true => Some up
  | true, true =>
      match cmp (2 * iv_mid iv) (iv_exp iv) (2 * s + 1) t with
      | Lt => Some (s, n)
      | Gt => Some up
      | Eq => if Z.even s then Some (s, n) else Some up
      end
  | false, false => None
  end.

Fixpoint shortest (iv : interval) (n k : Z) (fuel : nat) : Z * Z * Z :=
  match fuel with
  | O => (floor_scaled (iv_mid iv) (iv_exp iv) (n - k), k, n)
  | S fuel' =>
      match candidate iv n k with
      | Some (s, n') => (s, k, n')
      | None => shortest iv n (k + 1) fuel'
      end
  end.

Fixpoint zeros (n : nat) : string :=
  match n with O => "" | S n' => "0" +:+ zeros n' end.

(** Steps 6 to 10 of Number::toString on the digits [s], their number [k]
    and the decimal exponent [n]. *)
Definition format (s k n : Z) : string :=
  let d := digits s in
  if (k <=? n)%Z && (n <=? 21)%Z then d +:+ zeros (Z.to_nat (n - k))
  else if (0 <? n)%Z && (n <=? 21)%Z then
    substring 0 (Z.to_nat n) d +:+ "." +:+ substring (Z.to_nat n) (Z.to_nat (k - n)) d
  else if (-6 <? n)%Z && (n <=? 0)%Z then "0." +:+ zeros (Z.to_nat (- n)) +:+ d
  else
    let e := (n - 1)%Z in
    let exponent := (if (e <? 0)%Z then "-" else "+") +:+ digits (Z.abs e) in
    if (k =? 1)%Z then d +:+ "e" +:+ exponent
    else substring 0 1 d +:+ "." +:+ substring 1 (Z.to_nat (k - 1)) d +:+ "e" +:+ exponent.

Definition of_finite (m : positive) (e : Z) : string :=
  let iv := interval_of m e in
  (* x >= 2^(b-1), hence x >= 10^(estimate-1): the search starts below n *)
  let b := (Z.log2 (Z.pos m) + 1 + e)%Z in
  let estimate := ((b - 1) * 30103 / 100000)%Z in
  let n := magnitude iv (estimate - 1) 8 in
  let '(s, k, n') := shortest iv n 1 17 in
  format s k n'.

End NumberToString.

(** [Number.prototype.toString.call(x)], radix 10. *)
Definition Number_toString (x : float) : string :=
  match Prim2SF x with
  | S754_nan => "NaN"
  | S754_zero _ => "0"
  | S754_infinity s => if s then "-Infinity" else "Infinity"
  | S754_finite s m e =>
      (if s then "-" else "") +:+ NumberToString.of_finite m e
  end.

(* ===================================================================== *)
(** ** Strings, [encodeURIComponent], insertion-ordered [Map] *)
(* ===================================================================== *)

Definition hex_digit (n : N) : ascii :=
  match n with
  | 0 => "0" | 1 => "1" | 2 => "2" | 3 => "3" | 4 => "4" | 5 => "5"
  | 6 => "6" | 7 => "7" | 8 => "8" | 9 => "9" | 10 => "A" | 11 => "B"
  | 12 => "C" | 13 => "D" | 14 => "E" | _ => "F"
  end%N%char.

(** The characters [encodeURIComponent] leaves alone:
    [A-Z a-z 0-9 - _ . ! ~ * ' ( )]. *)
Definition uri_unreserved (c : ascii) : bool :=
  let n := N_of_ascii c in
  ((65 <=? n) && (n <=? 90) || (97 <=? n) && (n <=? 122)
   || (48 <=? n) && (n <=? 57))%N
  || existsb (Ascii.eqb c) (list_ascii_of_string "-_.!~*'()").

(** [encodeURIComponent(s)] for a well-formed string: every other byte of
    the UTF-8 encoding becomes [%XX]. *)
Fixpoint encodeURIComponent (s : string) : string :=
  match s with
  | EmptyString => EmptyString
  | String c s' =>
      if uri_unreserved c then String c (encodeURIComponent s')
      else
        let n := N_of_ascii c in
        String "%" (String (hex_digit (n / 16)) (String (hex_digit (n mod 16))
          (encodeURIComponent s')))
  end.

(** A JavaScript [Map] with string keys: entries in insertion order,
    [set] on a present key replaces the value in place. *)
Definition Map (V : Type) := list (string * V).

Fixpoint Map_set {V} (k : string) (v : V) (m : Map V) : Map V :=
  match m with
  | [] => [(k, v)]
  | (k', v') :: m' =>
      if String.eqb k' k then (k, v) :: m' else (k', v') :: Map_set k v m'
  end.

Definition Map_get {V} (k : string) (m : Map V) : option V := assoc k m.

Definition Map_has {V} (k : string) (m : Map V) : bool :=
  match assoc k m with Some _ => true | None => false end.

(** [Array.prototype.join]. *)
Fixpoint join (delimiter : string) (l : list string) : string :=
  match l with
  | [] => ""
  | [x] => x
  | x :: l' => x +:+ delimiter +:+ join delimiter l'
  end.

Definition joinParams (paramMap : Map string) (delimiter : string) : string :=
  let params := map (fun '(key, value) => key +:+ "=" +:+ value) paramMap in
  join delimiter params.

(* ===================================================================== *)
(** ** Constants and enumerations *)
(* ===================================================================== *)

Definition API_VERSION := "V1_6".

Definition PROD_GOOGLE_PAY_ORIGIN := "https://pay.google.com".
Definition TEST_GOOGLE_PAY_ORIGIN := "https://pay.sandbox.google.com".

Definition APP_URL_PATH := "/gp/v/a/pushprovisioning/frame".

Definition FIXED_APP_WINDOW_ID_1 := "googlepay-webpp-v1_6-app-window-1".
Definition FIXED_APP_WINDOW_ID_2 := "googlepay-webpp-v1_6-app-window-2".

Definition MIN_CONTENT_HEIGHT : float := 700%float.
Definition MIN_CONTENT_WIDTH : float := 1100%float.

Definition POLL_APP_WINDOW_CLOSED_INTERVAL_MS : Z := 200.

Module AppOptionKey.
Definition CARD_SETTING := "cardSetting".
Definition CLIENT_SESSION_ID := "clientSessionId".
Definition CONTENT_HEIGHT := "contentHeight".
Definition CONTENT_WIDTH := "contentWidth".
Definition HL := "hl".
Definition INTEGRATOR_ID := "integratorId".
Definition IS_TEST_ENVIRONMENT := "isTestEnvironment".
Definition ON_CANCEL := "onCancel".
Definition ON_FAILURE := "onFailure".
Definition ON_FINISH := "onFinish".
Definition ON_READY := "onReady".
Definition ON_SESSION_CREATED := "onSessionCreated".
Definition ON_SUCCESS := "onSuccess".
Definition TOKEN_SETTING := "tokenSetting".
End AppOptionKey.

Module UrlParamKey.
Definition API_VERSION := "apiVersion".
Definition CARD_SETTING := "cardSetting".
Definition CSID := "csid".
Definition HL := "hl".
Definition INTEGRATOR_ID := "integratorId".
Definition ORIGIN := "origin".
Definition TOKEN_SETTING := "tokenSetting".
Definition CONTENT_HEIGHT := "contentHeight".
Definition CONTENT_WIDTH := "contentWidth".
Definition WINDOW_FEATURES := "windowFeatures".
End UrlParamKey.

Module WindowFeatureKey.
Definition HEIGHT := "height".
Definition WIDTH := "width".
End WindowFeatureKey.

Module MessageDataKey.
Definition ACTION := "action".
Definition APP_WINDOW_ID := "appWindowId".
Definition CLIENT_SESSION_ID := "clientSessionId".
Definition PAYLOAD := "payload".
End MessageDataKey.

Module Action.
Definition FAILURE := "failure".
Definition READY := "ready".
Definition SESSION_CREATED := "sessionCreated".
Definition SUCCESS := "success".
End Action.

Module ErrorCode.
Definition INVALID_OR_MISSING_APP_OPTIONS := "E406".
Definition INVALID_OR_MISSING_ON_SESSION_CREATED := "E407".
Definition INVALID_OPTIONAL_CALLBACK := "E408".
Definition INVALID_CONTENT_DIMENSIONS := "E409".
Definition APP_WINDOW_ALREADY_OPEN := "E410".
Definition APP_WINDOW_NOT_OPENED := "E411".
End ErrorCode.

(* ===================================================================== *)
(** ** Completions: normal return or a thrown [Error] *)
(* ===================================================================== *)

(** [Throw code] is [throw new Error(code)]. *)
Inductive Completion (A : Type) :=
| Normal (a : A)
| Throw (errorCode : string).
Arguments Normal {A} a.
Arguments Throw {A} errorCode.

Definition cbind {A B} (c : Completion A) (k : A -> Completion B) : Completion B :=
  match c with
  | Normal a => k a
  | Throw e => Throw e
  end.

Declare Scope completion_scope.
Delimit Scope completion_scope with completion.
Notation "'let!' x ':=' c 'in' k" := (cbind c (fun x => k))
  (at level 10, x pattern, c at level 100, k at level 200) : completion_scope.

Definition assert (condition : bool) (errorCode : string) : Completion unit :=
  if negb condition then Throw errorCode else Normal tt.

(** Asserts that the value has one of the allowed types. *)
Definition assertValueType (value : JSValue) (allowedTypes : list string)
    (errorCode : string) : Completion JSValue :=
  let valueType := typeof value in
  (let! _ := assert (existsb (String.eqb valueType) allowedTypes) errorCode in
   Normal value)%completion.

(* ===================================================================== *)
(** ** Conversion to a string *)
(* ===================================================================== *)

(** The method call [value.toString()].  A primitive and a function use
    the method of their prototype; calling a method of [undefined] or
    [null] is a TypeError.  An object uses its own [toString] property
    when it has one, and [Object.prototype.toString] otherwise: a callback
    returns [undefined], and calling a value that is not a function is a
    TypeError.  The call of an own [toString] is a method call on the
    value, not one of the session's callback invocations, and is not
    entered in the call log. *)
Definition toString (v : JSValue) : Completion JSValue :=
  match v with
  | VUndefined | VNull => Throw "TypeError"
  | VBoolean b => Normal (VString (if b then "true" else "false"))
  | VNumber x => Normal (VString (Number_toString x))
  | VString s => Normal (VString s)
  | VIllFormedString units => Normal (VIllFormedString units)
  | VFunction f => Normal (VString (cb_source f))
  | VObject props =>
      match assoc "toString" props with
      | None => Normal (VString "[object Object]")
      | Some (VFunction _) => Normal VUndefined
      | Some _ => Throw "TypeError"
      end
  end.

(** ToPrimitive with hint string: [toString], then [valueOf], the first
    that is callable and returns a primitive; [Object.prototype.valueOf]
    returns the object itself. *)
Definition ToPrimitive (v : JSValue) : Completion JSValue :=
  match v with
  | VFunction f => Normal (VString (cb_source f))
  | VObject props =>
      match assoc "toString" props with
      | None => Normal (VString "[object Object]")
      | Some (VFunction _) => Normal VUndefined
      | Some _ =>
          match assoc "valueOf" props with
          | Some (VFunction _) => Normal VUndefined
          | _ => Throw "TypeError"
          end
      end
  | _ => Normal v
  end.

(** [encodeURIComponent(v)] for any argument: the argument is converted to
    a string first; a string with a lone surrogate is a URIError. *)
Definition encodeURIComponent_value (v : JSValue) : Completion string :=
  (let! primitive := ToPrimitive v in
   match primitive with
   | VUndefined => Normal (encodeURIComponent "undefined")
   | VNull => Normal (encodeURIComponent "null")
   | VBoolean b => Normal (encodeURIComponent (if b then "true" else "false"))
   | VNumber x => Normal (encodeURIComponent (Number_toString x))
   | VString s => Normal (encodeURIComponent s)
   | VIllFormedString _ => Throw "URIError"
   | VFunction _ | VObject _ => Throw "TypeError"
   end)%completion.

(* ===================================================================== *)
(** ** Options validator *)
(* ===================================================================== *)

(** The internal representation of the integrator's appOptions object.
    [None] stands for [undefined] in the callback and dimension fields. *)
Record AppOptions := mkAppOptions {
  onSessionCreated : option Callback;
  onReady : option Callback;
  onSuccess : option Callback;
  onFailure : option Callback;
  onFinish : option Callback;
  onCancel : option Callback;
  contentHeight : option float;
  contentWidth : option float;
  integratorId : JSValue;
  tokenSetting : JSValue;
  cardSetting : JSValue;
  isTestEnvironment : JSValue;
  clientSessionId : JSValue;
  hl : JSValue }.

Definition assertOptionalCallback (value : JSValue) : Completion JSValue :=
  assertValueType value ["function"; "undefined"]
    ErrorCode.INVALID_OPTIONAL_CALLBACK.

(** [new AppOptions(appOptionsObject)]: only the callbacks and the content
    dimensions are validated, in this order; the rest is taken as it is. *)
Definition AppOptions_new (appOptionsObject : JSValue) : Completion AppOptions :=
  (let! v_onSessionCreated :=
     assertValueType (get appOptionsObject AppOptionKey.ON_SESSION_CREATED)
       ["function"] ErrorCode.INVALID_OR_MISSING_ON_SESSION_CREATED in
   let! v_onReady :=
     assertOptionalCallback (get appOptionsObject AppOptionKey.ON_READY) in
   let! v_onSuccess :=
     assertOptionalCallback (get appOptionsObject AppOptionKey.ON_SUCCESS) in
   let! v_onFailure :=
     assertOptionalCallback (get appOptionsObject AppOptionKey.ON_FAILURE) in
   let! v_onFinish :=
     assertOptionalCallback (get appOptionsObject AppOptionKey.ON_FINISH) in
   let! v_onCancel :=
     assertOptionalCallback (get appOptionsObject AppOptionKey.ON_CANCEL) in
   let! v_contentHeight :=
     assertValueType (get appOptionsObject AppOptionKey.CONTENT_HEIGHT)
       ["number"; "undefined"] ErrorCode.INVALID_CONTENT_DIMENSIONS in
   let! v_contentWidth :=
     assertValueType (get appOptionsObject AppOptionKey.CONTENT_WIDTH)
       [typeof v_contentHeight] ErrorCode.INVALID_CONTENT_DIMENSIONS in
   Normal
     {| onSessionCreated := asCallback v_onSessionCreated;
        onReady := asCallback v_onReady;
        onSuccess := asCallback v_onSuccess;
        onFailure := asCallback v_onFailure;
        onFinish := asCallback v_onFinish;
        onCancel := asCallback v_onCancel;
        contentHeight := asNumber v_contentHeight;
        contentWidth := asNumber v_contentWidth;
        integratorId := get appOptionsObject AppOptionKey.INTEGRATOR_ID;
        tokenSetting := get appOptionsObject AppOptionKey.TOKEN_SETTING;
        cardSetting := get appOptionsObject AppOptionKey.CARD_SETTING;
        isTestEnvironment :=
          get appOptionsObject AppOptionKey.IS_TEST_ENVIRONMENT;
        clientSessionId := get appOptionsObject AppOptionKey.CLIENT_SESSION_ID;
        hl := get appOptionsObject AppOptionKey.HL |})%completion.

(* ===================================================================== *)
(** ** The page: popups, timers, the session objects *)
(* ===================================================================== *)

(** A window created by [window.open], with the arguments it was created
    with and its [closed] property. *)
Record Popup := mkPopup {
  popup_url : string;
  popup_name : string;
  popup_features : string;
  closed : bool }.

(** [window.location]: [origin] is missing ([None]) in old browsers. *)
Record Location := mkLocation {
  location_origin : option string;
  location_protocol : string;
  location_host : string }.

Record AppContext := mkAppContext {
  actionMap_ : Map (option Callback);
  onFinish_ : option Callback;
  onCancel_ : option Callback;
  appWindowId_ : string;
  appOrigin_ : string;
  appWindow_ : option nat;          (* ?Window: a handle into [popups] *)
  receivedAppOutcome_ : bool }.

(** One call of an integrator callback: the function, its argument, the
    session object that made the call and the value its
    [receivedAppOutcome_] field had at that moment. *)
Record Invocation := mkInvocation {
  inv_callback : Callback;
  inv_payload : JSValue;
  inv_this : nat;
  inv_receivedAppOutcome : bool }.

Record State := mkState {
  window_name : string;             (* the host page's own window.name *)
  window_location : Location;
  popup_blocked : bool;             (* window.open returns null *)
  popups : list Popup;
  heap : list AppContext;           (* every AppContext object, by address *)
  currentAppContext : option nat;   (* the singleton, null at load *)
  timeouts : list nat;              (* pending poll closures, oldest first *)
  listening : bool;                 (* the 'message' listener is registered *)
  calls : list Invocation }.

Definition set_popups (f : list Popup -> list Popup) (s : State) : State :=
  mkState (window_name s) (window_location s) (popup_blocked s) (f (popups s))
    (heap s) (currentAppContext s) (timeouts s) (listening s) (calls s).

Definition set_heap (f : list AppContext -> list AppContext) (s : State) : State :=
  mkState (window_name s) (window_location s) (popup_blocked s) (popups s)
    (f (heap s)) (currentAppContext s) (timeouts s) (listening s) (calls s).

Definition set_currentAppContext (c : option nat) (s : State) : State :=
  mkState (window_name s) (window_location s) (popup_blocked s) (popups s)
    (heap s) c (timeouts s) (listening s) (calls s).

Definition set_timeouts (f : list nat -> list nat) (s : State) : State :=
  mkState (window_name s) (window_location s) (popup_blocked s) (popups s)
    (heap s) (currentAppContext s) (f (timeouts s)) (listening s) (calls s).

Definition set_listening (b : bool) (s : State) : State :=
  mkState (window_name s) (window_location s) (popup_blocked s) (popups s)
    (heap s) (currentAppContext s) (timeouts s) b (calls s).

Definition set_calls (f : list Invocation -> list Invocation) (s : State) : State :=
  mkState (window_name s) (window_location s) (popup_blocked s) (popups s)
    (heap s) (currentAppContext s) (timeouts s) (listening s) (f (calls s)).

Definition set_window_name (n : string) (s : State) : State :=
  mkState n (window_location s) (popup_blocked s) (popups s)
    (heap s) (currentAppContext s) (timeouts s) (listening s) (calls s).

Definition set_popup_blocked (b : bool) (s : State) : State :=
  mkState (window_name s) (window_location s) b (popups s)
    (heap s) (currentAppContext s) (timeouts s) (listening s) (calls s).

(** Code that runs on the page: it may change the state and may throw; the
    state reached when it throws is kept. *)
Definition M (A : Type) := State -> Completion A * State.

Definition ret {A} (a : A) : M A := fun s => (Normal a, s).

Definition bind {A B} (c : M A) (k : A -> M B) : M B :=
  fun s =>
    match c s with
    | (Normal a, s') => k a s'
    | (Throw e, s') => (Throw e, s')
    end.

Definition throw {A} (errorCode : string) : M A := fun s => (Throw errorCode, s).

Definition lift {A} (c : Completion A) : M A := fun s => (c, s).

Definition gets {A} (f : State -> A) : M A := fun s => (Normal (f s), s).

Definition modify (f : State -> State) : M unit := fun s => (Normal tt, f s).

Declare Scope js_scope.
Delimit Scope js_scope with js.
Notation "x <- c ;; k" := (bind c (fun x => k))
  (at level 100, c at next level, right associativity) : js_scope.
Notation "c ;;; k" := (bind c (fun _ => k))
  (at level 100, right associativity) : js_scope.
Open Scope js_scope.

(* ===================================================================== *)
(** ** Browser primitives *)
(* ===================================================================== *)

(** The origin of the page that uses the library:
    [window.location.origin || protocol + '//' + host]. *)
Definition getCurrentPageOrigin (s : State) : string :=
  let l := window_location s in
  if truthy (from_option VString VUndefined (location_origin l))
  then default "" (location_origin l)
  else location_protocol l +:+ "//" +:+ location_host l.

(** [window.open(url, name, features)]: [null] when the popup is blocked,
    otherwise a new open window.  No application window of the page is open
    when a session opens its own (see [one_window_open]), so the named
    window never is an existing one. *)
Definition window_open (url name features : string) : M (option nat) :=
  fun s =>
    if popup_blocked s then (Normal None, s)
    else (Normal (Some (length (popups s))),
          set_popups (fun ps => (ps ++ [mkPopup url name features false])%list) s).

(** [w.closed]; a handle always denotes a window of [popups]. *)
Definition window_closed (w : nat) : M bool :=
  gets (fun s => from_option closed true (popups s !! w)).

Definition closePopup (p : Popup) : Popup :=
  mkPopup (popup_url p) (popup_name p) (popup_features p) true.

(** [w.close()]. *)
Definition window_close (w : nat) : M unit :=
  modify (set_popups (fun ps => alter closePopup w ps)).

(** [setTimeout(() => this.pollAppWindowClosed_(), 200)]: every pending
    closure has the same delay, so they fire in the order they were set. *)
Definition setTimeout (this : nat) : M unit :=
  modify (set_timeouts (fun ts => (ts ++ [this])%list)).

(** Reading the fields of the object at address [this]. *)
Definition read (this : nat) : M AppContext :=
  fun s =>
    match heap s !! this with
    | Some ctx => (Normal ctx, s)
    | None => (Throw "TypeError", s)
    end.

Definition new (ctx : AppContext) : M nat :=
  fun s => (Normal (length (heap s)), set_heap (fun h => (h ++ [ctx])%list) s).

(** [this.receivedAppOutcome_ = b]. *)
Definition set_receivedAppOutcome_ (this : nat) (b : bool) : M unit :=
  modify (set_heap (fun h =>
    alter (fun c => mkAppContext (actionMap_ c) (onFinish_ c) (onCancel_ c)
                      (appWindowId_ c) (appOrigin_ c) (appWindow_ c) b) this h)).

(** [callback(payload)] from a method of the object [this]; calling
    [undefined] is a TypeError.  The callback returns [undefined]; a
    callback that throws is outside the model. *)
Definition invoke (this : nat) (callback : option Callback) (payload : JSValue)
    : M unit :=
  match callback with
  | None => throw "TypeError"
  | Some f =>
      ctx <- read this ;;
      modify (set_calls (fun l =>
        (l ++ [mkInvocation f payload this (receivedAppOutcome_ ctx)])%list))
  end.

(* ===================================================================== *)
(** ** Window session manager *)
(* ===================================================================== *)

(** The callbacks that correspond to actions; [onFinish] and [onCancel]
    are not among them, and a value may be [undefined]. *)
Definition makeActionMap_ (appOptions : AppOptions) : Map (option Callback) :=
  Map_set Action.FAILURE (onFailure appOptions)
    (Map_set Action.SUCCESS (onSuccess appOptions)
      (Map_set Action.READY (onReady appOptions)
        (Map_set Action.SESSION_CREATED (onSessionCreated appOptions) []))).

(** [undefined] converts to NaN where a number is expected. *)
Definition ToNumber (n : option float) : float := default nan n.

(** The window features string passed to [window.open]. *)
Definition getAppWindowFeatures_ (appOptions : AppOptions) : string :=
  if negb (truthy (ofNumber (contentHeight appOptions)))
     || negb (truthy (ofNumber (contentWidth appOptions)))
  then ""
  else
    (* Make the window sufficiently large to avoid clipping the content. *)
    let appWindowFeatureMap :=
      [ (WindowFeatureKey.HEIGHT,
         Number_toString
           (Math_max MIN_CONTENT_HEIGHT (ToNumber (contentHeight appOptions))));
        (WindowFeatureKey.WIDTH,
         Number_toString
           (Math_max MIN_CONTENT_WIDTH (ToNumber (contentWidth appOptions)))) ] in
    joinParams appWindowFeatureMap ",".

(** A value that is sent is converted by its [toString] method, and the
    result is URI-encoded; either step may throw, and then the map is left
    as it was. *)
Definition processUrlParam (urlParamKey : string) (value : JSValue)
    (urlParamMap : Map string) : Completion (Map string) :=
  if negb (String.eqb (typeof value) "undefined")
     && negb (strict_eq_string value "") && negb (is_null value)
  then
    (let! str := toString value in
     let! encoded := encodeURIComponent_value str in
     Normal (Map_set urlParamKey encoded urlParamMap))%completion
  else Normal urlParamMap.

(** The URL parameters sent to the server, in the order they are set.  The
    page origin is a well-formed string. *)
Definition appUrlParamMap (pageOrigin : string) (appOptions : AppOptions)
    (appWindowFeatures : string) : Completion (Map string) :=
  let urlParamMap :=
    [ (UrlParamKey.API_VERSION, API_VERSION);
      (UrlParamKey.ORIGIN, encodeURIComponent pageOrigin) ] in
  (let! urlParamMap := processUrlParam UrlParamKey.INTEGRATOR_ID (integratorId appOptions) urlParamMap in
   let! urlParamMap := processUrlParam UrlParamKey.TOKEN_SETTING (tokenSetting appOptions) urlParamMap in
   let! urlParamMap := processUrlParam UrlParamKey.CARD_SETTING (cardSetting appOptions) urlParamMap in
   let! urlParamMap := processUrlParam UrlParamKey.CSID (clientSessionId appOptions) urlParamMap in
   let! urlParamMap := processUrlParam UrlParamKey.HL (hl appOptions) urlParamMap in
   processUrlParam UrlParamKey.WINDOW_FEATURES (VString appWindowFeatures) urlParamMap)%completion.

Definition getAppQueryString_ (pageOrigin : string) (appOptions : AppOptions)
    (appWindowFeatures : string) : Completion string :=
  (let! urlParamMap := appUrlParamMap pageOrigin appOptions appWindowFeatures in
   Normal ("?" +:+ joinParams urlParamMap "&"))%completion.

(** True if the application window is currently open. *)
Definition AppContext_isAppWindowOpen (this : nat) : M bool :=
  ctx <- read this ;;
  match appWindow_ ctx with
  | None => ret false
  | Some w => c <- window_closed w ;; ret (negb c)
  end.

(** Closes the application window if it is currently open. *)
Definition AppContext_closeAppWindow (this : nat) : M unit :=
  open <- AppContext_isAppWindowOpen this ;;
  if open then
    ctx <- read this ;;
    match appWindow_ ctx with
    | None => throw "TypeError"
    | Some w => window_close w
    end
  else ret tt.

(** Calls onFinish or onCancel when the application window is found closed,
    and schedules itself again when continued polling is needed. *)
Definition pollAppWindowClosed_ (this : nat) : M unit :=
  ctx <- read this ;;
  match appWindow_ ctx with
  | None => throw "TypeError"
  | Some w =>
      c <- window_closed w ;;
      if c then
        if bool_decide (is_Some (onFinish_ ctx)) && receivedAppOutcome_ ctx then
          invoke this (onFinish_ ctx) empty_object
        else if bool_decide (is_Some (onCancel_ ctx))
                && negb (receivedAppOutcome_ ctx) then
          invoke this (onCancel_ ctx) empty_object
        else ret tt
      else if bool_decide (is_Some (onFinish_ ctx))
              || bool_decide (is_Some (onCancel_ ctx))
                 && negb (receivedAppOutcome_ ctx) then
        setTimeout this
      else ret tt
  end.

(** [new AppContext(appOptions)]: configures the application and opens it
    in a new window.  The new object gets its address once all its fields
    are known; when the constructor throws, nothing refers to it. *)
Definition AppContext_new (appOptions : AppOptions) : M nat :=
  let actionMap := makeActionMap_ appOptions in
  name <- gets window_name ;;
  let appWindowId :=
    if String.eqb name FIXED_APP_WINDOW_ID_1
    then FIXED_APP_WINDOW_ID_2 else FIXED_APP_WINDOW_ID_1 in
  let appOrigin :=
    if truthy (isTestEnvironment appOptions)
    then TEST_GOOGLE_PAY_ORIGIN else PROD_GOOGLE_PAY_ORIGIN in
  let appWindowFeatures := getAppWindowFeatures_ appOptions in
  pageOrigin <- gets getCurrentPageOrigin ;;
  appQueryString <-
    lift (getAppQueryString_ pageOrigin appOptions appWindowFeatures) ;;
  let appUrl := appOrigin +:+ APP_URL_PATH +:+ appQueryString in
  appWindow <- window_open appUrl appWindowId appWindowFeatures ;;
  lift (assert (bool_decide (is_Some appWindow)) ErrorCode.APP_WINDOW_NOT_OPENED) ;;;
  this <- new (mkAppContext actionMap (onFinish appOptions) (onCancel appOptions)
                 appWindowId appOrigin appWindow false) ;;
  pollAppWindowClosed_ this ;;;
  ret this.

(** A 'message' event: the data sent and the origin of the sender. *)
Record MessageEvent := mkMessageEvent {
  data : JSValue;
  origin : string }.

(** [actionMap_.get(action)] for an action that may be any value: only a
    string can be a key of the map. *)
Definition actionMap_get (action : JSValue) (m : Map (option Callback))
    : option Callback :=
  match action with
  | VString a => mjoin (Map_get a m)
  | _ => None
  end.

(** Handles a 'message' event which may or may not come from the
    application window. *)
Definition AppContext_handleMessageEvent (this : nat) (messageEvent : MessageEvent)
    : M unit :=
  let messageData :=
    if truthy (data messageEvent) then data messageEvent else empty_object in
  ctx <- read this ;;
  open <- AppContext_isAppWindowOpen this ;;
  if negb open
     || negb (String.eqb (origin messageEvent) (appOrigin_ ctx))
     || negb (strict_eq_string (get messageData MessageDataKey.APP_WINDOW_ID)
                (appWindowId_ ctx))
     || negb (truthy (get messageData MessageDataKey.ACTION))
  then ret tt
  else
    let action := get messageData MessageDataKey.ACTION in
    (if strict_eq_string action Action.SUCCESS
        || strict_eq_string action Action.FAILURE
     then set_receivedAppOutcome_ this true else ret tt) ;;;
    let callback := actionMap_get action (actionMap_ ctx) in
    if bool_decide (is_Some callback)
    then invoke this callback (get messageData MessageDataKey.PAYLOAD)
    else ret tt.

(* ===================================================================== *)
(** ** Public entry points and page-level handlers *)
(* ===================================================================== *)

Definition openAppWindow (appOptionsObject : JSValue) : M unit :=
  lift (assertValueType appOptionsObject ["object"]
          ErrorCode.INVALID_OR_MISSING_APP_OPTIONS) ;;;
  lift (assert (negb (is_null appOptionsObject))
          ErrorCode.INVALID_OR_MISSING_APP_OPTIONS) ;;;
  appOptions <- lift (AppOptions_new appOptionsObject) ;;
  current <- gets currentAppContext ;;
  notOpen <- match current with
             | None => ret true
             | Some this => open <- AppContext_isAppWindowOpen this ;; ret (negb open)
             end ;;
  lift (assert notOpen ErrorCode.APP_WINDOW_ALREADY_OPEN) ;;;
  this <- AppContext_new appOptions ;;
  modify (set_currentAppContext (Some this)).

Definition closeAppWindow : M unit :=
  current <- gets currentAppContext ;;
  match current with
  | Some this => AppContext_closeAppWindow this
  | None => ret tt
  end.

(** Forwards a 'message' event to the current singleton; ignored when
    there is none. *)
Definition handleMessageEvent (event : MessageEvent) : M unit :=
  current <- gets currentAppContext ;;
  match current with
  | Some this => AppContext_handleMessageEvent this event
  | None => ret tt
  end.

Definition handleUnloadEvent : M unit :=
  modify (set_listening false) ;;;
  closeAppWindow.

(** What can happen on the page, one event at a time: the integrator calls
    an entry point, a message is delivered, the oldest pending timeout
    fires, an application window is closed by the user or by its own
    script, the browser's popup blocking or the host window's name
    changes, the page unloads. *)
Inductive Event :=
| CallOpenAppWindow (appOptionsObject : JSValue)
| CallCloseAppWindow
| MessageArrives (event : MessageEvent)
| TimeoutFires
| WindowCloses (w : nat)
| PopupBlocking (b : bool)
| WindowRenamed (name : string)
| Unload.

Definition step (e : Event) : M unit :=
  match e with
  | CallOpenAppWindow o => openAppWindow o
  | CallCloseAppWindow => closeAppWindow
  | MessageArrives event =>
      l <- gets listening ;;
      if l then handleMessageEvent event else ret tt
  | TimeoutFires =>
      ts <- gets timeouts ;;
      match ts with
      | [] => ret tt
      | this :: _ =>
          modify (set_timeouts (fun ts => tail ts)) ;;;
          pollAppWindowClosed_ this
      end
  | WindowCloses w => window_close w
  | PopupBlocking b => modify (set_popup_blocked b)
  | WindowRenamed name => modify (set_window_name name)
  | Unload =>
      l <- gets listening ;;
      if l then handleUnloadEvent else ret tt
  end.

(** An error thrown by an entry point goes to the caller; the page goes on
    from the state reached. *)
Definition exec (e : Event) (s : State) : State := snd (step e s).

Definition run (es : list Event) (s : State) : State := fold_left (fun s e => exec e s) es s.

(** The page right after the script is loaded. *)
Definition initial (name : string) (loc : Location) (blocked : bool) : State :=
  mkState name loc blocked [] [] None [] true [].

(* ===================================================================== *)
(** ** Predicates used in the statements *)
(* ===================================================================== *)

(** The callback fields of a configuration object pass validation: the
    session-created callback is a function, each of the other five is a
    function or undefined. *)
Definition optionalCallbackValid (o : JSValue) (k : string) : bool :=
  String.eqb (typeof (get o k)) "function"
  || String.eqb (typeof (get o k)) "undefined".

Definition callbacksValid (o : JSValue) : bool :=
  String.eqb (typeof (get o AppOptionKey.ON_SESSION_CREATED)) "function"
  && forallb (optionalCallbackValid o)
       [AppOptionKey.ON_READY; AppOptionKey.ON_SUCCESS; AppOptionKey.ON_FAILURE;
        AppOptionKey.ON_FINISH; AppOptionKey.ON_CANCEL].

(** Height and width are both numbers or both undefined. *)
Definition dimensionsValid (o : JSValue) : bool :=
  let h := typeof (get o AppOptionKey.CONTENT_HEIGHT) in
  let w := typeof (get o AppOptionKey.CONTENT_WIDTH) in
  String.eqb h "number" && String.eqb w "number"
  || String.eqb h "undefined" && String.eqb w "undefined".

Definition is_undefined (v : JSValue) : bool :=
  match v with VUndefined => true | _ => false end.

(** Exactly one of height and width is defined. *)
Definition exactlyOneDimension (o : JSValue) : bool :=
  xorb (is_undefined (get o AppOptionKey.CONTENT_HEIGHT))
       (is_undefined (get o AppOptionKey.CONTENT_WIDTH)).

(** The options with both content dimensions left out. *)
Definition withoutDimensions (a : AppOptions) : AppOptions :=
  mkAppOptions (onSessionCreated a) (onReady a) (onSuccess a) (onFailure a)
    (onFinish a) (onCancel a) None None (integratorId a) (tokenSetting a)
    (cardSetting a) (isTestEnvironment a) (clientSessionId a) (hl a).


(** The window of a session object is open in state [s]. *)
Definition windowOpen (ctx : AppContext) (s : State) : bool :=
  match appWindow_ ctx with
  | None => false
  | Some w => negb (from_option closed true (popups s !! w))
  end.

(** The singleton exists and its window is open; reading a dangling
    reference would be a TypeError. *)
Definition currentWindowOpen (s : State) : Completion bool :=
  match currentAppContext s with
  | None => Normal false
  | Some this =>
      match heap s !! this with
      | Some ctx => Normal (windowOpen ctx s)
      | None => Throw "TypeError"
      end
  end.

(** The state a successful [new AppContext(a)] leaves: one more window,
    one more session object, and a pending poll when onFinish or onCancel
    is registered. *)
Definition newAppWindowId (s : State) : string :=
  if String.eqb (window_name s) FIXED_APP_WINDOW_ID_1
  then FIXED_APP_WINDOW_ID_2 else FIXED_APP_WINDOW_ID_1.

Definition newAppOrigin (a : AppOptions) : string :=
  if truthy (isTestEnvironment a)
  then TEST_GOOGLE_PAY_ORIGIN else PROD_GOOGLE_PAY_ORIGIN.

Definition newContext (a : AppOptions) (s : State) : AppContext :=
  mkAppContext (makeActionMap_ a) (onFinish a) (onCancel a)
    (newAppWindowId s) (newAppOrigin a) (Some (length (popups s))) false.

(** The query string of the new window's URL, and whether it can be built. *)
Definition newQueryString (a : AppOptions) (s : State) : Completion string :=
  getAppQueryString_ (getCurrentPageOrigin s) a (getAppWindowFeatures_ a).

Definition builds {A} (c : Completion A) : bool :=
  match c with Normal _ => true | Throw _ => false end.

Definition built (c : Completion string) : string :=
  match c with Normal q => q | Throw _ => "" end.

Definition newPopup (a : AppOptions) (s : State) : Popup :=
  mkPopup
    (newAppOrigin a +:+ APP_URL_PATH +:+ built (newQueryString a s))
    (newAppWindowId s) (getAppWindowFeatures_ a) false.

Definition afterOpen (a : AppOptions) (s : State) : State :=
  mkState (window_name s) (window_location s) (popup_blocked s)
    (popups s ++ [newPopup a s])%list
    (heap s ++ [newContext a s])%list
    (currentAppContext s)
    (timeouts s ++
       (if bool_decide (is_Some (onFinish a)) || bool_decide (is_Some (onCancel a))
        then [length (heap s)] else []))%list
    (listening s) (calls s).

(** The data of a message, [{}] when it is missing or falsy. *)
Definition messageDataOf (event : MessageEvent) : JSValue :=
  if truthy (data event) then data event else empty_object.

Definition actionOf (event : MessageEvent) : JSValue :=
  get (messageDataOf event) MessageDataKey.ACTION.

Definition payloadOf (event : MessageEvent) : JSValue :=
  get (messageDataOf event) MessageDataKey.PAYLOAD.

(** The four conditions under which the router accepts a message: the
    session's window is open, the origin is the session's target origin,
    the appWindowId field is the session's window identifier, and the
    action field is truthy. *)
Definition accepts (ctx : AppContext) (event : MessageEvent) (s : State) : bool :=
  windowOpen ctx s
  && String.eqb (origin event) (appOrigin_ ctx)
  && strict_eq_string (get (messageDataOf event) MessageDataKey.APP_WINDOW_ID)
       (appWindowId_ ctx)
  && truthy (actionOf event).

(** The action is 'success' or 'failure'. *)
Definition isOutcome (action : JSValue) : bool :=
  strict_eq_string action Action.SUCCESS
  || strict_eq_string action Action.FAILURE.

Definition withOutcome (c : AppContext) : AppContext :=
  mkAppContext (actionMap_ c) (onFinish_ c) (onCancel_ c)
    (appWindowId_ c) (appOrigin_ c) (appWindow_ c) true.

(** The state after the object at [this] has recorded an outcome. *)
Definition markOutcome (this : nat) (s : State) : State :=
  set_heap (fun h => alter withOutcome this h) s.

(** The state after one more callback invocation has been logged. *)
Definition logCall (f : Callback) (payload : JSValue) (this : nat)
    (received : bool) (s : State) : State :=
  set_calls (fun l => (l ++ [mkInvocation f payload this received])%list) s.

(** The value of [receivedAppOutcome_] of the object at [this]. *)
Definition outcomeReceived (this : nat) (s : State) : bool :=
  from_option receivedAppOutcome_ false (heap s !! this).

(** Event [e], arriving in state [s], is a message that the router accepts
    for the session object [this] with action 'success' or 'failure'. *)
Definition routesOutcome (this : nat) (e : Event) (s : State) : bool :=
  match e with
  | MessageArrives event =>
      listening s
      && bool_decide (currentAppContext s = Some this)
      && from_option (fun ctx => accepts ctx event s) false (heap s !! this)
      && isOutcome (actionOf event)
  | _ => false
  end.

(** Some event of the run [es] from [s] routes an outcome to [this]. *)
Fixpoint outcomeRouted (this : nat) (es : list Event) (s : State) : bool :=
  match es with
  | [] => false
  | e :: es' => routesOutcome this e s || outcomeRouted this es' (exec e s)
  end.

Definition isRename (e : Event) : bool :=
  match e with WindowRenamed _ => true | _ => false end.

(** Every field of a session object but the outcome flag is constant. *)
Definition sameSession (c c' : AppContext) : Prop :=
  actionMap_ c' = actionMap_ c /\ onFinish_ c' = onFinish_ c
  /\ onCancel_ c' = onCancel_ c /\ appWindowId_ c' = appWindowId_ c
  /\ appOrigin_ c' = appOrigin_ c /\ appWindow_ c' = appWindow_ c.

(** The window identifier of the current session, if there is one. *)
Definition currentWindowId (s : State) : option string :=
  this ← currentAppContext s; ctx ← heap s !! this; Some (appWindowId_ ctx).

(* ===================================================================== *)
(** ** Sample inputs *)
(* ===================================================================== *)

Definition sampleCallback (n : nat) : Callback :=
  mkCallback n "function (payload) {}".

Definition sampleLocation : Location :=
  mkLocation (Some "https://www.acmecreditunion.com") "https:"
    "www.acmecreditunion.com".

(** A freshly loaded page, popups allowed. *)
Definition samplePage : State := initial "" sampleLocation false.

(** A freshly loaded page on which popups are blocked. *)
Definition blockedPage : State := initial "" sampleLocation true.

Definition sampleFields : list (string * JSValue) :=
  [ ("integratorId", VString "ACMEISSUER_1");
    ("tokenSetting", VNumber 1);
    ("cardSetting", VNumber 1);
    ("isTestEnvironment", VBoolean true);
    ("hl", VString "en-US");
    ("onSessionCreated", VFunction (sampleCallback 1));
    ("onSuccess", VFunction (sampleCallback 2));
    ("onFinish", VFunction (sampleCallback 3));
    ("onCancel", VFunction (sampleCallback 4)) ].

Definition sampleOptions : JSValue := VObject sampleFields.

(** The sample options with an integrator id that cannot be converted to
    a string: an object whose own [toString] is not a function. *)
Definition unconvertibleOptions : JSValue :=
  VObject (("integratorId", VObject [("toString", VString "x")]) :: sampleFields).

(** The sample options with the two content dimensions given. *)
Definition sampleWithDimensions (h w : JSValue) : JSValue :=
  VObject (("contentHeight", h) :: ("contentWidth", w) :: sampleFields).

(** Only a height, and no callback at all. *)
Definition heightOnly : JSValue := VObject [("contentHeight", VNumber 5)].

(** A zero height, a width, and no callback at all. *)
Definition zeroHeightNoCallback : JSValue :=
  VObject [("contentHeight", VNumber 0); ("contentWidth", VNumber 1200)].

(** The sample options without the required callback. *)
Definition noSessionCreated : JSValue :=
  VObject [("integratorId", VString "ACMEISSUER_1");
           ("onSessionCreated", VString "notAFunction")].

Definition sampleMessage (action : string) (windowId : string) (from : string)
    : MessageEvent :=
  mkMessageEvent
    (VObject [("action", VString action); ("appWindowId", VString windowId);
              ("payload", VObject [("tokenResult", VString "OK")])])
    from.

(** The validated form of the sample options with the given content
    dimensions. *)
Definition sampleAppOptions (h w : option float) : AppOptions :=
  mkAppOptions (Some (sampleCallback 1)) None (Some (sampleCallback 2)) None
    (Some (sampleCallback 3)) (Some (sampleCallback 4)) h w
    (VString "ACMEISSUER_1") (VNumber 1) (VNumber 1) (VBoolean true)
    VUndefined (VString "en-US").

Definition nanHeightOptions : AppOptions :=
  sampleAppOptions (Some nan) (Some 1200%float).

(* ===================================================================== *)
(** ** Well-formed pages *)
(* ===================================================================== *)

(** Every session object holds the handle of a window of the page, the
    singleton and the pending polls refer to session objects, and a window
    that is still open is the window of the current session: at most one
    application window is open at any time. *)
Record wellFormed (s : State) : Prop := mkWellFormed {
  wf_heap : forall this ctx, heap s !! this = Some ctx ->
            exists w, appWindow_ ctx = Some w /\ w < length (popups s);
  wf_current : forall this, currentAppContext s = Some this ->
               this < length (heap s);
  wf_timeouts : forall this, In this (timeouts s) -> this < length (heap s);
  wf_one_open : forall w p, popups s !! w = Some p -> closed p = false ->
                exists this ctx, currentAppContext s = Some this
                  /\ heap s !! this = Some ctx /\ appWindow_ ctx = Some w }.

(** Unfolds the validator down to its chain of type tests. *)
Ltac unfold_validator :=
  unfold AppOptions_new, assertOptionalCallback, assertValueType, assert, cbind.

(* ===================================================================== *)
(** ** The host application that calls the library *)
(* ===================================================================== *)

(** [console.debug(...)]: the console is not part of the page state. *)
Definition console_debug (message : string) : M unit := ret tt.

Definition double_quote : string := String (ascii_of_N 34) EmptyString.

(** The two arrow functions the service registers, with their text on one
    line. *)
Definition UtilsService_onReady : Callback :=
  mkCallback 0
    ("() => { console.debug(" +:+ double_quote +:+ "ready hook fired"
     +:+ double_quote +:+ "); }").

Definition UtilsService_onSessionCreated : Callback :=
  mkCallback 1
    ("(payload: any) => { console.debug(" +:+ double_quote
     +:+ "session created hook fired" +:+ double_quote +:+ ", payload); }").

(** The object literal the service passes to the library. *)
Definition UtilsService_appOptions : JSValue :=
  VObject
    [ ("integratorId", VString "CAPITALONE_1");
      ("isTestEnvironment", VBoolean true);
      ("tokenSetting", VNumber 1);
      ("cardSetting", VNumber 1);
      ("hl", VString "en-US");
      ("onReady", VFunction UtilsService_onReady);
      ("onSessionCreated", VFunction UtilsService_onSessionCreated) ].

(** [UtilsService.openAppWindow()]: calls the entry point the library put
    on [window.googlepay]. *)
Definition UtilsService_openAppWindow : M unit :=
  openAppWindow UtilsService_appOptions.

(** [AppComponent.link()], the handler of the page's button. *)
Definition AppComponent_link : M unit :=
  console_debug "Start flow" ;;;
  UtilsService_openAppWindow.

(* ===================================================================== *)
(** ** Further predicates *)
(* ===================================================================== *)

(** A page reached from its load by some sequence of events. *)
Definition reachable (s : State) : Prop :=
  exists name loc blocked es, s = run es (initial name loc blocked).

(** The six error codes of the library. *)
Definition errorCodes : list string :=
  [ ErrorCode.INVALID_OR_MISSING_APP_OPTIONS;
    ErrorCode.INVALID_OR_MISSING_ON_SESSION_CREATED;
    ErrorCode.INVALID_OPTIONAL_CALLBACK;
    ErrorCode.INVALID_CONTENT_DIMENSIONS;
    ErrorCode.APP_WINDOW_ALREADY_OPEN;
    ErrorCode.APP_WINDOW_NOT_OPENED ].

(** The five optional callback keys. *)
Definition optionalCallbackKeys : list string :=
  [ AppOptionKey.ON_READY; AppOptionKey.ON_SUCCESS; AppOptionKey.ON_FAILURE;
    AppOptionKey.ON_FINISH; AppOptionKey.ON_CANCEL ].

(** A value that is sent as a URL parameter: anything but [undefined],
    the empty string and [null]. *)
Definition isSent (v : JSValue) : bool :=
  negb (is_undefined v) && negb (strict_eq_string v "") && negb (is_null v).

(** A string made only of the characters [encodeURIComponent] leaves alone
    and of the percent sign. *)
Definition uriSafe (str : string) : bool :=
  forallb (fun c => uri_unreserved c || Ascii.eqb c "%")
    (list_ascii_of_string str).

(** The session still has something to learn from polling: its window is
    open and onFinish is registered, or onCancel is and no outcome has
    been received. *)
Definition pollWarranted (ctx : AppContext) (s : State) : bool :=
  windowOpen ctx s
  && (bool_decide (is_Some (onFinish_ ctx))
      || bool_decide (is_Some (onCancel_ ctx)) && negb (receivedAppOutcome_ ctx)).

(** The callback invocations made by the session object at [this]. *)
Definition callsBy (this : nat) (s : State) : list Invocation :=
  List.filter (fun i => Nat.eqb (inv_this i) this) (calls s).

(** The events whose handler may call an integrator callback: a message
    and a poll. *)
Definition runsCallback (e : Event) : bool :=
  match e with MessageArrives _ | TimeoutFires => true | _ => false end.

Definition isOpenCall (e : Event) : bool :=
  match e with CallOpenAppWindow _ => true | _ => false end.

(** What the poll of a closed window reports for a session object: onFinish
    after an outcome, onCancel without one, when registered. *)
Definition disposition (ctx : AppContext) : option (Callback * bool) :=
  if receivedAppOutcome_ ctx
  then option_map (fun f => (f, true)) (onFinish_ ctx)
  else option_map (fun f => (f, false)) (onCancel_ ctx).

(** The state after the router has accepted [event] for the object at
    [this]: the outcome recorded if the action is one, then the callback of
    the action called if there is one. *)
Definition routed (this : nat) (ctx : AppContext) (event : MessageEvent)
    (s : State) : State :=
  let s1 := if isOutcome (actionOf event) then markOutcome this s else s in
  match actionMap_get (actionOf event) (actionMap_ ctx) with
  | Some f => logCall f (payloadOf event) this (outcomeReceived this s1) s1
  | None => s1
  end.

(** The effect of one event on the page, case by case. *)
Inductive effect (s : State) : Event -> State -> Prop :=
| effect_none (e : Event) :
    match e with
    | TimeoutFires => timeouts s = []
    | WindowCloses _ | PopupBlocking _ | WindowRenamed _ => False
    | Unload => listening s = false
    | _ => True
    end ->
    effect s e s
| effect_open (o : JSValue) (a : AppOptions) :
    AppOptions_new o = Normal a ->
    currentWindowOpen s = Normal false ->
    builds (newQueryString a s) = true ->
    popup_blocked s = false ->
    effect s (CallOpenAppWindow o)
      (set_currentAppContext (Some (length (heap s))) (afterOpen a s))
| effect_close (this w : nat) (ctx : AppContext) :
    currentAppContext s = Some this -> heap s !! this = Some ctx ->
    appWindow_ ctx = Some w -> windowOpen ctx s = true ->
    effect s CallCloseAppWindow (set_popups (fun ps => alter closePopup w ps) s)
| effect_message (event : MessageEvent) (this : nat) (ctx : AppContext) :
    listening s = true ->
    currentAppContext s = Some this -> heap s !! this = Some ctx ->
    accepts ctx event s = true ->
    effect s (MessageArrives event) (routed this ctx event s)
| effect_timeout_drop (this : nat) (ts : list nat) :
    timeouts s = this :: ts ->
    (forall ctx w, heap s !! this = Some ctx -> appWindow_ ctx = Some w ->
       if windowOpen ctx s then pollWarranted ctx s = false
       else disposition ctx = None) ->
    effect s TimeoutFires (set_timeouts (fun ts => tail ts) s)
| effect_timeout_again (this : nat) (ts : list nat) (ctx : AppContext) :
    timeouts s = this :: ts -> heap s !! this = Some ctx ->
    pollWarranted ctx s = true ->
    effect s TimeoutFires
      (set_timeouts (fun ts => (ts ++ [this])%list)
         (set_timeouts (fun ts => tail ts) s))
| effect_timeout_call (this : nat) (ts : list nat) (ctx : AppContext)
    (f : Callback) (received : bool) :
    timeouts s = this :: ts -> heap s !! this = Some ctx ->
    windowOpen ctx s = false -> disposition ctx = Some (f, received) ->
    effect s TimeoutFires
      (logCall f empty_object this received
         (set_timeouts (fun ts => tail ts) s))
| effect_window_closes (w : nat) :
    effect s (WindowCloses w) (set_popups (fun ps => alter closePopup w ps) s)
| effect_blocking (b : bool) :
    effect s (PopupBlocking b) (set_popup_blocked b s)
| effect_renamed (name : string) :
    effect s (WindowRenamed name) (set_window_name name s)
| effect_unload :
    listening s = true ->
    (forall this ctx, currentAppContext s = Some this ->
       heap s !! this = Some ctx -> windowOpen ctx s = false) ->
    effect s Unload (set_listening false s)
| effect_unload_close (this w : nat) (ctx : AppContext) :
    listening s = true ->
    currentAppContext s = Some this -> heap s !! this = Some ctx ->
    appWindow_ ctx = Some w -> windowOpen ctx s = true ->
    effect s Unload
      (set_popups (fun ps => alter closePopup w ps) (set_listening false s)).

(** The closure polls of a page are in order: no session has two pending
    polls, a session for which polling is warranted has one, and a pending
    poll belongs to a session with onFinish or onCancel registered. *)
Record pollsSound (s : State) : Prop := mkPollsSound {
  ps_nodup : NoDup (timeouts s);
  ps_pending : forall this ctx, heap s !! this = Some ctx ->
               pollWarranted ctx s = true -> In this (timeouts s);
  ps_registered : forall this ctx, In this (timeouts s) ->
                  heap s !! this = Some ctx ->
                  is_Some (onFinish_ ctx) \/ is_Some (onCancel_ ctx) }.

(** The sample page with one session opened from the sample options. *)
Definition sampleSession : State :=
  run [CallOpenAppWindow sampleOptions] samplePage.

(** [encodeURIComponent(value.toString())]. *)
Definition encoded (v : JSValue) : Completion string :=
  (let! str := toString v in encodeURIComponent_value str)%completion.

(** The parameters among [l] that are sent, encoded, in the order of [l];
    the first value that cannot be converted stops the conversion. *)
Fixpoint sentParams (l : list (string * JSValue)) : Completion (Map string) :=
  match l with
  | [] => Normal []
  | (k, v) :: l' =>
      if isSent v then
        (let! x := encoded v in
         let! m := sentParams l' in
         Normal ((k, x) :: m))%completion
      else sentParams l'
  end.

(** One parameter of the builder, by the equation [unfolding] of
    [processUrlParam]: left out, converted, or the conversion throws. *)
Ltac url_param unfolding v :=
  rewrite (unfolding _ v); unfold cbind;
  destruct (isSent v); [destruct (encoded v); [|reflexivity]|].



(** The optional URL parameters of a session, in the order the query
    string builder processes them. *)
Definition optionalParams (a : AppOptions) (appWindowFeatures : string)
    : list (string * JSValue) :=
  [ (UrlParamKey.INTEGRATOR_ID, integratorId a);
    (UrlParamKey.TOKEN_SETTING, tokenSetting a);
    (UrlParamKey.CARD_SETTING, cardSetting a);
    (UrlParamKey.CSID, clientSessionId a);
    (UrlParamKey.HL, hl a);
    (UrlParamKey.WINDOW_FEATURES, VString appWindowFeatures) ].

(** The callbacks the router can call, by action. *)
Definition actionCallbacks (a : AppOptions) : list (string * option Callback) :=
  [ (Action.SESSION_CREATED, onSessionCreated a);
    (Action.READY, onReady a);
    (Action.SUCCESS, onSuccess a);
    (Action.FAILURE, onFailure a) ].

(** The validated form of the service's options. *)
Definition UtilsService_validated : AppOptions :=
  mkAppOptions (Some UtilsService_onSessionCreated) (Some UtilsService_onReady)
    None None None None None None
    (VString "CAPITALONE_1") (VNumber 1) (VNumber 1) (VBoolean true)
    VUndefined (VString "en-US").

(** The URL the service's window is opened at, for a page origin. *)
Definition UtilsService_url (pageOrigin : string) : string :=
  "https://pay.sandbox.google.com/gp/v/a/pushprovisioning/frame"
  +:+ "?apiVersion=V1_6&origin=" +:+ encodeURIComponent pageOrigin
  +:+ "&integratorId=CAPITALONE_1&tokenSetting=1&cardSetting=1&hl=en-US".
(* ===================================================================== *)
(** ** The model on concrete inputs *)
(* ===================================================================== *)

#[warnings="-inexact-float"]
Example Number_toString_samples :
  map Number_toString
    [700; 1100; 1200.5; 0.1; 0.5; 1e21; 1e-7; 123456789012345680000;
     5e-324; 1.7976931348623157e308; 0.000001; -42.5; 9007199254740992;
     nan; infinity; neg_infinity; 0; -0]%float
  = ["700"; "1100"; "1200.5"; "0.1"; "0.5"; "1e+21"; "1e-7";
     "123456789012345680000"; "5e-324"; "1.7976931348623157e+308";
     "0.000001"; "-42.5"; "9007199254740992";
     "NaN"; "Infinity"; "-Infinity"; "0"; "0"].
Proof. vm_compute. reflexivity. Qed.

Example Math_max_samples :
  map (Math_max MIN_CONTENT_HEIGHT) [500; 700; 900; infinity; neg_infinity]%float
  = [700; 700; 900; infinity; 700]%float
  /\ is_nan (Math_max MIN_CONTENT_HEIGHT nan) = true.
Proof. split; reflexivity. Qed.

Example encodeURIComponent_sample :
  encodeURIComponent "https://www.acme.com:8080/a b?c=d&e~(f)*'!_-."
  = "https%3A%2F%2Fwww.acme.com%3A8080%2Fa%20b%3Fc%3Dd%26e~(f)*'!_-.".
Proof. reflexivity. Qed.

(** [encodeURIComponent(value.toString())] on values of each kind. *)
Example encoded_samples :
  map encoded
    [ VString "en-US"; VNumber 1; VBoolean false; VObject [];
      VFunction (sampleCallback 1);
      VObject [("toString", VFunction (sampleCallback 1))];
      VObject [("toString", VString "x")];
      VObject [("toString", VUndefined)];
      VIllFormedString [55296%N] ]
  = [ Normal "en-US"; Normal "1"; Normal "false";
      Normal "%5Bobject%20Object%5D";
      Normal "function%20(payload)%20%7B%7D";
      Normal "undefined";
      Throw "TypeError"; Throw "TypeError"; Throw "URIError" ].
Proof. vm_compute. reflexivity. Qed.

(** The window opened for the sample options on the sample page. *)
Example sample_popup :
  popups (exec (CallOpenAppWindow (sampleWithDimensions (VNumber 500) (VNumber 1200)))
            samplePage)
  = [ mkPopup
        ("https://pay.sandbox.google.com/gp/v/a/pushprovisioning/frame"
         +:+ "?apiVersion=V1_6&origin=https%3A%2F%2Fwww.acmecreditunion.com"
         +:+ "&integratorId=ACMEISSUER_1&tokenSetting=1&cardSetting=1&hl=en-US"
         +:+ "&windowFeatures=height%3D700%2Cwidth%3D1200")
        "googlepay-webpp-v1_6-app-window-1" "height=700,width=1200" false ].
Proof. vm_compute. reflexivity. Qed.

(* ===================================================================== *)
(** ** Options validator: what is thrown, and when *)
(* ===================================================================== *)

(** The validator as a decision list: the first failed check decides. *)
Lemma AppOptions_new_cases (o : JSValue) :
  AppOptions_new o =
    if negb (String.eqb (typeof (get o AppOptionKey.ON_SESSION_CREATED)) "function")
    then Throw ErrorCode.INVALID_OR_MISSING_ON_SESSION_CREATED
    else if negb (forallb (optionalCallbackValid o)
                    [AppOptionKey.ON_READY; AppOptionKey.ON_SUCCESS;
                     AppOptionKey.ON_FAILURE; AppOptionKey.ON_FINISH;
                     AppOptionKey.ON_CANCEL])
    then Throw ErrorCode.INVALID_OPTIONAL_CALLBACK
    else if negb (dimensionsValid o)
    then Throw ErrorCode.INVALID_CONTENT_DIMENSIONS
    else Normal
      {| onSessionCreated := asCallback (get o AppOptionKey.ON_SESSION_CREATED);
         onReady := asCallback (get o AppOptionKey.ON_READY);
         onSuccess := asCallback (get o AppOptionKey.ON_SUCCESS);
         onFailure := asCallback (get o AppOptionKey.ON_FAILURE);
         onFinish := asCallback (get o AppOptionKey.ON_FINISH);
         onCancel := asCallback (get o AppOptionKey.ON_CANCEL);
         contentHeight := asNumber (get o AppOptionKey.CONTENT_HEIGHT);
         contentWidth := asNumber (get o AppOptionKey.CONTENT_WIDTH);
         integratorId := get o AppOptionKey.INTEGRATOR_ID;
         tokenSetting := get o AppOptionKey.TOKEN_SETTING;
         cardSetting := get o AppOptionKey.CARD_SETTING;
         isTestEnvironment := get o AppOptionKey.IS_TEST_ENVIRONMENT;
         clientSessionId := get o AppOptionKey.CLIENT_SESSION_ID;
         hl := get o AppOptionKey.HL |}.
Proof.
  unfold_validator. unfold dimensionsValid, optionalCallbackValid, forallb.
  destruct (get o AppOptionKey.ON_SESSION_CREATED); try reflexivity.
  destruct (get o AppOptionKey.ON_READY); try reflexivity;
  destruct (get o AppOptionKey.ON_SUCCESS); try reflexivity;
  destruct (get o AppOptionKey.ON_FAILURE); try reflexivity;
  destruct (get o AppOptionKey.ON_FINISH); try reflexivity;
  destruct (get o AppOptionKey.ON_CANCEL); try reflexivity;
  destruct (get o AppOptionKey.CONTENT_HEIGHT); try reflexivity;
  destruct (get o AppOptionKey.CONTENT_WIDTH); reflexivity.
Qed.

(** The validated options carry the dimensions of the object. *)
Lemma AppOptions_new_dimensions (o : JSValue) (a : AppOptions) :
  AppOptions_new o = Normal a ->
  contentHeight a = asNumber (get o AppOptionKey.CONTENT_HEIGHT)
  /\ contentWidth a = asNumber (get o AppOptionKey.CONTENT_WIDTH).
Proof.
  rewrite AppOptions_new_cases.
  destruct (negb _); [discriminate|].
  destruct (negb _); [discriminate|].
  destruct (negb _); [discriminate|].
  intros [= <-]. split; reflexivity.
Qed.

(* ===================================================================== *)
(** ** Building the URL: what is thrown *)
(* ===================================================================== *)

(** The two errors a conversion to a string can throw. *)
Lemma toString_Throw (v : JSValue) (e : string) :
  toString v = Throw e -> e = "TypeError".
Proof.
  destruct v as [| |b|x|str|units|f|props]; simpl; try discriminate;
    try (intros [= <-]; reflexivity).
  destruct (assoc "toString" props) as [[| |b|x|str|units|f|props']|];
    try discriminate; intros [= <-]; reflexivity.
Qed.

Lemma encodeURIComponent_value_Throw (v : JSValue) (e : string) :
  encodeURIComponent_value v = Throw e -> e = "TypeError" \/ e = "URIError".
Proof.
  unfold encodeURIComponent_value, ToPrimitive, cbind.
  destruct v as [| |b|x|str|units|f|props]; try discriminate.
  - intros [= <-]. right; reflexivity.
  - destruct (assoc "toString" props) as [[| |b|x|str|units|f|props']|];
      try discriminate;
      destruct (assoc "valueOf" props) as [[| |b'|x'|str'|units'|f'|props'']|];
      try discriminate; intros [= <-]; left; reflexivity.
Qed.

Lemma processUrlParam_Throw (k : string) (v : JSValue) (m : Map string)
    (e : string) :
  processUrlParam k v m = Throw e -> e = "TypeError" \/ e = "URIError".
Proof.
  unfold processUrlParam, cbind. destruct (_ && _); [|discriminate].
  destruct (toString v) as [str|e'] eqn:Hs.
  - destruct (encodeURIComponent_value str) as [x|e'] eqn:Hx; [discriminate|].
    intros [= <-]. exact (encodeURIComponent_value_Throw _ _ Hx).
  - intros [= <-]. left. exact (toString_Throw _ _ Hs).
Qed.

Lemma appUrlParamMap_Throw (pageOrigin : string) (a : AppOptions)
    (appWindowFeatures e : string) :
  appUrlParamMap pageOrigin a appWindowFeatures = Throw e ->
  e = "TypeError" \/ e = "URIError".
Proof.
  unfold appUrlParamMap, cbind.
  repeat match goal with
  | |- context [match processUrlParam ?k ?v ?m with _ => _ end] =>
      let H := fresh "H" in
      destruct (processUrlParam k v m) eqn:H;
      [|intros [= <-]; exact (processUrlParam_Throw _ _ _ _ H)]
  end.
  apply processUrlParam_Throw.
Qed.

Lemma getAppQueryString__Throw (pageOrigin : string) (a : AppOptions)
    (appWindowFeatures e : string) :
  getAppQueryString_ pageOrigin a appWindowFeatures = Throw e ->
  e = "TypeError" \/ e = "URIError".
Proof.
  unfold getAppQueryString_, cbind.
  destruct (appUrlParamMap _ _ _) eqn:H; [discriminate|].
  intros [= <-]. exact (appUrlParamMap_Throw _ _ _ _ H).
Qed.

(* ===================================================================== *)
(** ** Opening a session *)
(* ===================================================================== *)

Lemma State_eta (s : State) :
  mkState (window_name s) (window_location s) (popup_blocked s) (popups s)
    (heap s) (currentAppContext s) (timeouts s) (listening s) (calls s) = s.
Proof. destruct s; reflexivity. Qed.

(** The constructor either fails to build the URL or finds the popup
    blocked, and throws with nothing changed, or returns the address of the
    new object. *)
Lemma AppContext_new_result (a : AppOptions) (s : State) :
  AppContext_new a s =
    match newQueryString a s with
    | Throw e => (Throw e, s)
    | Normal _ =>
        if popup_blocked s then (Throw ErrorCode.APP_WINDOW_NOT_OPENED, s)
        else (Normal (length (heap s)), afterOpen a s)
    end.
Proof.
  unfold AppContext_new, bind, gets, window_open, lift, assert, new.
  unfold newQueryString.
  destruct (getAppQueryString_ _ _ _) as [q|e] eqn:Hq; [|reflexivity].
  destruct (popup_blocked s) eqn:Hb; simpl.
  - reflexivity.
  - unfold pollAppWindowClosed_, bind, read, window_closed, gets; simpl.
    rewrite list_lookup_middle by reflexivity. simpl.
    rewrite list_lookup_middle by reflexivity. simpl.
    unfold afterOpen, newContext, newPopup, newAppWindowId, newAppOrigin.
    unfold newQueryString. rewrite Hq. cbn [built].
    rewrite andb_true_r.
    destruct (bool_decide (is_Some (onFinish a)) || bool_decide (is_Some (onCancel a)));
      unfold setTimeout, modify, ret, set_timeouts; simpl.
    + reflexivity.
    + rewrite app_nil_r. reflexivity.
Qed.

Lemma AppContext_isAppWindowOpen_result (this : nat) (s : State) :
  AppContext_isAppWindowOpen this s =
    match heap s !! this with
    | Some ctx => (Normal (windowOpen ctx s), s)
    | None => (Throw "TypeError", s)
    end.
Proof.
  unfold AppContext_isAppWindowOpen, bind, read, windowOpen.
  destruct (heap s !! this) as [ctx|]; [|reflexivity].
  destruct (appWindow_ ctx); reflexivity.
Qed.

(** [openAppWindow] as a decision list: the first failed check decides, and
    a call that throws leaves the page as it was. *)
Lemma openAppWindow_cases (o : JSValue) (s : State) :
  openAppWindow o s =
    if negb (String.eqb (typeof o) "object") || is_null o
    then (Throw ErrorCode.INVALID_OR_MISSING_APP_OPTIONS, s)
    else match AppOptions_new o with
         | Throw e => (Throw e, s)
         | Normal a =>
             match currentWindowOpen s with
             | Throw e => (Throw e, s)
             | Normal true => (Throw ErrorCode.APP_WINDOW_ALREADY_OPEN, s)
             | Normal false =>
                 match newQueryString a s with
                 | Throw e => (Throw e, s)
                 | Normal _ =>
                     if popup_blocked s
                     then (Throw ErrorCode.APP_WINDOW_NOT_OPENED, s)
                     else (Normal tt,
                           set_currentAppContext (Some (length (heap s)))
                             (afterOpen a s))
                 end
             end
         end.
Proof.
  unfold openAppWindow, bind, lift, gets, currentWindowOpen.
  destruct o; try reflexivity;
  (destruct (AppOptions_new _) as [a|e]; simpl; [|reflexivity]);
  (destruct (currentAppContext s) as [this|]; simpl;
   [ rewrite AppContext_isAppWindowOpen_result;
     destruct (heap s !! this) as [ctx|]; simpl; [|reflexivity];
     destruct (windowOpen ctx s); simpl; [reflexivity|]
   | ]);
  rewrite AppContext_new_result; (destruct (newQueryString a s); [|reflexivity]);
  destruct (popup_blocked s); reflexivity.
Qed.

(* ===================================================================== *)
(** ** The message router and the closure poll, as decision lists *)
(* ===================================================================== *)

Lemma AppContext_handleMessageEvent_result (this : nat) (event : MessageEvent)
    (s : State) :
  AppContext_handleMessageEvent this event s =
    match heap s !! this with
    | None => (Throw "TypeError", s)
    | Some ctx =>
        if negb (accepts ctx event s) then (Normal tt, s)
        else
          let s1 := if isOutcome (actionOf event) then markOutcome this s else s in
          match actionMap_get (actionOf event) (actionMap_ ctx) with
          | Some f =>
              (Normal tt,
               logCall f (payloadOf event) this (outcomeReceived this s1) s1)
          | None => (Normal tt, s1)
          end
    end.
Proof.
  unfold AppContext_handleMessageEvent, bind, read.
  destruct (heap s !! this) as [ctx|] eqn:Hctx; [|reflexivity].
  rewrite AppContext_isAppWindowOpen_result, Hctx.
  unfold accepts, actionOf, payloadOf, messageDataOf.
  set (md := if truthy (data event) then data event else empty_object).
  destruct (windowOpen ctx s); simpl; [|reflexivity].
  destruct (String.eqb (origin event) (appOrigin_ ctx)); simpl; [|reflexivity].
  destruct (strict_eq_string (get md MessageDataKey.APP_WINDOW_ID) (appWindowId_ ctx));
    simpl; [|reflexivity].
  destruct (truthy (get md MessageDataKey.ACTION)); simpl; [|reflexivity].
  unfold isOutcome.
  destruct (strict_eq_string (get md MessageDataKey.ACTION) Action.SUCCESS
            || strict_eq_string (get md MessageDataKey.ACTION) Action.FAILURE);
    unfold set_receivedAppOutcome_, modify, ret;
    (destruct (actionMap_get (get md MessageDataKey.ACTION) (actionMap_ ctx)) as [f|];
     simpl; [|reflexivity]);
    unfold bind, read, modify, logCall, outcomeReceived, markOutcome; simpl.
  - rewrite !list_lookup_alter_eq, Hctx. reflexivity.
  - rewrite Hctx. reflexivity.
Qed.

Lemma pollAppWindowClosed__result (this : nat) (s : State) :
  pollAppWindowClosed_ this s =
    match heap s !! this with
    | None => (Throw "TypeError", s)
    | Some ctx =>
        match appWindow_ ctx with
        | None => (Throw "TypeError", s)
        | Some _ =>
            if windowOpen ctx s then
              if bool_decide (is_Some (onFinish_ ctx))
                 || bool_decide (is_Some (onCancel_ ctx))
                    && negb (receivedAppOutcome_ ctx)
              then (Normal tt, set_timeouts (fun ts => (ts ++ [this])%list) s)
              else (Normal tt, s)
            else
              match onFinish_ ctx, onCancel_ ctx, receivedAppOutcome_ ctx with
              | Some f, _, true => (Normal tt, logCall f empty_object this true s)
              | _, Some f, false => (Normal tt, logCall f empty_object this false s)
              | _, _, _ => (Normal tt, s)
              end
        end
    end.
Proof.
  unfold pollAppWindowClosed_, bind, read, windowOpen.
  destruct (heap s !! this) as [ctx|] eqn:Hctx; [|reflexivity].
  destruct (appWindow_ ctx) as [w|]; [|reflexivity].
  unfold window_closed, gets.
  destruct (from_option closed true (popups s !! w)); simpl.
  - destruct (onFinish_ ctx) as [f|], (onCancel_ ctx) as [g|],
      (receivedAppOutcome_ ctx) eqn:Hr; simpl;
      unfold bind, read, modify, logCall; rewrite ?Hctx, ?Hr; reflexivity.
  - destruct (bool_decide (is_Some (onFinish_ ctx))
              || bool_decide (is_Some (onCancel_ ctx)) && negb (receivedAppOutcome_ ctx));
      reflexivity.
Qed.

(** Closing the window and polling write only the windows, the pending
    timeouts and the call log: whatever is read off the state and does not
    depend on these three is left as it was. *)
Section Frame.
Context {A : Type} (proj : State -> A).
Hypothesis proj_popups : forall f s, proj (set_popups f s) = proj s.
Hypothesis proj_timeouts : forall f s, proj (set_timeouts f s) = proj s.
Hypothesis proj_calls : forall f s, proj (set_calls f s) = proj s.

Lemma frame_AppContext_closeAppWindow (this : nat) (s : State) :
  proj (snd (AppContext_closeAppWindow this s)) = proj s.
Proof.
  unfold AppContext_closeAppWindow, bind.
  rewrite AppContext_isAppWindowOpen_result.
  destruct (heap s !! this) as [ctx|] eqn:Hctx; [|reflexivity].
  destruct (windowOpen ctx s); [|reflexivity].
  unfold read. rewrite Hctx.
  destruct (appWindow_ ctx); [|reflexivity].
  apply proj_popups.
Qed.

Lemma frame_closeAppWindow (s : State) :
  proj (snd (closeAppWindow s)) = proj s.
Proof.
  unfold closeAppWindow, bind, gets.
  destruct (currentAppContext s) as [this|]; [|reflexivity].
  apply frame_AppContext_closeAppWindow.
Qed.

Lemma frame_pollAppWindowClosed_ (this : nat) (s : State) :
  proj (snd (pollAppWindowClosed_ this s)) = proj s.
Proof.
  rewrite pollAppWindowClosed__result.
  destruct (heap s !! this) as [ctx|]; [|reflexivity].
  destruct (appWindow_ ctx); [|reflexivity].
  destruct (windowOpen ctx s).
  - destruct (_ || _); [apply proj_timeouts|reflexivity].
  - destruct (onFinish_ ctx), (onCancel_ ctx), (receivedAppOutcome_ ctx);
      try reflexivity; apply proj_calls.
Qed.

End Frame.

Lemma closeAppWindow_heap (s : State) :
  heap (snd (closeAppWindow s)) = heap s.
Proof. apply frame_closeAppWindow. reflexivity. Qed.

Lemma pollAppWindowClosed__heap (this : nat) (s : State) :
  heap (snd (pollAppWindowClosed_ this s)) = heap s.
Proof. apply frame_pollAppWindowClosed_; reflexivity. Qed.

(** How one event changes the store of session objects: not at all, by one
    new object, or by recording an outcome in the object the message was
    routed to. *)
Lemma heap_exec (e : Event) (s : State) :
  heap (exec e s) = heap s
  \/ (exists a, heap (exec e s) = (heap s ++ [newContext a s])%list)
  \/ (exists this, routesOutcome this e s = true
                   /\ heap (exec e s) = alter withOutcome this (heap s)).
Proof.
  unfold exec; destruct e as [o| |event| |w|b|name|]; simpl.
  - rewrite openAppWindow_cases.
    destruct (_ || _); [left; reflexivity|].
    destruct (AppOptions_new o) as [a|]; [|left; reflexivity].
    destruct (currentWindowOpen s) as [[|]|]; try (left; reflexivity).
    destruct (newQueryString a s); [|left; reflexivity].
    destruct (popup_blocked s); [left; reflexivity|].
    right; left; exists a; reflexivity.
  - left; apply closeAppWindow_heap.
  - unfold bind, gets, handleMessageEvent.
    destruct (listening s) eqn:Hl; [|left; reflexivity].
    unfold bind, gets.
    destruct (currentAppContext s) as [this|] eqn:Hc; [|left; reflexivity].
    rewrite AppContext_handleMessageEvent_result.
    destruct (heap s !! this) as [ctx|] eqn:Hctx; [|left; reflexivity].
    destruct (accepts ctx event s) eqn:Ha; simpl; [|left; reflexivity].
    destruct (isOutcome (actionOf event)) eqn:Ho.
    + right; right; exists this; split.
      * rewrite Hctx; simpl. rewrite Ha.
        rewrite bool_decide_eq_true_2 by reflexivity. reflexivity.
      * destruct (actionMap_get _ _); reflexivity.
    + left; destruct (actionMap_get _ _); reflexivity.
  - unfold bind, gets.
    destruct (timeouts s) as [|this ts]; [left; reflexivity|].
    left. unfold modify. rewrite pollAppWindowClosed__heap. reflexivity.
  - left; reflexivity.
  - left; reflexivity.
  - left; reflexivity.
  - unfold bind, gets, handleUnloadEvent, bind, modify.
    destruct (listening s); [|left; reflexivity].
    left. rewrite closeAppWindow_heap. reflexivity.
Qed.

Lemma routesOutcome_heap (this : nat) (e : Event) (s : State) :
  routesOutcome this e s = true ->
  heap (exec e s) = alter withOutcome this (heap s)
  /\ is_Some (heap s !! this).
Proof.
  destruct e as [o| |event| |w|b|name|]; simpl; try discriminate.
  intros H.
  apply andb_prop in H as [H Ho]. apply andb_prop in H as [H Ha].
  apply andb_prop in H as [Hl Hc]. apply bool_decide_eq_true_1 in Hc.
  destruct (heap s !! this) as [ctx|] eqn:Hctx; [|discriminate]. simpl in Ha.
  split; [|eauto].
  unfold exec; simpl. unfold bind, gets, handleMessageEvent.
  rewrite Hl. unfold bind, gets. rewrite Hc.
  rewrite AppContext_handleMessageEvent_result, Hctx, Ha, Ho. simpl.
  destruct (actionMap_get _ _); reflexivity.
Qed.

(** The flag of an object after an event is its flag before, or the event
    routed an outcome to it. *)
Lemma outcomeReceived_exec (this : nat) (e : Event) (s : State) :
  outcomeReceived this (exec e s)
  = outcomeReceived this s || routesOutcome this e s.
Proof.
  unfold outcomeReceived.
  destruct (routesOutcome this e s) eqn:Hr.
  - apply routesOutcome_heap in Hr as [-> [ctx Hctx]].
    rewrite list_lookup_alter_eq, Hctx. simpl. rewrite orb_true_r. reflexivity.
  - rewrite orb_false_r.
    destruct (heap_exec e s) as [->|[[a ->]|[that [Ht ->]]]].
    + reflexivity.
    + destruct (lt_eq_lt_dec this (length (heap s))) as [[Hlt|Heq]|Hgt].
      * rewrite lookup_app_l by assumption. reflexivity.
      * subst this. rewrite list_lookup_middle by reflexivity.
        rewrite (lookup_ge_None_2 (heap s)) by lia. reflexivity.
      * rewrite !lookup_ge_None_2; [reflexivity|lia|].
        rewrite length_app; simpl; lia.
    + rewrite list_lookup_alter_ne; [reflexivity|].
      intros ->. congruence.
Qed.

Lemma outcomeReceived_run (this : nat) (es : list Event) (s : State) :
  outcomeReceived this (run es s)
  = outcomeReceived this s || outcomeRouted this es s.
Proof.
  revert s; induction es as [|e es IH]; intros s; simpl.
  - rewrite orb_false_r; reflexivity.
  - unfold run in IH |- *. simpl. rewrite IH, outcomeReceived_exec.
    rewrite orb_assoc. reflexivity.
Qed.


Lemma session_exec (this : nat) (c : AppContext) (e : Event) (s : State) :
  heap s !! this = Some c ->
  exists c', heap (exec e s) !! this = Some c' /\ sameSession c c'.
Proof.
  intros Hc.
  destruct (heap_exec e s) as [->|[[a ->]|[that [_ ->]]]].
  - exists c; repeat split; assumption.
  - exists c; split; [apply lookup_app_l_Some; assumption|repeat split].
  - destruct (decide (that = this)) as [->|Hne].
    + exists (withOutcome c). rewrite list_lookup_alter_eq, Hc.
      repeat split.
    + exists c. rewrite list_lookup_alter_ne by assumption. repeat split; assumption.
Qed.

Lemma session_run (this : nat) (c : AppContext) (es : list Event) (s : State) :
  heap s !! this = Some c ->
  exists c', heap (run es s) !! this = Some c' /\ sameSession c c'.
Proof.
  revert s c; induction es as [|e es IH]; intros s c Hc.
  - exists c; repeat split; assumption.
  - destruct (session_exec this c e s Hc) as (c1 & H1 & S1).
    destruct (IH _ _ H1) as (c2 & H2 & S2).
    exists c2; split; [exact H2|].
    unfold sameSession in *. intuition congruence.
Qed.

(* ===================================================================== *)
(** ** Claims about validation and opening *)
(* ===================================================================== *)

Lemma openAppWindow_Normal (o : JSValue) (s s' : State) :
  openAppWindow o s = (Normal tt, s') ->
  exists a, AppOptions_new o = Normal a
            /\ currentWindowOpen s = Normal false
            /\ builds (newQueryString a s) = true
            /\ popup_blocked s = false
            /\ s' = set_currentAppContext (Some (length (heap s))) (afterOpen a s).
Proof.
  rewrite openAppWindow_cases.
  destruct (_ || _); [discriminate|].
  destruct (AppOptions_new o) as [a|]; [|discriminate].
  destruct (currentWindowOpen s) as [[|]|]; try discriminate.
  destruct (newQueryString a s) eqn:Hq; [|discriminate].
  destruct (popup_blocked s); [discriminate|].
  intros [= <-]. exists a. rewrite Hq. repeat split.
Qed.

Lemma openAppWindow_Throw (o : JSValue) (s s' : State) (e : string) :
  openAppWindow o s = (Throw e, s') -> s' = s.
Proof.
  rewrite openAppWindow_cases.
  destruct (_ || _); [congruence|].
  destruct (AppOptions_new o) as [a|]; [|congruence].
  destruct (currentWindowOpen s) as [[|]|]; try congruence.
  destruct (newQueryString a s); [|congruence].
  destruct (popup_blocked s); congruence.
Qed.

Lemma typeof_not_function (v : JSValue) :
  (forall f, v <> VFunction f) -> String.eqb (typeof v) "function" = false.
Proof. destruct v; intros H; try reflexivity. destruct (H f); reflexivity. Qed.

(** C5: for every configuration object whose onSessionCreated field is
    absent or is not a function, openAppWindow throws E407, and the page is
    left as it was: no session object is created and the singleton is
    untouched. *)
Theorem C5_onSessionCreated_required (props : list (string * JSValue)) (s : State) :
  (forall f, get (VObject props) AppOptionKey.ON_SESSION_CREATED <> VFunction f) ->
  openAppWindow (VObject props) s
  = (Throw ErrorCode.INVALID_OR_MISSING_ON_SESSION_CREATED, s).
Proof.
  intros H. rewrite openAppWindow_cases, AppOptions_new_cases.
  rewrite (typeof_not_function _ H). reflexivity.
Qed.

Lemma C5_onSessionCreated_required_witness :
  openAppWindow noSessionCreated samplePage = (Throw "E407", samplePage)
  /\ openAppWindow heightOnly samplePage = (Throw "E407", samplePage).
Proof.
  split.
  - apply (C5_onSessionCreated_required _ samplePage). intros f; discriminate.
  - apply (C5_onSessionCreated_required _ samplePage). intros f; discriminate.
Defined.

Lemma exactlyOneDimension_invalid (o : JSValue) :
  exactlyOneDimension o = true -> dimensionsValid o = false.
Proof.
  unfold exactlyOneDimension, dimensionsValid.
  destruct (get o AppOptionKey.CONTENT_HEIGHT), (get o AppOptionKey.CONTENT_WIDTH);
    simpl; intros H; try reflexivity; discriminate.
Qed.

(** C6, first half as the spec has it, refuted: a configuration object with
    exactly one content dimension and no onSessionCreated callback makes
    openAppWindow throw E407, not E409. *)
Lemma C6_height_only_throws_E407 :
  exactlyOneDimension heightOnly = true
  /\ openAppWindow heightOnly samplePage = (Throw "E407", samplePage)
  /\ fst (openAppWindow heightOnly samplePage)
     <> Throw ErrorCode.INVALID_CONTENT_DIMENSIONS.
Proof. repeat split. discriminate. Qed.

Lemma dimensionsValid_no_E409 (o : JSValue) (s : State) :
  dimensionsValid o = true ->
  fst (openAppWindow o s) <> Throw ErrorCode.INVALID_CONTENT_DIMENSIONS.
Proof.
  intros Hd. rewrite openAppWindow_cases, AppOptions_new_cases, Hd.
  destruct (_ || _); [discriminate|].
  destruct (negb _); [discriminate|].
  destruct (negb _); [discriminate|]. simpl.
  destruct (currentWindowOpen s) as [[|]|e] eqn:Hw; simpl; try discriminate.
  - destruct (newQueryString _ s) as [q|e] eqn:Hq.
    + destruct (popup_blocked s); discriminate.
    + apply getAppQueryString__Throw in Hq as [->| ->]; discriminate.
  - unfold currentWindowOpen in Hw.
    destruct (currentAppContext s) as [this|]; [|discriminate].
    destruct (heap s !! this); [discriminate|].
    injection Hw as <-. discriminate.
Qed.

(** C6, amended: for every configuration object whose callback fields pass
    validation, openAppWindow throws E409 when contentHeight and
    contentWidth are not both numbers or both undefined, in particular when
    exactly one of them is defined; and for every argument whose two
    dimensions are both undefined or both numbers, E409 is not thrown. *)
Theorem C6_content_dimensions (props : list (string * JSValue)) (s : State) :
  let o := VObject props in
  (callbacksValid o = true -> dimensionsValid o = false ->
   openAppWindow o s = (Throw ErrorCode.INVALID_CONTENT_DIMENSIONS, s))
  /\ (callbacksValid o = true -> exactlyOneDimension o = true ->
      openAppWindow o s = (Throw ErrorCode.INVALID_CONTENT_DIMENSIONS, s))
  /\ (dimensionsValid o = true ->
      fst (openAppWindow o s) <> Throw ErrorCode.INVALID_CONTENT_DIMENSIONS).
Proof.
  intros o.
  assert (Hbad : callbacksValid o = true -> dimensionsValid o = false ->
                 openAppWindow o s = (Throw ErrorCode.INVALID_CONTENT_DIMENSIONS, s)).
  { intros Hc Hd. rewrite openAppWindow_cases, AppOptions_new_cases.
    unfold callbacksValid in Hc. apply andb_prop in Hc as [H1 H2].
    rewrite H1, H2, Hd. reflexivity. }
  split; [exact Hbad|split].
  - intros Hc Hx. apply Hbad; [exact Hc|apply exactlyOneDimension_invalid, Hx].
  - apply dimensionsValid_no_E409.
Qed.

Lemma C6_content_dimensions_witness :
  openAppWindow (sampleWithDimensions (VNumber 500) VUndefined) samplePage
  = (Throw "E409", samplePage)
  /\ openAppWindow (sampleWithDimensions (VString "500") (VString "500")) samplePage
     = (Throw "E409", samplePage)
  /\ fst (openAppWindow sampleOptions samplePage) <> Throw "E409".
Proof.
  split; [|split].
  - apply (proj1 (proj2 (C6_content_dimensions _ samplePage))); reflexivity.
  - apply (proj1 (C6_content_dimensions _ samplePage)); reflexivity.
  - apply (proj2 (proj2 (C6_content_dimensions sampleFields samplePage))); reflexivity.
Defined.

(** C10: a call to openAppWindow that throws leaves the stored singleton
    reference, the session objects and in fact the whole page as they were;
    in particular, when the configuration is valid, no window is open, the
    URL of the new window can be built and window creation returns no
    handle, the call throws E411 and the previous session remains the
    current one. *)
Theorem C10_throw_keeps_singleton (o : JSValue) (s : State) :
  (forall e s', openAppWindow o s = (Throw e, s') ->
     currentAppContext s' = currentAppContext s /\ heap s' = heap s /\ s' = s)
  /\ (forall props a q, o = VObject props -> AppOptions_new o = Normal a ->
        currentWindowOpen s = Normal false ->
        newQueryString a s = Normal q -> popup_blocked s = true ->
        openAppWindow o s = (Throw ErrorCode.APP_WINDOW_NOT_OPENED, s)).
Proof.
  split.
  - intros e s' H. apply openAppWindow_Throw in H. subst s'. repeat split.
  - intros props a q -> Ha Hw Hq Hb.
    rewrite openAppWindow_cases, Ha, Hw, Hq, Hb. reflexivity.
Qed.

Lemma C10_throw_keeps_singleton_witness :
  currentAppContext (snd (openAppWindow sampleOptions blockedPage))
  = currentAppContext blockedPage
  /\ openAppWindow sampleOptions blockedPage = (Throw "E411", blockedPage)
  /\ snd (openAppWindow unconvertibleOptions samplePage) = samplePage.
Proof.
  pose proof (C10_throw_keeps_singleton sampleOptions blockedPage) as [H1 H2].
  assert (H : openAppWindow sampleOptions blockedPage = (Throw "E411", blockedPage)).
  { eapply H2; reflexivity. }
  split; [|split; [exact H|]].
  - rewrite H. apply (H1 "E411" blockedPage H).
  - apply (proj1 (C10_throw_keeps_singleton unconvertibleOptions samplePage)
             "TypeError" _ eq_refl).
Defined.




(* ===================================================================== *)
(** ** The window identifier *)
(* ===================================================================== *)

Lemma closeAppWindow_window_name (s : State) :
  window_name (snd (closeAppWindow s)) = window_name s.
Proof. apply frame_closeAppWindow. reflexivity. Qed.

Lemma pollAppWindowClosed__window_name (this : nat) (s : State) :
  window_name (snd (pollAppWindowClosed_ this s)) = window_name s.
Proof. apply frame_pollAppWindowClosed_; reflexivity. Qed.

(** Nothing in the library assigns to the host page's window.name. *)
Lemma window_name_exec (e : Event) (s : State) :
  isRename e = false -> window_name (exec e s) = window_name s.
Proof.
  unfold exec; destruct e as [o| |event| |w|b|name|]; simpl; intros Hr;
    try discriminate; try reflexivity.
  - rewrite openAppWindow_cases.
    destruct (_ || _); [reflexivity|].
    destruct (AppOptions_new o) as [a|]; [|reflexivity].
    destruct (currentWindowOpen s) as [[|]|]; try reflexivity.
    destruct (newQueryString a s); [|reflexivity].
    destruct (popup_blocked s); reflexivity.
  - apply closeAppWindow_window_name.
  - unfold bind, gets, handleMessageEvent.
    destruct (listening s); [|reflexivity].
    unfold bind, gets.
    destruct (currentAppContext s) as [this|]; [|reflexivity].
    rewrite AppContext_handleMessageEvent_result.
    destruct (heap s !! this) as [ctx|]; [|reflexivity].
    destruct (negb (accepts ctx event s)); [reflexivity|].
    destruct (isOutcome (actionOf event)); destruct (actionMap_get _ _); reflexivity.
  - unfold bind, gets.
    destruct (timeouts s) as [|this ts]; [reflexivity|].
    unfold modify. rewrite pollAppWindowClosed__window_name. reflexivity.
  - unfold bind, gets, handleUnloadEvent, bind, modify.
    destruct (listening s); [|reflexivity].
    rewrite closeAppWindow_window_name. reflexivity.
Qed.

Lemma window_name_run (es : list Event) (s : State) :
  forallb (fun e => negb (isRename e)) es = true ->
  window_name (run es s) = window_name s.
Proof.
  revert s; induction es as [|e es IH]; intros s H; [reflexivity|].
  simpl in H. apply andb_prop in H as [He Hes].
  unfold run in *; simpl. rewrite (IH _ Hes).
  apply window_name_exec. destruct (isRename e); [discriminate|reflexivity].
Qed.

Lemma newAppWindowId_fresh (s : State) : newAppWindowId s <> window_name s.
Proof.
  unfold newAppWindowId.
  destruct (String.eqb_spec (window_name s) FIXED_APP_WINDOW_ID_1) as [->|H].
  - discriminate.
  - congruence.
Qed.

(** C1, as the spec has it, refuted: on a page whose own window has no
    name, a session is opened, its window is closed and a second session is
    opened; both calls succeed and both sessions get the first constant. *)
Lemma C1_same_identifier_twice :
  let s1 := exec (CallOpenAppWindow sampleOptions) samplePage in
  let s2 := exec (WindowCloses 0) s1 in
  let s3 := exec (CallOpenAppWindow sampleOptions) s2 in
  fst (openAppWindow sampleOptions samplePage) = Normal tt
  /\ fst (openAppWindow sampleOptions s2) = Normal tt
  /\ currentWindowId s1 = Some FIXED_APP_WINDOW_ID_1
  /\ currentWindowId s3 = Some FIXED_APP_WINDOW_ID_1
  /\ currentWindowId s3 <> Some FIXED_APP_WINDOW_ID_2.
Proof. repeat split. discriminate. Qed.

(** C1, amended: the window identifier of a session is chosen from the host
    page's own window name when the session is opened: the second constant
    if that name is the first constant, the first constant otherwise.  It
    is one of the two constants and differs from the host window's name.
    Two successful calls to openAppWindow between which the host window is
    not renamed give both sessions the same identifier. *)
Theorem C1_window_identifier (o1 o2 : JSValue) (s0 s1 s3 : State)
    (es : list Event) :
  openAppWindow o1 s0 = (Normal tt, s1) ->
  forallb (fun e => negb (isRename e)) es = true ->
  openAppWindow o2 (run es s1) = (Normal tt, s3) ->
  exists id,
    currentWindowId s1 = Some id
    /\ currentWindowId s3 = Some id
    /\ id = (if String.eqb (window_name s0) FIXED_APP_WINDOW_ID_1
             then FIXED_APP_WINDOW_ID_2 else FIXED_APP_WINDOW_ID_1)
    /\ (id = FIXED_APP_WINDOW_ID_1 \/ id = FIXED_APP_WINDOW_ID_2)
    /\ id <> window_name s0.
Proof.
  intros H1 Hes H3.
  apply openAppWindow_Normal in H1 as (a1 & _ & _ & _ & _ & ->).
  apply openAppWindow_Normal in H3 as (a3 & _ & _ & _ & _ & ->).
  exists (newAppWindowId s0).
  assert (Hn : newAppWindowId
                 (run es (set_currentAppContext (Some (length (heap s0)))
                            (afterOpen a1 s0))) = newAppWindowId s0).
  { unfold newAppWindowId. rewrite window_name_run by assumption. reflexivity. }
  repeat split.
  - unfold currentWindowId; simpl.
    rewrite list_lookup_middle by reflexivity. reflexivity.
  - unfold currentWindowId; simpl.
    rewrite list_lookup_middle by reflexivity. simpl. rewrite Hn. reflexivity.
  - unfold newAppWindowId. destruct (String.eqb _ _); [right|left]; reflexivity.
  - apply newAppWindowId_fresh.
Qed.

Lemma C1_window_identifier_witness :
  exists id,
    currentWindowId (exec (CallOpenAppWindow sampleOptions) samplePage) = Some id
    /\ currentWindowId
         (exec (CallOpenAppWindow sampleOptions)
            (run [WindowCloses 0] (exec (CallOpenAppWindow sampleOptions) samplePage)))
       = Some id
    /\ id = FIXED_APP_WINDOW_ID_1.
Proof.
  destruct (C1_window_identifier sampleOptions sampleOptions samplePage
              (exec (CallOpenAppWindow sampleOptions) samplePage)
              (exec (CallOpenAppWindow sampleOptions)
                 (run [WindowCloses 0]
                    (exec (CallOpenAppWindow sampleOptions) samplePage)))
              [WindowCloses 0] eq_refl eq_refl eq_refl)
    as (id & H1 & H3 & Hid & _).
  exists id. repeat split; assumption.
Defined.

(* ===================================================================== *)
(** ** Window features and the query string *)
(* ===================================================================== *)

Lemma Math_max_cases (c x : float) :
  is_nan c = false -> is_zero c = false -> is_nan x = false ->
  (PrimFloat.ltb c x = true -> Math_max c x = x)
  /\ (PrimFloat.ltb c x = false -> Math_max c x = c).
Proof.
  intros Hc Hz Hx; unfold Math_max; rewrite Hc, Hx; simpl; split; intros ->.
  - reflexivity.
  - rewrite Hz. simpl. destruct (PrimFloat.ltb x c); reflexivity.
Qed.

Lemma getAppWindowFeatures__truthy (a : AppOptions) (h w : float) :
  contentHeight a = Some h -> contentWidth a = Some w ->
  truthy (VNumber h) = true -> truthy (VNumber w) = true ->
  getAppWindowFeatures_ a
  = "height=" +:+ Number_toString (Math_max MIN_CONTENT_HEIGHT h)
    +:+ ",width=" +:+ Number_toString (Math_max MIN_CONTENT_WIDTH w).
Proof.
  intros Hh Hw Th Tw. unfold getAppWindowFeatures_, ToNumber.
  rewrite Hh, Hw. unfold ofNumber. rewrite Th, Tw.
  reflexivity.
Qed.

(** C7, as the spec has it, refuted: NaN is a number and is not zero; the
    sample options with a NaN height and a width of 1200 pass validation,
    and the window features string is empty instead of
    "height=...,width=...". *)
Lemma C7_NaN_height_gives_no_features :
  AppOptions_new (sampleWithDimensions (VNumber nan) (VNumber 1200)) = Normal nanHeightOptions
  /\ typeof (VNumber nan) = "number"
  /\ PrimFloat.eqb nan 0 = false
  /\ getAppWindowFeatures_ nanHeightOptions = ""
  /\ getAppWindowFeatures_ nanHeightOptions
     <> "height=" +:+ Number_toString (Math_max MIN_CONTENT_HEIGHT nan)
        +:+ ",width=" +:+ Number_toString (Math_max MIN_CONTENT_WIDTH 1200).
Proof. repeat split. discriminate. Qed.

(** C7, amended: for every configuration with both contentHeight and
    contentWidth numeric, nonzero and not NaN, the window features string
    is "height=<max(700, contentHeight)>,width=<max(1100, contentWidth)>",
    where the maximum is the dimension itself when it exceeds the floor and
    the floor otherwise; 500 by 500 yields height=700,width=1100 and 900
    by 1200 yields height=900,width=1200. *)
Theorem C7_window_features (o : JSValue) (a : AppOptions) (h w : float) :
  AppOptions_new o = Normal a ->
  get o AppOptionKey.CONTENT_HEIGHT = VNumber h ->
  get o AppOptionKey.CONTENT_WIDTH = VNumber w ->
  is_zero h = false -> is_nan h = false ->
  is_zero w = false -> is_nan w = false ->
  getAppWindowFeatures_ a
  = "height=" +:+ Number_toString (Math_max MIN_CONTENT_HEIGHT h)
    +:+ ",width=" +:+ Number_toString (Math_max MIN_CONTENT_WIDTH w)
  /\ (PrimFloat.ltb MIN_CONTENT_HEIGHT h = true -> Math_max MIN_CONTENT_HEIGHT h = h)
  /\ (PrimFloat.ltb MIN_CONTENT_HEIGHT h = false ->
      Math_max MIN_CONTENT_HEIGHT h = MIN_CONTENT_HEIGHT)
  /\ (PrimFloat.ltb MIN_CONTENT_WIDTH w = true -> Math_max MIN_CONTENT_WIDTH w = w)
  /\ (PrimFloat.ltb MIN_CONTENT_WIDTH w = false ->
      Math_max MIN_CONTENT_WIDTH w = MIN_CONTENT_WIDTH)
  /\ (h = 500%float -> w = 500%float ->
      getAppWindowFeatures_ a = "height=700,width=1100")
  /\ (h = 900%float -> w = 1200%float ->
      getAppWindowFeatures_ a = "height=900,width=1200").
Proof.
  intros Ha Gh Gw Zh Nh Zw Nw.
  destruct (AppOptions_new_dimensions o a Ha) as [Hh Hw].
  rewrite Gh in Hh. rewrite Gw in Hw. simpl in Hh, Hw.
  assert (E : getAppWindowFeatures_ a
              = "height=" +:+ Number_toString (Math_max MIN_CONTENT_HEIGHT h)
                +:+ ",width=" +:+ Number_toString (Math_max MIN_CONTENT_WIDTH w)).
  { apply getAppWindowFeatures__truthy; try assumption;
      unfold truthy; [rewrite Zh, Nh|rewrite Zw, Nw]; reflexivity. }
  destruct (Math_max_cases MIN_CONTENT_HEIGHT h eq_refl eq_refl Nh) as [Mh1 Mh2].
  destruct (Math_max_cases MIN_CONTENT_WIDTH w eq_refl eq_refl Nw) as [Mw1 Mw2].
  repeat split; try assumption.
  - intros -> ->. rewrite E. vm_compute. reflexivity.
  - intros -> ->. rewrite E. vm_compute. reflexivity.
Qed.

Lemma C7_window_features_witness :
  getAppWindowFeatures_ (sampleAppOptions (Some 500%float) (Some 500%float))
  = "height=700,width=1100"
  /\ getAppWindowFeatures_ (sampleAppOptions (Some 900%float) (Some 1200%float))
     = "height=900,width=1200".
Proof.
  split.
  - refine (proj1 (proj2 (proj2 (proj2 (proj2 (proj2
      (C7_window_features
         (sampleWithDimensions (VNumber 500) (VNumber 500))
         (sampleAppOptions (Some 500%float) (Some 500%float))
         500%float 500%float eq_refl eq_refl eq_refl
         eq_refl eq_refl eq_refl eq_refl)))))) eq_refl eq_refl).
  - refine (proj2 (proj2 (proj2 (proj2 (proj2 (proj2
      (C7_window_features
         (sampleWithDimensions (VNumber 900) (VNumber 1200))
         (sampleAppOptions (Some 900%float) (Some 1200%float))
         900%float 1200%float eq_refl eq_refl eq_refl
         eq_refl eq_refl eq_refl eq_refl)))))) eq_refl eq_refl).
Defined.

Lemma Map_has_set_ne {V} (k k' : string) (v : V) (m : Map V) :
  String.eqb k' k = false -> Map_has k (Map_set k' v m) = Map_has k m.
Proof.
  intros Hne. unfold Map_has.
  induction m as [|[k0 v0] m IH]; simpl.
  - rewrite Hne. reflexivity.
  - destruct (String.eqb_spec k0 k') as [->|H0]; simpl.
    + rewrite Hne. reflexivity.
    + destruct (String.eqb k0 k); [reflexivity|exact IH].
Qed.

Lemma Map_has_processUrlParam_ne (k k' : string) (v : JSValue)
    (m m' : Map string) :
  processUrlParam k' v m = Normal m' ->
  String.eqb k' k = false ->
  Map_has k m' = Map_has k m.
Proof.
  intros H Hne. revert H. unfold processUrlParam, cbind.
  destruct (_ && _); [|intros [= <-]; reflexivity].
  destruct (toString v) as [str|]; [|discriminate].
  destruct (encodeURIComponent_value str) as [x|]; [|discriminate].
  intros [= <-]. apply Map_has_set_ne; exact Hne.
Qed.

(** With an empty features string no windowFeatures parameter is set. *)
Lemma appUrlParamMap_no_features (pageOrigin : string) (a : AppOptions)
    (m : Map string) :
  appUrlParamMap pageOrigin a "" = Normal m ->
  Map_has UrlParamKey.WINDOW_FEATURES m = false.
Proof.
  unfold appUrlParamMap, cbind.
  destruct (processUrlParam UrlParamKey.INTEGRATOR_ID _ _) as [m1|] eqn:H1;
    [|discriminate].
  destruct (processUrlParam UrlParamKey.TOKEN_SETTING _ _) as [m2|] eqn:H2;
    [|discriminate].
  destruct (processUrlParam UrlParamKey.CARD_SETTING _ _) as [m3|] eqn:H3;
    [|discriminate].
  destruct (processUrlParam UrlParamKey.CSID _ _) as [m4|] eqn:H4;
    [|discriminate].
  destruct (processUrlParam UrlParamKey.HL _ _) as [m5|] eqn:H5;
    [|discriminate].
  change (processUrlParam UrlParamKey.WINDOW_FEATURES (VString "") m5)
    with (Normal m5).
  intros [= <-].
  rewrite (Map_has_processUrlParam_ne UrlParamKey.WINDOW_FEATURES _ _ _ _ H5 eq_refl).
  rewrite (Map_has_processUrlParam_ne UrlParamKey.WINDOW_FEATURES _ _ _ _ H4 eq_refl).
  rewrite (Map_has_processUrlParam_ne UrlParamKey.WINDOW_FEATURES _ _ _ _ H3 eq_refl).
  rewrite (Map_has_processUrlParam_ne UrlParamKey.WINDOW_FEATURES _ _ _ _ H2 eq_refl).
  rewrite (Map_has_processUrlParam_ne UrlParamKey.WINDOW_FEATURES _ _ _ _ H1 eq_refl).
  reflexivity.
Qed.

Lemma getAppWindowFeatures__falsy (a : AppOptions) :
  truthy (ofNumber (contentHeight a)) = false
  \/ truthy (ofNumber (contentWidth a)) = false ->
  getAppWindowFeatures_ a = "".
Proof.
  unfold getAppWindowFeatures_. intros [-> | ->]; simpl; [reflexivity|].
  rewrite orb_true_r. reflexivity.
Qed.

(** The content dimensions reach the URL through the features string
    only. *)
Lemma getAppQueryString__withoutDimensions (pageOrigin : string)
    (a : AppOptions) (appWindowFeatures : string) :
  getAppQueryString_ pageOrigin (withoutDimensions a) appWindowFeatures
  = getAppQueryString_ pageOrigin a appWindowFeatures.
Proof. destruct a; reflexivity. Qed.

Lemma falsy_dimensions_as_absent (a : AppOptions) (s : State) :
  getAppWindowFeatures_ a = "" ->
  AppContext_new a s = AppContext_new (withoutDimensions a) s.
Proof.
  intros E. rewrite !AppContext_new_result.
  assert (Eq : newQueryString (withoutDimensions a) s = newQueryString a s).
  { unfold newQueryString. rewrite getAppQueryString__withoutDimensions, E.
    destruct a; reflexivity. }
  assert (E' : getAppWindowFeatures_ (withoutDimensions a) = "").
  { destruct a; reflexivity. }
  rewrite Eq. destruct (newQueryString a s) eqn:Hq; [|reflexivity].
  destruct (popup_blocked s); [reflexivity|].
  unfold afterOpen, newContext, newPopup. rewrite Eq, Hq, E, E'.
  destruct a; reflexivity.
Qed.

(** C9 as the spec has it, refuted: a configuration object whose two
    content dimensions are numbers, one of them zero, does not pass
    validation when it has no onSessionCreated callback; the validator
    throws E407. *)
Lemma C9_zero_height_fails_validation :
  get zeroHeightNoCallback AppOptionKey.CONTENT_HEIGHT = VNumber 0
  /\ get zeroHeightNoCallback AppOptionKey.CONTENT_WIDTH = VNumber 1200
  /\ AppOptions_new zeroHeightNoCallback = Throw "E407"
  /\ openAppWindow zeroHeightNoCallback samplePage = (Throw "E407", samplePage).
Proof. repeat split. Qed.

(** C9, amended: for every configuration object whose contentHeight and
    contentWidth are both numbers, at least one of them zero, the
    dimensions pass validation (E409 is never thrown) and validation
    succeeds whenever the callback fields pass it; the window features
    string of the validated options is empty: no floor is applied, no
    windowFeatures URL parameter is set, and the query string and the
    whole session are those of the same options without dimensions. *)
Theorem C9_zero_dimension (o : JSValue) (h w : float) :
  get o AppOptionKey.CONTENT_HEIGHT = VNumber h ->
  get o AppOptionKey.CONTENT_WIDTH = VNumber w ->
  is_zero h || is_zero w = true ->
  (forall s, fst (openAppWindow o s) <> Throw ErrorCode.INVALID_CONTENT_DIMENSIONS)
  /\ (callbacksValid o = true -> exists a, AppOptions_new o = Normal a)
  /\ (forall a, AppOptions_new o = Normal a ->
        contentHeight a = Some h /\ contentWidth a = Some w
        /\ getAppWindowFeatures_ a = ""
        /\ getAppWindowFeatures_ (withoutDimensions a) = ""
        /\ (forall pageOrigin,
              (forall m,
                 appUrlParamMap pageOrigin a (getAppWindowFeatures_ a) = Normal m ->
                 Map_has UrlParamKey.WINDOW_FEATURES m = false)
              /\ getAppQueryString_ pageOrigin a (getAppWindowFeatures_ a)
                 = getAppQueryString_ pageOrigin (withoutDimensions a)
                     (getAppWindowFeatures_ (withoutDimensions a)))
        /\ (forall s, AppContext_new a s = AppContext_new (withoutDimensions a) s)).
Proof.
  intros Hh Hw Hz.
  assert (Hd : dimensionsValid o = true).
  { unfold dimensionsValid. rewrite Hh, Hw. reflexivity. }
  split; [|split].
  - intros s. apply dimensionsValid_no_E409. exact Hd.
  - intros Hc. rewrite AppOptions_new_cases.
    unfold callbacksValid in Hc. apply andb_prop in Hc as [H1 H2].
    rewrite H1, H2, Hd. simpl. eexists; reflexivity.
  - intros a Ha. rewrite AppOptions_new_cases in Ha.
    destruct (negb _); [discriminate|].
    destruct (negb _); [discriminate|].
    rewrite Hd in Ha. cbn [negb] in Ha. injection Ha as Ha.
    assert (Eh : contentHeight a = Some h).
    { rewrite <- Ha; cbn [contentHeight]. rewrite Hh. reflexivity. }
    assert (Ew : contentWidth a = Some w).
    { rewrite <- Ha; cbn [contentWidth]. rewrite Hw. reflexivity. }
    clear Ha.
    assert (E : getAppWindowFeatures_ a = "").
    { apply getAppWindowFeatures__falsy. rewrite Eh, Ew. simpl.
      apply orb_prop in Hz as [-> | ->]; [left|right]; reflexivity. }
    assert (E' : getAppWindowFeatures_ (withoutDimensions a) = "").
    { destruct a; reflexivity. }
    split; [exact Eh|]. split; [exact Ew|]. split; [exact E|].
    split; [exact E'|]. split.
    + intros pageOrigin. rewrite E, E'. split.
      * apply appUrlParamMap_no_features.
      * symmetry. apply getAppQueryString__withoutDimensions.
    + intros s. apply falsy_dimensions_as_absent, E.
Qed.

Lemma C9_zero_dimension_witness :
  getAppWindowFeatures_ (sampleAppOptions (Some 0%float) (Some 1200%float)) = ""
  /\ fst (openAppWindow (sampleWithDimensions (VNumber 0) (VNumber 1200)) samplePage)
     = Normal tt.
Proof.
  split; [|reflexivity].
  apply (proj2 (proj2 (C9_zero_dimension
           (sampleWithDimensions (VNumber 0) (VNumber 1200))
           0%float 1200%float eq_refl eq_refl eq_refl))
         (sampleAppOptions (Some 0%float) (Some 1200%float)) eq_refl).
Defined.

(* ===================================================================== *)
(** ** The message router *)
(* ===================================================================== *)

Lemma get_messageDataOf (event : MessageEvent) (k : string) :
  get (messageDataOf event) k = get (data event) k.
Proof.
  unfold messageDataOf.
  destruct (data event) as [| |b|x|str|units|f|props]; simpl; try reflexivity.
  - destruct b; reflexivity.
  - destruct (negb _); reflexivity.
  - destruct (negb _); reflexivity.
Qed.

Lemma strict_eq_string_true (v : JSValue) (str : string) :
  strict_eq_string v str = true <-> v = VString str.
Proof.
  destruct v; simpl; try (split; [discriminate|intros [=]]).
  rewrite String.eqb_eq. split; [intros ->; reflexivity|intros [= ->]; reflexivity].
Qed.

Lemma accepts_iff (ctx : AppContext) (event : MessageEvent) (s : State) :
  accepts ctx event s = true <->
  windowOpen ctx s = true
  /\ origin event = appOrigin_ ctx
  /\ get (data event) MessageDataKey.APP_WINDOW_ID = VString (appWindowId_ ctx)
  /\ truthy (get (data event) MessageDataKey.ACTION) = true.
Proof.
  unfold accepts, actionOf. rewrite !get_messageDataOf.
  rewrite !andb_true_iff, String.eqb_eq, strict_eq_string_true. tauto.
Qed.

(** C2: unless the session's window is open, the event's origin is the
    session's target origin, the message's appWindowId field is the
    session's window identifier and the message's action field is truthy,
    handleMessageEvent returns with the page exactly as it was: no callback
    is invoked and no session state changes.  In particular a message from
    another origin changes nothing, whatever its action and payload; and
    the same holds when the event is delivered through the page's message
    listener. *)
Theorem C2_router_filter (this : nat) (ctx : AppContext) (event : MessageEvent)
    (s : State) :
  heap s !! this = Some ctx ->
  (~ (windowOpen ctx s = true
      /\ origin event = appOrigin_ ctx
      /\ get (data event) MessageDataKey.APP_WINDOW_ID = VString (appWindowId_ ctx)
      /\ truthy (get (data event) MessageDataKey.ACTION) = true) ->
   AppContext_handleMessageEvent this event s = (Normal tt, s)
   /\ (currentAppContext s = Some this -> exec (MessageArrives event) s = s))
  /\ (origin event <> appOrigin_ ctx ->
      AppContext_handleMessageEvent this event s = (Normal tt, s)
      /\ calls (snd (AppContext_handleMessageEvent this event s)) = calls s
      /\ (currentAppContext s = Some this -> exec (MessageArrives event) s = s)).
Proof.
  intros Hctx.
  assert (main : accepts ctx event s = false ->
            AppContext_handleMessageEvent this event s = (Normal tt, s)
            /\ (currentAppContext s = Some this -> exec (MessageArrives event) s = s)).
  { intros Ha.
    assert (E : AppContext_handleMessageEvent this event s = (Normal tt, s)).
    { rewrite AppContext_handleMessageEvent_result, Hctx, Ha. reflexivity. }
    split; [exact E|]. intros Hc.
    unfold exec; simpl. unfold bind, gets, handleMessageEvent.
    destruct (listening s); [|reflexivity].
    unfold bind, gets. rewrite Hc, E. reflexivity. }
  split.
  - intros Hn. apply main.
    destruct (accepts ctx event s) eqn:Ha; [|reflexivity].
    apply accepts_iff in Ha. contradiction.
  - intros Ho.
    assert (Ha : accepts ctx event s = false).
    { destruct (accepts ctx event s) eqn:Ha; [|reflexivity].
      apply accepts_iff in Ha as (_ & Hor & _). contradiction. }
    destruct (main Ha) as [E1 E2].
    split; [exact E1|]. split; [rewrite E1; reflexivity|exact E2].
Qed.

Lemma C2_router_filter_witness :
  let s := exec (CallOpenAppWindow sampleOptions) samplePage in
  AppContext_handleMessageEvent 0
    (sampleMessage "success" FIXED_APP_WINDOW_ID_1 "https://evil.example") s
  = (Normal tt, s)
  /\ AppContext_handleMessageEvent 0
       (sampleMessage "success" FIXED_APP_WINDOW_ID_2 TEST_GOOGLE_PAY_ORIGIN) s
     = (Normal tt, s).
Proof.
  intros s. split.
  - refine (proj1 (proj2 (C2_router_filter 0 _ _ s eq_refl) _)).
    discriminate.
  - refine (proj1 (proj1 (C2_router_filter 0 _ _ s eq_refl) _)).
    intros (_ & _ & H & _). discriminate H.
Defined.

(** C8: once the outcome flag of a session object is true, it is true
    after every further sequence of events of the page; and when the router
    accepts a 'success' or 'failure' message whose callback is registered,
    the flag is set first: the callback is called in the state in which the
    flag is already true. *)
Theorem C8_outcome_irreversible (this : nat) (s : State) :
  (forall es, outcomeReceived this s = true ->
     outcomeReceived this (run es s) = true)
  /\ (forall ctx event f,
        heap s !! this = Some ctx -> accepts ctx event s = true ->
        isOutcome (actionOf event) = true ->
        actionMap_get (actionOf event) (actionMap_ ctx) = Some f ->
        AppContext_handleMessageEvent this event s
        = (Normal tt,
           logCall f (payloadOf event) this true (markOutcome this s))
        /\ outcomeReceived this (markOutcome this s) = true
        /\ last (calls (snd (AppContext_handleMessageEvent this event s)))
           = Some (mkInvocation f (payloadOf event) this true)).
Proof.
  split.
  - intros es H. rewrite outcomeReceived_run, H. reflexivity.
  - intros ctx event f Hctx Ha Ho Hf.
    assert (Hm : outcomeReceived this (markOutcome this s) = true).
    { unfold outcomeReceived, markOutcome; simpl.
      rewrite list_lookup_alter_eq, Hctx. reflexivity. }
    assert (E : AppContext_handleMessageEvent this event s
                = (Normal tt,
                   logCall f (payloadOf event) this true (markOutcome this s))).
    { rewrite AppContext_handleMessageEvent_result, Hctx, Ha, Ho, Hf.
      cbn [negb]. cbv zeta. rewrite Hm. reflexivity. }
    split; [exact E|]. split; [exact Hm|].
    rewrite E. simpl. apply last_snoc.
Qed.

Lemma C8_outcome_irreversible_witness :
  let s := exec (CallOpenAppWindow sampleOptions) samplePage in
  let success := sampleMessage "success" FIXED_APP_WINDOW_ID_1 TEST_GOOGLE_PAY_ORIGIN in
  let s' := exec (MessageArrives success) s in
  outcomeReceived 0 s' = true
  /\ outcomeReceived 0
       (run [MessageArrives (sampleMessage "ready" FIXED_APP_WINDOW_ID_1
                               TEST_GOOGLE_PAY_ORIGIN);
             TimeoutFires; WindowCloses 0; TimeoutFires;
             CallOpenAppWindow sampleOptions] s') = true
  /\ last (calls s')
     = Some (mkInvocation (sampleCallback 2) (payloadOf success) 0 true).
Proof.
  intros s success s'. split; [reflexivity|split].
  - apply (proj1 (C8_outcome_irreversible 0 s')). reflexivity.
  - apply (proj2 (C8_outcome_irreversible 0 s) _ success (sampleCallback 2)
             eq_refl eq_refl eq_refl eq_refl).
Defined.

(* ===================================================================== *)
(** ** The closure poll *)
(* ===================================================================== *)

(** C3: take any session opened by openAppWindow and any sequence of
    events after it.  If one of them routed a 'success' or 'failure'
    message to the session, a poll tick that finds the window closed calls
    onFinish with an empty object when onFinish is registered; if none did,
    such a tick calls onCancel with an empty object when onCancel is
    registered.  Nothing else changes in either case. *)
Theorem C3_finish_or_cancel (o : JSValue) (s0 s1 : State) (es : list Event) :
  openAppWindow o s0 = (Normal tt, s1) ->
  exists this ctx a,
    currentAppContext s1 = Some this
    /\ AppOptions_new o = Normal a
    /\ heap (run es s1) !! this = Some ctx
    /\ onFinish_ ctx = onFinish a /\ onCancel_ ctx = onCancel a
    /\ receivedAppOutcome_ ctx = outcomeRouted this es s1
    /\ (windowOpen ctx (run es s1) = false ->
        (outcomeRouted this es s1 = true ->
         forall f, onFinish a = Some f ->
           pollAppWindowClosed_ this (run es s1)
           = (Normal tt, logCall f empty_object this true (run es s1)))
        /\ (outcomeRouted this es s1 = false ->
            forall f, onCancel a = Some f ->
              pollAppWindowClosed_ this (run es s1)
              = (Normal tt, logCall f empty_object this false (run es s1)))).
Proof.
  intros H. apply openAppWindow_Normal in H as (a & Ha & _ & _ & _ & ->).
  set (this := length (heap s0)).
  set (s1 := set_currentAppContext (Some this) (afterOpen a s0)).
  assert (H1 : heap s1 !! this = Some (newContext a s0)).
  { apply list_lookup_middle. reflexivity. }
  destruct (session_run this _ es s1 H1) as (ctx & Hctx & S).
  destruct S as (_ & Sf & Sc & _ & _ & Sw). simpl in Sf, Sc, Sw.
  assert (Hr : receivedAppOutcome_ ctx = outcomeRouted this es s1).
  { pose proof (outcomeReceived_run this es s1) as R.
    unfold outcomeReceived in R. rewrite Hctx, H1 in R. exact R. }
  exists this, ctx, a.
  split; [reflexivity|]. split; [exact Ha|]. split; [exact Hctx|].
  split; [exact Sf|]. split; [exact Sc|]. split; [exact Hr|].
  intros Hclosed. split.
  - intros Hrouted f Hf. rewrite pollAppWindowClosed__result, Hctx, Sw, Hclosed.
    rewrite Sf, Hf, Hr, Hrouted. destruct (onCancel_ ctx); reflexivity.
  - intros Hrouted f Hf. rewrite pollAppWindowClosed__result, Hctx, Sw, Hclosed.
    rewrite Sc, Hf, Hr, Hrouted. destruct (onFinish_ ctx); reflexivity.
Qed.

Lemma C3_finish_or_cancel_witness :
  let s1 := exec (CallOpenAppWindow sampleOptions) samplePage in
  let success := sampleMessage "success" FIXED_APP_WINDOW_ID_1 TEST_GOOGLE_PAY_ORIGIN in
  let finished := run [MessageArrives success; WindowCloses 0] s1 in
  let cancelled := run [WindowCloses 0] s1 in
  pollAppWindowClosed_ 0 finished
  = (Normal tt, logCall (sampleCallback 3) empty_object 0 true finished)
  /\ pollAppWindowClosed_ 0 cancelled
     = (Normal tt, logCall (sampleCallback 4) empty_object 0 false cancelled).
Proof.
  intros s1 success finished cancelled.
  destruct (C3_finish_or_cancel sampleOptions samplePage s1
              [MessageArrives success; WindowCloses 0] eq_refl)
    as (this & ctx & a & Hc & Ha & Hctx & _ & _ & _ & Hpoll).
  destruct (C3_finish_or_cancel sampleOptions samplePage s1
              [WindowCloses 0] eq_refl)
    as (this' & ctx' & a' & Hc' & Ha' & Hctx' & _ & _ & _ & Hpoll').
  injection Hc as <-. injection Ha as <-. injection Hctx as <-.
  injection Hc' as <-. injection Ha' as <-. injection Hctx' as <-.
  split.
  - exact (proj1 (Hpoll eq_refl) eq_refl (sampleCallback 3) eq_refl).
  - exact (proj2 (Hpoll' eq_refl) eq_refl (sampleCallback 4) eq_refl).
Defined.

(* ===================================================================== *)
(** ** Reachable pages are well formed *)
(* ===================================================================== *)

Lemma AppContext_closeAppWindow_result (this : nat) (s : State) :
  AppContext_closeAppWindow this s =
    match heap s !! this with
    | None => (Throw "TypeError", s)
    | Some ctx =>
        match appWindow_ ctx with
        | Some w =>
            if windowOpen ctx s
            then (Normal tt, set_popups (fun ps => alter closePopup w ps) s)
            else (Normal tt, s)
        | None => (Normal tt, s)
        end
    end.
Proof.
  unfold AppContext_closeAppWindow, bind.
  rewrite AppContext_isAppWindowOpen_result.
  destruct (heap s !! this) as [ctx|] eqn:Hctx; [|reflexivity].
  unfold windowOpen, read.
  destruct (appWindow_ ctx) as [w|] eqn:Hw; [|reflexivity].
  destruct (negb _); [|reflexivity].
  rewrite Hctx, Hw. reflexivity.
Qed.

Lemma wellFormed_initial (name : string) (loc : Location) (blocked : bool) :
  wellFormed (initial name loc blocked).
Proof.
  split; simpl.
  - intros this ctx H. rewrite lookup_nil in H. discriminate.
  - discriminate.
  - intros this [].
  - intros w p H. rewrite lookup_nil in H. discriminate.
Qed.

(** Closing a window keeps the page well formed. *)
Lemma wellFormed_close (w : nat) (s : State) :
  wellFormed s -> wellFormed (set_popups (fun ps => alter closePopup w ps) s).
Proof.
  intros [H1 H2 H3 H4]; split; simpl.
  - intros this ctx H. destruct (H1 _ _ H) as (w' & Hw & Hl).
    exists w'. rewrite length_alter. auto.
  - exact H2.
  - exact H3.
  - intros w' p Hp Hc. destruct (decide (w = w')) as [->|Hne].
    + rewrite list_lookup_alter_eq in Hp.
      destruct (popups s !! w') as [q|]; simpl in Hp; [|discriminate].
      injection Hp as <-. discriminate.
    + rewrite list_lookup_alter_ne in Hp by assumption. eauto.
Qed.

(** Changes that touch neither windows nor session objects nor the
    singleton keep the page well formed. *)
Lemma wellFormed_frame (s s' : State) :
  popups s' = popups s -> heap s' = heap s ->
  currentAppContext s' = currentAppContext s ->
  (forall this, In this (timeouts s') -> this < length (heap s)) ->
  wellFormed s -> wellFormed s'.
Proof.
  intros Ep Eh Ec Ht [H1 H2 H3 H4]; split; rewrite ?Ep, ?Eh, ?Ec; auto.
Qed.

Lemma wellFormed_markOutcome (this : nat) (s : State) :
  wellFormed s -> wellFormed (markOutcome this s).
Proof.
  intros [H1 H2 H3 H4]; split; simpl; rewrite ?length_alter; auto.
  - intros that ctx H. destruct (decide (this = that)) as [->|Hne].
    + rewrite list_lookup_alter_eq in H.
      destruct (heap s !! that) as [c|] eqn:Hc; simpl in H; [|discriminate].
      injection H as <-. apply (H1 _ _ Hc).
    + rewrite list_lookup_alter_ne in H by assumption. eauto.
  - intros w p Hp Hc. destruct (H4 _ _ Hp Hc) as (that & ctx & E1 & E2 & E3).
    destruct (decide (this = that)) as [->|Hne].
    + exists that, (withOutcome ctx). rewrite list_lookup_alter_eq, E2. auto.
    + exists that, ctx. rewrite list_lookup_alter_ne by assumption. auto.
Qed.

Lemma wellFormed_afterOpen (a : AppOptions) (s : State) :
  wellFormed s -> currentWindowOpen s = Normal false ->
  wellFormed (set_currentAppContext (Some (length (heap s))) (afterOpen a s)).
Proof.
  intros [H1 H2 H3 H4] Hw; split; simpl.
  - intros this ctx H. rewrite length_app; simpl.
    apply lookup_app_Some in H as [H|[_ H]].
    + destruct (H1 _ _ H) as (w & E & L). exists w; split; [exact E|lia].
    + apply list_lookup_singleton_Some in H as [_ <-].
      exists (length (popups s)); split; [reflexivity|lia].
  - intros this [= <-]. rewrite length_app; simpl; lia.
  - intros this H. rewrite length_app; simpl.
    apply in_app_or in H as [H|H]; [specialize (H3 _ H); lia|].
    destruct (_ || _); simpl in H; [|contradiction].
    destruct H as [<-|[]]. lia.
  - intros w p Hp Hc.
    apply lookup_app_Some in Hp as [Hp|[Hge Hp]].
    + exfalso. destruct (H4 _ _ Hp Hc) as (this & ctx & E1 & E2 & E3).
      unfold currentWindowOpen in Hw. rewrite E1, E2 in Hw.
      unfold windowOpen in Hw. rewrite E3, Hp in Hw. simpl in Hw.
      rewrite Hc in Hw. discriminate.
    + apply list_lookup_singleton_Some in Hp as [Hi _].
      exists (length (heap s)), (newContext a s).
      split; [reflexivity|]. split; [apply list_lookup_middle; reflexivity|].
      simpl. f_equal. lia.
Qed.

Lemma wellFormed_closeAppWindow (s : State) :
  wellFormed s -> wellFormed (snd (closeAppWindow s)).
Proof.
  intros H. unfold closeAppWindow, bind, gets.
  destruct (currentAppContext s) as [this|]; [|exact H].
  rewrite AppContext_closeAppWindow_result.
  destruct (heap s !! this) as [ctx|]; [|exact H].
  destruct (appWindow_ ctx) as [w|]; [|exact H].
  destruct (windowOpen ctx s); [|exact H].
  apply wellFormed_close, H.
Qed.

Lemma wellFormed_poll (this : nat) (s : State) :
  this < length (heap s) -> wellFormed s ->
  wellFormed (snd (pollAppWindowClosed_ this s)).
Proof.
  intros Hlt H. rewrite pollAppWindowClosed__result.
  destruct (heap s !! this) as [ctx|]; [|exact H].
  destruct (appWindow_ ctx); [|exact H].
  destruct (windowOpen ctx s).
  - destruct (_ || _); [|exact H].
    apply (wellFormed_frame s); try reflexivity; [|exact H].
    simpl; intros that Hin. apply in_app_or in Hin as [Hin|[<-|[]]];
      [apply (wf_timeouts s H), Hin|exact Hlt].
  - destruct (onFinish_ ctx), (onCancel_ ctx), (receivedAppOutcome_ ctx);
      try exact H;
      (apply (wellFormed_frame s); try reflexivity; [apply (wf_timeouts s H)|exact H]).
Qed.

(** Every event keeps the page well formed. *)
Lemma wellFormed_exec (e : Event) (s : State) :
  wellFormed s -> wellFormed (exec e s).
Proof.
  intros H. unfold exec; destruct e as [o| |event| |w|b|name|]; simpl.
  - rewrite openAppWindow_cases.
    destruct (_ || _); [exact H|].
    destruct (AppOptions_new o) as [a|]; [|exact H].
    destruct (currentWindowOpen s) as [[|]|] eqn:Hw; try exact H.
    destruct (newQueryString a s); [|exact H].
    destruct (popup_blocked s); [exact H|].
    apply wellFormed_afterOpen; assumption.
  - apply wellFormed_closeAppWindow, H.
  - unfold bind, gets, handleMessageEvent.
    destruct (listening s); [|exact H].
    unfold bind, gets.
    destruct (currentAppContext s) as [this|]; [|exact H].
    rewrite AppContext_handleMessageEvent_result.
    destruct (heap s !! this) as [ctx|]; [|exact H].
    destruct (negb (accepts ctx event s)); [exact H|].
    assert (H' : wellFormed (if isOutcome (actionOf event)
                             then markOutcome this s else s)).
    { destruct (isOutcome _); [apply wellFormed_markOutcome|]; exact H. }
    cbv zeta. destruct (actionMap_get _ _); [|exact H'].
    eapply wellFormed_frame; [..|exact H']; try reflexivity.
    apply (wf_timeouts _ H').
  - unfold bind, gets.
    destruct (timeouts s) as [|this ts] eqn:Ht; [exact H|].
    unfold modify.
    assert (Hin : this < length (heap s)).
    { apply (wf_timeouts s H). rewrite Ht. left; reflexivity. }
    apply wellFormed_poll; [exact Hin|].
    apply (wellFormed_frame s); try reflexivity; [|exact H].
    simpl. intros that Hthat. apply (wf_timeouts s H).
    rewrite Ht in Hthat |- *. right; exact Hthat.
  - apply wellFormed_close, H.
  - apply (wellFormed_frame s); try reflexivity; [apply (wf_timeouts s H)|exact H].
  - apply (wellFormed_frame s); try reflexivity; [apply (wf_timeouts s H)|exact H].
  - unfold bind, gets, handleUnloadEvent, bind, modify.
    destruct (listening s); [|exact H].
    apply wellFormed_closeAppWindow.
    apply (wellFormed_frame s); try reflexivity; [apply (wf_timeouts s H)|exact H].
Qed.

Lemma wellFormed_run (es : list Event) (s : State) :
  wellFormed s -> wellFormed (run es s).
Proof.
  revert s; induction es as [|e es IH]; intros s H; [exact H|].
  apply IH, wellFormed_exec, H.
Qed.

(** On a well-formed page no event meets a dangling reference: the only
    TypeError is that of a value that cannot be converted to a string
    while the URL of a new window is built. *)
Lemma wellFormed_no_TypeError (e : Event) (s : State) :
  wellFormed s -> fst (step e s) = Throw "TypeError" ->
  exists o a, e = CallOpenAppWindow o /\ AppOptions_new o = Normal a
              /\ newQueryString a s = Throw "TypeError".
Proof.
  intros H.
  assert (Hcur : forall this, currentAppContext s = Some this ->
                 exists ctx w, heap s !! this = Some ctx /\ appWindow_ ctx = Some w).
  { intros this Hc. apply (wf_current s H) in Hc.
    apply lookup_lt_is_Some_2 in Hc as [ctx Hctx].
    destruct (wf_heap s H _ _ Hctx) as (w & Hw & _). eauto. }
  destruct e as [o| |event| |w|b|name|]; simpl; try discriminate.
  - rewrite openAppWindow_cases.
    destruct (_ || _); [discriminate|].
    destruct (AppOptions_new o) as [a|e] eqn:Ha.
    2:{ rewrite AppOptions_new_cases in Ha.
        destruct (negb _); [injection Ha as <-; discriminate|].
        destruct (negb _); [injection Ha as <-; discriminate|].
        destruct (negb _); [injection Ha as <-; discriminate|discriminate]. }
    assert (Hopen : forall b, currentWindowOpen s = Normal b ->
              fst (if b then (Throw ErrorCode.APP_WINDOW_ALREADY_OPEN, s)
                   else match newQueryString a s with
                        | Throw e => (Throw e, s)
                        | Normal _ =>
                            if popup_blocked s
                            then (Throw ErrorCode.APP_WINDOW_NOT_OPENED, s)
                            else (Normal tt,
                                  set_currentAppContext (Some (length (heap s)))
                                    (afterOpen a s))
                        end) = Throw "TypeError" ->
              exists o' a', CallOpenAppWindow o = CallOpenAppWindow o'
                /\ AppOptions_new o' = Normal a'
                /\ newQueryString a' s = Throw "TypeError").
    { intros [|] _; [discriminate|].
      destruct (newQueryString a s) as [q|e] eqn:Hq.
      - destruct (popup_blocked s); discriminate.
      - simpl. intros [= ->]. exists o, a. auto. }
    unfold currentWindowOpen in *.
    destruct (currentAppContext s) as [this|] eqn:Hc.
    + destruct (Hcur this eq_refl) as (ctx & w & Hctx & _).
      rewrite Hctx in *.
      destruct (windowOpen ctx s); [discriminate|].
      apply (Hopen false eq_refl).
    + apply (Hopen false eq_refl).
  - unfold closeAppWindow, bind, gets.
    destruct (currentAppContext s) as [this|] eqn:Hc; [|discriminate].
    rewrite AppContext_closeAppWindow_result.
    destruct (Hcur this eq_refl) as (ctx & w & -> & ->).
    destruct (windowOpen ctx s); discriminate.
  - unfold bind, gets, handleMessageEvent.
    destruct (listening s); [|discriminate].
    unfold bind, gets.
    destruct (currentAppContext s) as [this|] eqn:Hc; [|discriminate].
    rewrite AppContext_handleMessageEvent_result.
    destruct (Hcur this eq_refl) as (ctx & w & -> & _).
    destruct (negb _); [discriminate|].
    cbv zeta. destruct (actionMap_get _ _); discriminate.
  - unfold bind, gets.
    destruct (timeouts s) as [|this ts] eqn:Ht; [discriminate|].
    unfold modify. rewrite pollAppWindowClosed__result. simpl.
    assert (Hin : this < length (heap s)).
    { apply (wf_timeouts s H). rewrite Ht. left; reflexivity. }
    apply lookup_lt_is_Some_2 in Hin as [ctx Hctx]. rewrite Hctx.
    destruct (wf_heap s H _ _ Hctx) as (w & -> & _).
    destruct (windowOpen ctx _).
    + destruct (_ || _); discriminate.
    + destruct (onFinish_ ctx), (onCancel_ ctx), (receivedAppOutcome_ ctx);
        discriminate.
  - unfold bind, gets, handleUnloadEvent, bind, modify.
    destruct (listening s); [|discriminate].
    unfold closeAppWindow, bind, gets. simpl.
    destruct (currentAppContext s) as [this|] eqn:Hc; [|discriminate].
    rewrite AppContext_closeAppWindow_result. simpl.
    destruct (Hcur this eq_refl) as (ctx & w & -> & ->).
    destruct (windowOpen ctx _); discriminate.
Qed.

(** At most one application window is open on a page reached from its
    load: two open windows are the same window. *)
Lemma one_window_open (name : string) (loc : Location) (blocked : bool)
    (es : list Event) (w w' : nat) (p p' : Popup) :
  let s := run es (initial name loc blocked) in
  popups s !! w = Some p -> closed p = false ->
  popups s !! w' = Some p' -> closed p' = false ->
  w = w'.
Proof.
  intros s Hp Hc Hp' Hc'.
  assert (H : wellFormed s) by apply wellFormed_run, wellFormed_initial.
  destruct (wf_one_open s H _ _ Hp Hc) as (this & ctx & E1 & E2 & E3).
  destruct (wf_one_open s H _ _ Hp' Hc') as (this' & ctx' & E1' & E2' & E3').
  congruence.
Qed.

(* ===================================================================== *)
(** ** Further properties: validation and opening *)
(* ===================================================================== *)

(** X1: an argument that is not an object (undefined, null, a boolean, a
    number, a string or a function) makes openAppWindow throw E406, with
    the page left as it was. *)
Theorem X1_not_an_object (v : JSValue) (s : State) :
  (forall props, v <> VObject props) ->
  openAppWindow v s = (Throw ErrorCode.INVALID_OR_MISSING_APP_OPTIONS, s).
Proof.
  intros H. rewrite openAppWindow_cases.
  destruct v; try reflexivity. destruct (H props); reflexivity.
Qed.

Lemma X1_not_an_object_witness :
  openAppWindow VNull samplePage = (Throw "E406", samplePage)
  /\ openAppWindow (VFunction (sampleCallback 1)) samplePage
     = (Throw "E406", samplePage).
Proof.
  split; apply X1_not_an_object; intros props; discriminate.
Defined.

Lemma forallb_false_In {A} (f : A -> bool) (l : list A) (x : A) :
  In x l -> f x = false -> forallb f l = false.
Proof.
  induction l as [|y l IH]; simpl; [intros []|].
  intros [->|Hin] Hf; [rewrite Hf; reflexivity|].
  rewrite (IH Hin Hf). apply andb_false_r.
Qed.

(** X2: when onSessionCreated is a function and one of the five optional
    callbacks is neither a function nor undefined, openAppWindow throws
    E408, whatever the content dimensions are, with the page left as it
    was. *)
Theorem X2_optional_callback (props : list (string * JSValue)) (k : string)
    (s : State) :
  let o := VObject props in
  typeof (get o AppOptionKey.ON_SESSION_CREATED) = "function" ->
  In k optionalCallbackKeys ->
  typeof (get o k) <> "function" -> typeof (get o k) <> "undefined" ->
  openAppWindow o s = (Throw ErrorCode.INVALID_OPTIONAL_CALLBACK, s).
Proof.
  intros o Hs Hk Hf Hu.
  rewrite openAppWindow_cases, AppOptions_new_cases.
  change (negb (String.eqb (typeof o) "object") || is_null o) with false.
  cbv iota. rewrite Hs.
  change (negb ("function" =? "function")%string) with false. cbv iota.
  assert (Hv : forallb (optionalCallbackValid o) optionalCallbackKeys = false).
  { apply (forallb_false_In _ _ k Hk). unfold optionalCallbackValid.
    apply orb_false_intro; apply String.eqb_neq; assumption. }
  unfold optionalCallbackKeys in Hv. rewrite Hv. reflexivity.
Qed.

Lemma X2_optional_callback_witness :
  openAppWindow
    (VObject (("onCancel", VNull) :: ("contentHeight", VString "tall") :: sampleFields))
    samplePage
  = (Throw "E408", samplePage).
Proof.
  apply (X2_optional_callback _ AppOptionKey.ON_CANCEL samplePage).
  - reflexivity.
  - simpl; tauto.
  - discriminate.
  - discriminate.
Defined.

Lemma callbacksValid_dimensionsValid_Normal (o : JSValue) :
  (exists a, AppOptions_new o = Normal a)
  <-> callbacksValid o = true /\ dimensionsValid o = true.
Proof.
  rewrite AppOptions_new_cases. unfold callbacksValid.
  destruct (String.eqb _ "function"); simpl.
  - destruct (_ && _) eqn:Hf; simpl.
    + destruct (dimensionsValid o); simpl.
      * split; [auto|eauto].
      * split; [intros [a H]; discriminate|intros [_ H]; discriminate].
    + split; [intros [a H]; discriminate|intros [H _]; discriminate].
  - split; [intros [a H]; discriminate|intros [H _]; discriminate].
Qed.

(** X3: openAppWindow returns normally exactly when its argument is an
    object whose callbacks and dimensions are valid, no session has its
    window open, the URL of the new window can be built from the validated
    options, and the browser does not block the popup. *)
Theorem X3_open_succeeds_iff (o : JSValue) (s : State) :
  fst (openAppWindow o s) = Normal tt
  <-> (exists props, o = VObject props)
      /\ callbacksValid o = true /\ dimensionsValid o = true
      /\ currentWindowOpen s = Normal false
      /\ (exists a, AppOptions_new o = Normal a
                    /\ builds (newQueryString a s) = true)
      /\ popup_blocked s = false.
Proof.
  split.
  - intros H. destruct (openAppWindow o s) as [r s'] eqn:E. simpl in H. subst r.
    pose proof E as E'.
    apply openAppWindow_Normal in E as (a & Ha & Hw & Hq & Hb & _).
    assert (Hv : callbacksValid o = true /\ dimensionsValid o = true).
    { apply callbacksValid_dimensionsValid_Normal. eauto. }
    split; [|split; [tauto|split; [tauto|split; [exact Hw|split; [eauto|exact Hb]]]]].
    rewrite openAppWindow_cases in E'.
    destruct o; try discriminate E'. eauto.
  - intros ([props ->] & Hc & Hd & Hw & (a & Ha & Hq) & Hb).
    rewrite openAppWindow_cases, Ha, Hw, Hb.
    destruct (newQueryString a s); [reflexivity|discriminate].
Qed.

(* ===================================================================== *)
(** ** One event at a time *)
(* ===================================================================== *)

Lemma windowOpen_appWindow (ctx : AppContext) (s : State) :
  windowOpen ctx s = true -> exists w, appWindow_ ctx = Some w.
Proof. unfold windowOpen. destruct (appWindow_ ctx); [eauto|discriminate]. Qed.

Lemma closeAppWindow_effect (s : State) :
  (snd (closeAppWindow s) = s
   /\ forall this ctx, currentAppContext s = Some this ->
        heap s !! this = Some ctx -> windowOpen ctx s = false)
  \/ exists this w ctx,
       currentAppContext s = Some this /\ heap s !! this = Some ctx
       /\ appWindow_ ctx = Some w /\ windowOpen ctx s = true
       /\ snd (closeAppWindow s) = set_popups (fun ps => alter closePopup w ps) s.
Proof.
  unfold closeAppWindow, bind, gets.
  destruct (currentAppContext s) as [this|] eqn:Hc;
    [|left; split; [reflexivity|discriminate]].
  rewrite AppContext_closeAppWindow_result.
  destruct (heap s !! this) as [ctx|] eqn:Hctx;
    [|left; split; [reflexivity|intros ? ? [= <-]; congruence]].
  destruct (windowOpen ctx s) eqn:Ho.
  - destruct (windowOpen_appWindow _ _ Ho) as [w Hw]. rewrite Hw.
    right. exists this, w, ctx. repeat split; assumption.
  - left. split; [destruct (appWindow_ ctx); reflexivity|].
    intros ? ? [= <-] H. congruence.
Qed.

(** Every event has one of the effects of [effect]. *)
Lemma exec_effect (e : Event) (s : State) : effect s e (exec e s).
Proof.
  unfold exec; destruct e as [o| |event| |w|b|name|]; simpl.
  - rewrite openAppWindow_cases.
    destruct (_ || _); [apply effect_none; exact I|].
    destruct (AppOptions_new o) as [a|] eqn:Ha; [|apply effect_none; exact I].
    destruct (currentWindowOpen s) as [[|]|] eqn:Hw; try (apply effect_none; exact I).
    destruct (newQueryString a s) eqn:Hq; [|apply effect_none; exact I].
    destruct (popup_blocked s) eqn:Hb; [apply effect_none; exact I|].
    apply effect_open; try assumption. rewrite Hq. reflexivity.
  - destruct (closeAppWindow_effect s)
      as [[-> _]|(this & w & ctx & H1 & H2 & H3 & H4 & ->)].
    + apply effect_none; exact I.
    + eapply effect_close; eassumption.
  - unfold bind, gets, handleMessageEvent.
    destruct (listening s) eqn:Hl; [|apply effect_none; exact I].
    unfold bind, gets.
    destruct (currentAppContext s) as [this|] eqn:Hc; [|apply effect_none; exact I].
    rewrite AppContext_handleMessageEvent_result.
    destruct (heap s !! this) as [ctx|] eqn:Hctx; [|apply effect_none; exact I].
    destruct (accepts ctx event s) eqn:Ha; simpl; [|apply effect_none; exact I].
    pose proof (effect_message s event this ctx Hl Hc Hctx Ha) as E.
    unfold routed in E.
    destruct (actionMap_get _ _); exact E.
  - unfold bind, gets.
    destruct (timeouts s) as [|this ts] eqn:Ht; [apply effect_none; exact Ht|].
    unfold modify. rewrite pollAppWindowClosed__result. simpl.
    set (s0 := set_timeouts (fun ts => tail ts) s).
    destruct (heap s !! this) as [ctx|] eqn:Hctx;
      [|apply (effect_timeout_drop s this ts Ht); intros ctx w Hc; congruence].
    assert (Hdrop : (if windowOpen ctx s then pollWarranted ctx s = false
                     else disposition ctx = None) -> effect s TimeoutFires s0).
    { intros H. apply (effect_timeout_drop s this ts Ht).
      intros ctx' w Hc _. replace ctx' with ctx by congruence. exact H. }
    destruct (appWindow_ ctx) as [w|] eqn:Hw;
      [|apply (effect_timeout_drop s this ts Ht); intros ctx' w Hc Hw';
        congruence].
    change (windowOpen ctx s0) with (windowOpen ctx s).
    destruct (windowOpen ctx s) eqn:Ho.
    + destruct (_ || _) eqn:Hp.
      * apply (effect_timeout_again s this ts ctx Ht Hctx).
        unfold pollWarranted. rewrite Ho, Hp. reflexivity.
      * apply Hdrop. unfold pollWarranted. rewrite Ho, Hp. reflexivity.
    + destruct (onFinish_ ctx) as [f|] eqn:Hf, (onCancel_ ctx) as [g|] eqn:Hg,
        (receivedAppOutcome_ ctx) eqn:Hr; simpl;
        try (apply Hdrop; unfold disposition; rewrite Hr, ?Hf, ?Hg; reflexivity);
        (eapply effect_timeout_call; [exact Ht|exact Hctx|exact Ho|];
         unfold disposition; rewrite Hr, ?Hf, ?Hg; reflexivity).
  - apply effect_window_closes.
  - apply effect_blocking.
  - apply effect_renamed.
  - unfold bind, gets, handleUnloadEvent, bind, modify.
    destruct (listening s) eqn:Hl; [|apply effect_none; exact Hl].
    destruct (closeAppWindow_effect (set_listening false s))
      as [[-> Hn]|(this & w & ctx & H1 & H2 & H3 & H4 & ->)].
    + apply effect_unload; [exact Hl|exact Hn].
    + eapply effect_unload_close; eassumption.
Qed.

(* ===================================================================== *)
(** ** The closure polls of a reachable page *)
(* ===================================================================== *)

Lemma windowOpen_after_close (ctx : AppContext) (w : nat) (s : State) :
  windowOpen ctx (set_popups (fun ps => alter closePopup w ps) s) = true ->
  windowOpen ctx s = true.
Proof.
  unfold windowOpen; simpl. destruct (appWindow_ ctx) as [w'|]; [|auto].
  destruct (decide (w = w')) as [->|Hne].
  - rewrite list_lookup_alter_eq. destruct (popups s !! w'); simpl; try discriminate; auto.
  - rewrite list_lookup_alter_ne by assumption. auto.
Qed.

Lemma pollWarranted_after_close (ctx : AppContext) (w : nat) (s : State) :
  pollWarranted ctx (set_popups (fun ps => alter closePopup w ps) s) = true ->
  pollWarranted ctx s = true.
Proof.
  unfold pollWarranted. intros H. apply andb_prop in H as [H1 H2].
  rewrite (windowOpen_after_close _ _ _ H1), H2. reflexivity.
Qed.

Lemma pollsSound_initial (name : string) (loc : Location) (blocked : bool) :
  pollsSound (initial name loc blocked).
Proof.
  split; simpl.
  - constructor.
  - intros this ctx H. rewrite lookup_nil in H. discriminate.
  - intros this ctx [].
Qed.

Lemma pollsSound_same (s s' : State) :
  timeouts s' = timeouts s -> heap s' = heap s ->
  (forall ctx, windowOpen ctx s' = true -> windowOpen ctx s = true) ->
  pollsSound s -> pollsSound s'.
Proof.
  intros Et Eh Hw [H1 H2 H3]; split; rewrite ?Et, ?Eh; auto.
  intros this ctx Hc Hp. apply (H2 this ctx Hc).
  unfold pollWarranted in *. apply andb_prop in Hp as [Hp1 Hp2].
  rewrite (Hw _ Hp1), Hp2. reflexivity.
Qed.

Lemma pollsSound_routed (this : nat) (ctx : AppContext) (event : MessageEvent)
    (s : State) :
  heap s !! this = Some ctx -> pollsSound s -> pollsSound (routed this ctx event s).
Proof.
  intros Hctx [H1 H2 H3].
  assert (Hh : heap (routed this ctx event s) = heap s
               \/ heap (routed this ctx event s) = alter withOutcome this (heap s)).
  { unfold routed. destruct (isOutcome _), (actionMap_get _ _); simpl; auto. }
  assert (Ht : timeouts (routed this ctx event s) = timeouts s).
  { unfold routed. destruct (isOutcome _), (actionMap_get _ _); reflexivity. }
  assert (Hp : popups (routed this ctx event s) = popups s).
  { unfold routed. destruct (isOutcome _), (actionMap_get _ _); reflexivity. }
  assert (Hold : forall that c', heap (routed this ctx event s) !! that = Some c' ->
            exists c, heap s !! that = Some c
              /\ onFinish_ c' = onFinish_ c /\ onCancel_ c' = onCancel_ c
              /\ (pollWarranted c' (routed this ctx event s) = true ->
                  pollWarranted c s = true)).
  { intros that c' Hc'. destruct Hh as [Hh|Hh]; rewrite Hh in Hc'.
    - exists c'. repeat split; auto.
      unfold pollWarranted, windowOpen. rewrite Hp. auto.
    - destruct (decide (this = that)) as [<-|Hne].
      + rewrite list_lookup_alter_eq, Hctx in Hc'. injection Hc' as <-.
        exists ctx. repeat split; auto.
        unfold pollWarranted, windowOpen. rewrite Hp. simpl.
        rewrite andb_false_r, orb_false_r.
        intros H. apply andb_prop in H as [-> ->]. reflexivity.
      + rewrite list_lookup_alter_ne in Hc' by assumption.
        exists c'. repeat split; auto.
        unfold pollWarranted, windowOpen. rewrite Hp. auto. }
  split; rewrite ?Ht.
  - exact H1.
  - intros that c' Hc' Hw. destruct (Hold _ _ Hc') as (c & Hc & _ & _ & Hi).
    apply (H2 that c Hc), Hi, Hw.
  - intros that c' Hin Hc'. destruct (Hold _ _ Hc') as (c & Hc & -> & -> & _).
    apply (H3 that c Hin Hc).
Qed.

(** Every effect keeps the polls in order on a well-formed page. *)
Lemma pollsSound_effect (s s' : State) (e : Event) :
  wellFormed s -> pollsSound s -> effect s e s' -> pollsSound s'.
Proof.
  intros W P E. pose proof P as [H1 H2 H3].
  destruct E as [e _|o a Ha Hw Hbuilds Hb|this w ctx Hc Hctx Haw Ho
                 |event this ctx Hl Hc Hctx Hacc
                 |this ts Ht Hd|this ts ctx Ht Hctx Hp
                 |this ts ctx f r Ht Hctx Ho Hd|w|b|name|Hl Hn
                 |this w ctx Hl Hc Hctx Haw Ho].
  - exact P.
  - (* a new session *)
    set (reg := bool_decide (is_Some (onFinish a)) || bool_decide (is_Some (onCancel a))).
    assert (Hfresh : ~ In (length (heap s)) (timeouts s)).
    { intros Hin. apply (wf_timeouts s W) in Hin. lia. }
    assert (Hwo : forall that c, heap s !! that = Some c ->
              windowOpen c (set_currentAppContext (Some (length (heap s)))
                              (afterOpen a s)) = windowOpen c s).
    { intros that c Hc. unfold windowOpen; simpl.
      destruct (wf_heap s W _ _ Hc) as (w & -> & Hlt).
      rewrite lookup_app_l by assumption. reflexivity. }
    split; simpl; fold reg.
    + apply NoDup_app. split; [exact H1|]. split.
      * intros x Hx Hx'. rewrite list_elem_of_In in Hx, Hx'.
        destruct reg; simpl in Hx'; [|contradiction].
        destruct Hx' as [<-|[]]. exact (Hfresh Hx).
      * destruct reg; [apply NoDup_singleton|constructor].
    + intros that c Hc Hp. apply in_or_app.
      apply lookup_app_Some in Hc as [Hc|[Hge Hc]].
      * left. apply (H2 that c Hc).
        unfold pollWarranted in *. rewrite <- (Hwo that c Hc). exact Hp.
      * right. apply list_lookup_singleton_Some in Hc as [Hi <-].
        assert (that = length (heap s)) as -> by lia.
        unfold pollWarranted in Hp. simpl in Hp.
        apply andb_prop in Hp as [_ Hp]. rewrite andb_true_r in Hp.
        unfold reg. rewrite Hp. left; reflexivity.
    + intros that c Hin Hc. apply in_app_or in Hin as [Hin|Hin].
      * apply (H3 that c Hin).
        apply lookup_app_Some in Hc as [Hc|[Hge Hc]]; [exact Hc|].
        apply (wf_timeouts s W) in Hin. lia.
      * destruct reg eqn:Hreg; simpl in Hin; [|contradiction].
        destruct Hin as [<-|[]].
        rewrite list_lookup_middle in Hc by reflexivity. injection Hc as <-.
        simpl. unfold reg in Hreg. apply orb_prop in Hreg as [Hr|Hr];
          apply bool_decide_eq_true_1 in Hr; auto.
  - apply (pollsSound_same s); try reflexivity; [|exact P].
    intros c. apply windowOpen_after_close.
  - apply pollsSound_routed; assumption.
  - (* the poll ends *)
    rewrite Ht in H1, H2, H3. apply NoDup_cons in H1 as [Hni Hnd].
    split; simpl; rewrite Ht; simpl.
    + exact Hnd.
    + intros that c Hc Hp.
      change (pollWarranted c (set_timeouts (fun ts => tail ts) s))
        with (pollWarranted c s) in Hp.
      destruct (H2 that c Hc Hp) as [<-|Hin]; [|exact Hin].
      exfalso. pose proof Hp as Hp'. unfold pollWarranted in Hp'.
      apply andb_prop in Hp' as [Hwo _].
      destruct (windowOpen_appWindow _ _ Hwo) as [w Hw].
      specialize (Hd c w Hc Hw). rewrite Hwo in Hd. congruence.
    + intros that c Hin Hc. apply (H3 that c); [right; exact Hin|exact Hc].
  - (* the poll goes on *)
    rewrite Ht in H1, H2, H3. apply NoDup_cons in H1 as [Hni Hnd].
    split; simpl; rewrite Ht; simpl.
    + apply NoDup_app. split; [exact Hnd|]. split; [|apply NoDup_singleton].
      intros x Hx Hx'. rewrite list_elem_of_In in Hx'. destruct Hx' as [<-|[]].
      exact (Hni Hx).
    + intros that c Hc Hp'. apply in_or_app.
      destruct (H2 that c Hc Hp') as [<-|Hin]; [right; left; reflexivity|left; exact Hin].
    + intros that c Hin Hc. apply (H3 that c); [|exact Hc].
      apply in_app_or in Hin as [Hin|[<-|[]]]; [right; exact Hin|left; reflexivity].
  - (* the poll reports *)
    rewrite Ht in H1, H2, H3. apply NoDup_cons in H1 as [Hni Hnd].
    split; simpl; rewrite Ht; simpl.
    + exact Hnd.
    + intros that c Hc Hp.
      change (pollWarranted c (logCall f empty_object this r
                                 (set_timeouts (fun ts => tail ts) s)))
        with (pollWarranted c s) in Hp.
      destruct (H2 that c Hc Hp) as [<-|Hin]; [|exact Hin].
      exfalso. unfold pollWarranted in Hp. apply andb_prop in Hp as [Hwo _].
      congruence.
    + intros that c Hin Hc. apply (H3 that c); [right; exact Hin|exact Hc].
  - apply (pollsSound_same s); try reflexivity; [|exact P].
    intros c. apply windowOpen_after_close.
  - apply (pollsSound_same s); try reflexivity; [auto|exact P].
  - apply (pollsSound_same s); try reflexivity; [auto|exact P].
  - apply (pollsSound_same s); try reflexivity; [auto|exact P].
  - apply (pollsSound_same s); try reflexivity; [|exact P].
    intros c H. apply (windowOpen_after_close c w s). exact H.
Qed.

Lemma reachable_sound (s : State) :
  reachable s -> wellFormed s /\ pollsSound s.
Proof.
  intros (name & loc & blocked & es & ->).
  assert (H : wellFormed (initial name loc blocked)
              /\ pollsSound (initial name loc blocked)).
  { split; [apply wellFormed_initial|apply pollsSound_initial]. }
  revert H. generalize (initial name loc blocked).
  induction es as [|e es IH]; intros s [W P]; [split; assumption|].
  apply IH. split; [apply wellFormed_exec, W|].
  apply (pollsSound_effect s _ e W P), exec_effect.
Qed.

Lemma run_app (es1 es2 : list Event) (s : State) :
  run (es1 ++ es2) s = run es2 (run es1 s).
Proof. unfold run. apply fold_left_app. Qed.

Lemma callsBy_logCall (this that : nat) (f : Callback) (payload : JSValue)
    (r : bool) (s : State) :
  callsBy this (logCall f payload that r s)
  = (callsBy this s
     ++ if Nat.eqb that this then [mkInvocation f payload that r] else [])%list.
Proof. unfold callsBy; simpl. rewrite List.filter_app. reflexivity. Qed.

(** A poll tick of another session leaves this session's object, the
    windows and this session's calls alone. *)
Lemma fire_other (this p : nat) (rest : list nat) (s : State) :
  timeouts s = p :: rest -> p <> this ->
  let s' := exec TimeoutFires s in
  heap s' = heap s /\ popups s' = popups s
  /\ callsBy this s' = callsBy this s
  /\ (timeouts s' = rest \/ timeouts s' = (rest ++ [p])%list).
Proof.
  intros Ht Hne. cbv zeta. pose proof (exec_effect TimeoutFires s) as E.
  remember (exec TimeoutFires s) as s1 eqn:Es1. clear Es1.
  inversion E as [e Hn| | | |q ts Hq _|q ts ctx Hq _ _|q ts ctx f r Hq _ _ _| | | | |];
    subst; try (rewrite Ht in Hn; discriminate Hn);
    rewrite Ht in Hq; injection Hq as <- <-; simpl; rewrite ?Ht; simpl.
  - auto.
  - auto.
  - repeat split; auto.
    change (callsBy this (logCall f empty_object p r
                            (set_timeouts (fun ts => tail ts) s))
            = callsBy this s).
    rewrite callsBy_logCall.
    destruct (Nat.eqb_spec p this); [contradiction|apply app_nil_r].
Qed.

Lemma fire_others (this : nat) (pre : list nat) :
  ~ In this pre ->
  forall (q : list nat) (s : State),
  timeouts s = (pre ++ q)%list ->
  let s' := run (repeat TimeoutFires (length pre)) s in
  heap s' = heap s /\ popups s' = popups s
  /\ callsBy this s' = callsBy this s
  /\ exists r, timeouts s' = (q ++ r)%list /\ forall x, In x r -> In x pre.
Proof.
  induction pre as [|p pre IH]; intros Hni q s Ht; simpl.
  - repeat split. exists []. rewrite app_nil_r. split; [exact Ht|intros x []].
  - assert (Hp : p <> this) by (intros ->; apply Hni; left; reflexivity).
    assert (Hni' : ~ In this pre) by (intros H; apply Hni; right; exact H).
    destruct (fire_other this p (pre ++ q) s Ht Hp) as (Eh & Ep & Ec & Et).
    unfold run; simpl. fold (run (repeat TimeoutFires (length pre)) (exec TimeoutFires s)).
    destruct Et as [Et|Et].
    + destruct (IH Hni' q _ Et) as (Eh' & Ep' & Ec' & r & Er & Hr).
      rewrite Eh', Ep', Ec', Eh, Ep, Ec. repeat split.
      exists r. split; [exact Er|]. intros x Hx. right. apply Hr, Hx.
    + rewrite <- app_assoc in Et.
      destruct (IH Hni' (q ++ [p])%list _ Et) as (Eh' & Ep' & Ec' & r & Er & Hr).
      rewrite Eh', Ep', Ec', Eh, Ep, Ec. repeat split.
      exists (p :: r). split; [rewrite Er, <- app_assoc; reflexivity|].
      intros x [<-|Hx]; [left; reflexivity|right; apply Hr, Hx].
Qed.

(** The poll tick of a session whose window is closed reports its
    disposition and ends the session's polling. *)
Lemma fire_closed (this w : nat) (rest : list nat) (ctx : AppContext) (s : State) :
  timeouts s = this :: rest -> heap s !! this = Some ctx ->
  appWindow_ ctx = Some w -> windowOpen ctx s = false ->
  let s' := exec TimeoutFires s in
  timeouts s' = rest
  /\ callsBy this s'
     = (callsBy this s
        ++ match disposition ctx with
           | Some (f, r) => [mkInvocation f empty_object this r]
           | None => []
           end)%list.
Proof.
  intros Ht Hctx Hw Ho. cbv zeta. pose proof (exec_effect TimeoutFires s) as E.
  remember (exec TimeoutFires s) as s1 eqn:Es1. clear Es1.
  inversion E as [e Hn| | | |q ts Hq Hd|q ts c Hq Hc Hp|q ts c f r Hq Hc _ Hd| | | | |];
    subst; try (rewrite Ht in Hn; discriminate Hn);
    rewrite Ht in Hq; injection Hq as <- <-; simpl; rewrite ?Ht; simpl.
  - specialize (Hd ctx w Hctx Hw). rewrite Ho in Hd. rewrite Hd.
    split; [reflexivity|]. symmetry; apply app_nil_r.
  - exfalso. assert (c = ctx) as -> by congruence.
    unfold pollWarranted in Hp. rewrite Ho in Hp. discriminate.
  - assert (c = ctx) as -> by congruence. rewrite Hd.
    split; [reflexivity|].
    change (callsBy this (logCall f empty_object this r
                            (set_timeouts (fun ts => tail ts) s))
            = (callsBy this s ++ [mkInvocation f empty_object this r])%list).
    rewrite callsBy_logCall, Nat.eqb_refl. reflexivity.
Qed.

Lemma closure_reported (this : nat) (ctx : AppContext) (s : State) :
  wellFormed s -> NoDup (timeouts s) ->
  heap s !! this = Some ctx -> In this (timeouts s) ->
  windowOpen ctx s = false ->
  let s' := run (repeat TimeoutFires (length (timeouts s))) s in
  callsBy this s'
  = (callsBy this s
     ++ match disposition ctx with
        | Some (f, r) => [mkInvocation f empty_object this r]
        | None => []
        end)%list
  /\ ~ In this (timeouts s').
Proof.
  intros W Hnd Hctx Hin Ho. cbv zeta.
  destruct (in_split _ _ Hin) as (pre & post & Ht).
  rewrite Ht in Hnd |- *.
  apply NoDup_app in Hnd as (_ & Hdisj & Hnd').
  apply NoDup_cons in Hnd' as [Hpost _].
  assert (Hpre : ~ In this pre).
  { intros H. apply list_elem_of_In in H. apply (Hdisj _ H). left. }
  rewrite list_elem_of_In in Hpost.
  destruct (wf_heap s W _ _ Hctx) as (w & Hw & _).
  rewrite length_app. simpl length.
  replace (length pre + S (length post))
    with (length pre + (1 + length post)) by lia.
  rewrite !repeat_app, !run_app.
  destruct (fire_others this pre Hpre (this :: post) s Ht)
    as (Eh1 & Ep1 & Ec1 & r1 & Et1 & Hr1).
  set (s1 := run (repeat TimeoutFires (length pre)) s) in *.
  assert (Ho1 : windowOpen ctx s1 = false).
  { unfold windowOpen in *. rewrite Ep1. exact Ho. }
  assert (Hctx1 : heap s1 !! this = Some ctx) by (rewrite Eh1; exact Hctx).
  destruct (fire_closed this w (post ++ r1) ctx s1 Et1 Hctx1 Hw Ho1) as [Et2 Ec2].
  change (run (repeat TimeoutFires 1) s1) with (exec TimeoutFires s1).
  set (s2 := exec TimeoutFires s1) in *.
  destruct (fire_others this post Hpost r1 s2 Et2)
    as (_ & _ & Ec3 & r3 & Et3 & Hr3).
  rewrite Ec3, Ec2, Ec1. split; [reflexivity|].
  rewrite Et3. intros H. apply in_app_or in H as [H|H]; auto.
Qed.

(* ===================================================================== *)
(** ** Closed sessions *)
(* ===================================================================== *)

Lemma windowOpen_closed_stays (ctx : AppContext) (w : nat) (s : State) :
  windowOpen ctx s = false ->
  windowOpen ctx (set_popups (fun ps => alter closePopup w ps) s) = false.
Proof.
  intros H. destruct (windowOpen ctx (set_popups _ s)) eqn:E; [|reflexivity].
  apply windowOpen_after_close in E. congruence.
Qed.

Lemma routed_other (this that : nat) (c : AppContext) (event : MessageEvent)
    (s : State) :
  that <> this ->
  heap (routed that c event s) !! this = heap s !! this
  /\ popups (routed that c event s) = popups s
  /\ timeouts (routed that c event s) = timeouts s
  /\ callsBy this (routed that c event s) = callsBy this s.
Proof.
  intros Hne. unfold routed.
  assert (Hb : Nat.eqb that this = false) by (apply Nat.eqb_neq; exact Hne).
  destruct (isOutcome _), (actionMap_get _ _); simpl;
    rewrite ?callsBy_logCall, ?Hb, ?app_nil_r;
    rewrite ?list_lookup_alter_ne by assumption; repeat split.
Qed.

(** Once the window of a session is closed, no event reopens it, changes
    the session object, or (when no poll of the session is pending) makes
    the session call anything. *)
Lemma closed_session_effect (this : nat) (ctx : AppContext) (s s' : State)
    (e : Event) :
  wellFormed s -> effect s e s' ->
  heap s !! this = Some ctx -> windowOpen ctx s = false ->
  heap s' !! this = Some ctx /\ windowOpen ctx s' = false
  /\ (~ In this (timeouts s) ->
      ~ In this (timeouts s') /\ callsBy this s' = callsBy this s).
Proof.
  intros W E Hctx Ho.
  assert (Hlt : this < length (heap s)) by (eapply lookup_lt_Some; exact Hctx).
  destruct E as [e _|o a Ha Hw Hbuilds Hb|that w c Hc Hcc Haw Hoo
                 |event that c Hl Hc Hcc Hacc
                 |that ts Ht Hd|that ts c Ht Hcc Hp
                 |that ts c f r Ht Hcc Hoo Hd|w|b|name|Hl Hn
                 |that w c Hl Hc Hcc Haw Hoo];
    try (split; [exact Hctx|split; [first [exact Ho|apply windowOpen_closed_stays, Ho]|]];
         intros Hni; split; [exact Hni|reflexivity]).
  - (* a new session *)
    split; [simpl; apply lookup_app_l_Some, Hctx|]. split.
    + unfold windowOpen in *; simpl.
      destruct (wf_heap s W _ _ Hctx) as (w & Hw' & Hwl). rewrite Hw' in *.
      rewrite lookup_app_l by assumption. exact Ho.
    + intros Hni. split; [|reflexivity]. simpl. intros H.
      apply in_app_or in H as [H|H]; [exact (Hni H)|].
      destruct (_ || _); simpl in H; [|exact H]. destruct H as [H|[]]. lia.
  - (* a message *)
    assert (Hne : that <> this).
    { intros ->. assert (c = ctx) as -> by congruence.
      unfold accepts in Hacc. rewrite Ho in Hacc. discriminate. }
    destruct (routed_other this that c event s Hne) as (Eh & Ep & Et & Ec).
    rewrite Eh. split; [exact Hctx|]. split.
    + unfold windowOpen in *. rewrite Ep. exact Ho.
    + intros Hni. rewrite Et, Ec. split; [exact Hni|reflexivity].
  - (* a poll ends *)
    split; [exact Hctx|]. split; [exact Ho|]. intros Hni. simpl.
    rewrite Ht in *. split; [|reflexivity]. simpl. intros H. apply Hni. right; exact H.
  - (* a poll goes on *)
    split; [exact Hctx|]. split; [exact Ho|]. intros Hni. simpl.
    rewrite Ht in *. split; [|reflexivity]. simpl. intros H.
    apply in_app_or in H as [H|[<-|[]]]; apply Hni; [right; exact H|left; reflexivity].
  - (* a poll reports *)
    split; [exact Hctx|]. split; [exact Ho|]. intros Hni.
    rewrite Ht in Hni. split.
    + simpl. rewrite Ht. simpl. intros H. apply Hni. right; exact H.
    + rewrite callsBy_logCall.
      assert (Hb : Nat.eqb that this = false).
      { apply Nat.eqb_neq. intros ->. apply Hni. left; reflexivity. }
      rewrite Hb. apply app_nil_r.
Qed.

Lemma closed_session_run (this : nat) (ctx : AppContext) (es : list Event)
    (s : State) :
  wellFormed s -> heap s !! this = Some ctx -> windowOpen ctx s = false ->
  heap (run es s) !! this = Some ctx /\ windowOpen ctx (run es s) = false
  /\ (~ In this (timeouts s) ->
      ~ In this (timeouts (run es s)) /\ callsBy this (run es s) = callsBy this s).
Proof.
  revert s; induction es as [|e es IH]; intros s W Hctx Ho.
  - repeat split; auto.
  - destruct (closed_session_effect this ctx s _ e W (exec_effect e s) Hctx Ho)
      as (H1 & H2 & H3).
    destruct (IH _ (wellFormed_exec e s W) H1 H2) as (I1 & I2 & I3).
    split; [exact I1|]. split; [exact I2|]. intros Hni.
    destruct (H3 Hni) as [Hni' Ec]. destruct (I3 Hni') as [Hni'' Ec'].
    split; [exact Hni''|]. unfold run in *; simpl. rewrite Ec'. exact Ec.
Qed.

Lemma reachable_run (es : list Event) (s : State) :
  reachable s -> reachable (run es s).
Proof.
  intros (name & loc & blocked & es0 & ->).
  exists name, loc, blocked, (es0 ++ es)%list. symmetry. apply run_app.
Qed.

Lemma reachable_sampleSession : reachable sampleSession.
Proof.
  exists "", sampleLocation, false, [CallOpenAppWindow sampleOptions]. reflexivity.
Qed.

(** X4: on every page reached from its load, no session has two pending
    closure polls: each session object occurs at most once among the
    pending timeouts. *)
Theorem X4_one_poll_per_session (s : State) :
  reachable s -> NoDup (timeouts s).
Proof. intros H. apply reachable_sound in H as [_ P]. apply (ps_nodup s P). Qed.

Lemma X4_one_poll_per_session_witness :
  NoDup (timeouts (run [TimeoutFires; TimeoutFires; WindowCloses 0;
                        CallOpenAppWindow sampleOptions; TimeoutFires]
                     sampleSession)).
Proof. apply X4_one_poll_per_session, reachable_run, reachable_sampleSession. Defined.

(** X5: on every reachable page, a session whose window is open and for
    which onFinish is registered, or onCancel is registered and no outcome
    has been received, has a closure poll pending. *)
Theorem X5_poll_pending (s : State) (this : nat) (ctx : AppContext) :
  reachable s -> heap s !! this = Some ctx -> pollWarranted ctx s = true ->
  In this (timeouts s).
Proof.
  intros H. apply reachable_sound in H as [_ P]. apply (ps_pending s P).
Qed.

Lemma X5_poll_pending_witness :
  In 0 (timeouts (run [TimeoutFires; TimeoutFires] sampleSession)).
Proof.
  eapply (X5_poll_pending _ 0).
  - apply reachable_run, reachable_sampleSession.
  - reflexivity.
  - reflexivity.
Defined.

(** X6: on every reachable page, a pending closure poll belongs to a
    session with onFinish or onCancel registered: a session with neither
    callback is never polled. *)
Theorem X6_no_callback_no_poll (s : State) (this : nat) (ctx : AppContext) :
  reachable s -> heap s !! this = Some ctx ->
  onFinish_ ctx = None -> onCancel_ ctx = None ->
  ~ In this (timeouts s).
Proof.
  intros H Hctx Hf Hc Hin. apply reachable_sound in H as [_ P].
  destruct (ps_registered s P this ctx Hin Hctx) as [[f E]|[f E]]; congruence.
Qed.

Lemma X6_no_callback_no_poll_witness :
  ~ In 0 (timeouts (run [CallOpenAppWindow UtilsService_appOptions; TimeoutFires]
                      samplePage)).
Proof.
  eapply (X6_no_callback_no_poll _ 0).
  - exists "", sampleLocation, false,
      [CallOpenAppWindow UtilsService_appOptions; TimeoutFires]. reflexivity.
  - reflexivity.
  - reflexivity.
  - reflexivity.
Defined.

Lemma closing_window (this w : nat) (ctx : AppContext) (s : State) :
  heap s !! this = Some ctx -> appWindow_ ctx = Some w ->
  windowOpen ctx (set_popups (fun ps => alter closePopup w ps) s) = false.
Proof.
  intros Hctx Hw. unfold windowOpen; simpl. rewrite Hw.
  rewrite list_lookup_alter_eq. destruct (popups s !! w); reflexivity.
Qed.

(** X7: closure is reported.  On a reachable page take a session for which
    polling is warranted.  When its window is closed, by the user or by
    closeAppWindow while the session is the current one, and every timeout
    then pending has fired, the session has made exactly one more call:
    onFinish({}) if an outcome was received and onFinish is registered,
    onCancel({}) if none was received and onCancel is registered, and no
    call otherwise; and no poll of the session is pending any more. *)
Theorem X7_closure_reported (s : State) (this w : nat) (ctx : AppContext)
    (e : Event) :
  reachable s -> heap s !! this = Some ctx -> appWindow_ ctx = Some w ->
  pollWarranted ctx s = true ->
  e = WindowCloses w \/ (e = CallCloseAppWindow /\ currentAppContext s = Some this) ->
  let s1 := exec e s in
  let s2 := run (repeat TimeoutFires (length (timeouts s1))) s1 in
  callsBy this s2
  = (callsBy this s
     ++ match disposition ctx with
        | Some (f, r) => [mkInvocation f empty_object this r]
        | None => []
        end)%list
  /\ ~ In this (timeouts s2).
Proof.
  intros R Hctx Hw Hp He. cbv zeta.
  pose proof (reachable_sound s R) as [W P].
  assert (Hin : In this (timeouts s)) by (apply (ps_pending s P this ctx); assumption).
  assert (Ho : windowOpen ctx s = true).
  { unfold pollWarranted in Hp. apply andb_prop in Hp as [Hp _]. exact Hp. }
  assert (E1 : exec e s = set_popups (fun ps => alter closePopup w ps) s).
  { destruct He as [->|[-> Hc]]; [reflexivity|].
    unfold exec; simpl.
    destruct (closeAppWindow_effect s)
      as [[_ Hn]|(this' & w' & ctx' & H1 & H2 & H3 & H4 & ->)].
    - rewrite (Hn this ctx Hc Hctx) in Ho. discriminate.
    - rewrite Hc in H1. injection H1 as <-.
      rewrite Hctx in H2. injection H2 as <-.
      rewrite Hw in H3. injection H3 as <-. reflexivity. }
  assert (W1 : wellFormed (exec e s)).
  { destruct He as [->|[-> _]]; apply wellFormed_exec, W. }
  rewrite E1 in *.
  destruct (closure_reported this ctx _ W1 (ps_nodup s P) Hctx Hin
              (closing_window this w ctx s Hctx Hw)) as [Hc Hn].
  split; [exact Hc|exact Hn].
Qed.

Lemma X7_closure_reported_witness :
  callsBy 0 (run [WindowCloses 0; TimeoutFires] sampleSession)
  = [mkInvocation (sampleCallback 4) empty_object 0 false]
  /\ callsBy 0 (run [CallCloseAppWindow; TimeoutFires] sampleSession)
     = [mkInvocation (sampleCallback 4) empty_object 0 false].
Proof.
  split.
  - exact (proj1 (X7_closure_reported sampleSession 0 0 _ (WindowCloses 0)
                    reachable_sampleSession eq_refl eq_refl eq_refl
                    (or_introl eq_refl))).
  - exact (proj1 (X7_closure_reported sampleSession 0 0 _ CallCloseAppWindow
                    reachable_sampleSession eq_refl eq_refl eq_refl
                    (or_intror (conj eq_refl eq_refl)))).
Defined.

(** X8: a closed window stays closed and its session is left alone.  On a
    well-formed page, once the window of a session is closed, after every
    further sequence of events the session object is unchanged, its window
    is still closed and the router ignores every message handed to it; if
    moreover no poll of the session is pending, the session never calls a
    callback again. *)
Theorem X8_closed_session_is_final (s : State) (this : nat) (ctx : AppContext)
    (es : list Event) :
  wellFormed s -> heap s !! this = Some ctx -> windowOpen ctx s = false ->
  heap (run es s) !! this = Some ctx
  /\ windowOpen ctx (run es s) = false
  /\ (forall event, AppContext_handleMessageEvent this event (run es s)
                    = (Normal tt, run es s))
  /\ (~ In this (timeouts s) -> callsBy this (run es s) = callsBy this s).
Proof.
  intros W Hctx Ho.
  destruct (closed_session_run this ctx es s W Hctx Ho) as (H1 & H2 & H3).
  split; [exact H1|]. split; [exact H2|]. split.
  - intros event. rewrite AppContext_handleMessageEvent_result, H1.
    unfold accepts. rewrite H2. reflexivity.
  - intros Hni. apply (H3 Hni).
Qed.

Lemma X8_closed_session_is_final_witness :
  let s := run [WindowCloses 0; TimeoutFires] sampleSession in
  let es := [MessageArrives (sampleMessage "success" FIXED_APP_WINDOW_ID_1
                               TEST_GOOGLE_PAY_ORIGIN);
             TimeoutFires; CallOpenAppWindow sampleOptions; TimeoutFires] in
  callsBy 0 (run es s) = callsBy 0 s.
Proof.
  intros s es.
  refine (proj2 (proj2 (proj2 (X8_closed_session_is_final s 0 _ es _ eq_refl eq_refl))) _).
  - apply wellFormed_run. unfold sampleSession.
    apply wellFormed_run, wellFormed_initial.
  - simpl. tauto.
Defined.

(* ===================================================================== *)
(** ** The singleton, the windows and the errors of a reachable page *)
(* ===================================================================== *)

(** X9: on every reachable page an application window that is open is the
    window of the current session; so at most one is open. *)
Theorem X9_open_window_is_current (s : State) (w : nat) (p : Popup) :
  reachable s -> popups s !! w = Some p -> closed p = false ->
  (exists this ctx, currentAppContext s = Some this
     /\ heap s !! this = Some ctx /\ appWindow_ ctx = Some w)
  /\ (forall w' p', popups s !! w' = Some p' -> closed p' = false -> w' = w).
Proof.
  intros R Hp Hc. apply reachable_sound in R as [W _].
  destruct (wf_one_open s W w p Hp Hc) as (this & ctx & E1 & E2 & E3).
  split; [eauto|].
  intros w' p' Hp' Hc'.
  destruct (wf_one_open s W w' p' Hp' Hc') as (this' & ctx' & E1' & E2' & E3').
  congruence.
Qed.

Lemma X9_open_window_is_current_witness :
  exists this ctx,
    currentAppContext
      (run [WindowCloses 0; CallOpenAppWindow sampleOptions] sampleSession)
    = Some this
    /\ heap (run [WindowCloses 0; CallOpenAppWindow sampleOptions] sampleSession)
         !! this = Some ctx
    /\ appWindow_ ctx = Some 1.
Proof.
  refine (proj1 (X9_open_window_is_current
                  (run [WindowCloses 0; CallOpenAppWindow sampleOptions] sampleSession)
                  1 _ _ _ _)).
  - apply reachable_run, reachable_sampleSession.
  - vm_compute. reflexivity.
  - reflexivity.
Defined.

Lemma step_completion (e : Event) (s : State) :
  fst (step e s) = Normal tt
  \/ fst (step e s) = Throw "TypeError"
  \/ exists o code, e = CallOpenAppWindow o
       /\ fst (step e s) = Throw code
       /\ (In code errorCodes
           \/ exists a, AppOptions_new o = Normal a
                        /\ newQueryString a s = Throw code).
Proof.
  destruct e as [o| |event| |w|b|name|]; simpl; auto.
  - rewrite openAppWindow_cases.
    assert (T : forall code, In code errorCodes ->
                exists o' code', CallOpenAppWindow o = CallOpenAppWindow o'
                  /\ @Throw unit code = Throw code'
                  /\ (In code' errorCodes
                      \/ exists a, AppOptions_new o' = Normal a
                                   /\ newQueryString a s = Throw code')).
    { intros code H. exists o, code. auto. }
    destruct (_ || _); [right; right; apply T; simpl; tauto|].
    destruct (AppOptions_new o) as [a|code] eqn:Ha.
    2:{ right; right; apply T. rewrite AppOptions_new_cases in Ha.
        destruct (negb _); [injection Ha as <-; simpl; tauto|].
        destruct (negb _); [injection Ha as <-; simpl; tauto|].
        destruct (negb _); [injection Ha as <-; simpl; tauto|discriminate]. }
    assert (N : fst (match newQueryString a s with
                     | Throw e => (@Throw unit e, s)
                     | Normal _ =>
                         if popup_blocked s
                         then (Throw ErrorCode.APP_WINDOW_NOT_OPENED, s)
                         else (Normal tt,
                               set_currentAppContext (Some (length (heap s)))
                                 (afterOpen a s))
                     end) = Normal tt
                \/ exists o' code', CallOpenAppWindow o = CallOpenAppWindow o'
                     /\ fst (match newQueryString a s with
                             | Throw e => (@Throw unit e, s)
                             | Normal _ =>
                                 if popup_blocked s
                                 then (Throw ErrorCode.APP_WINDOW_NOT_OPENED, s)
                                 else (Normal tt,
                                       set_currentAppContext
                                         (Some (length (heap s))) (afterOpen a s))
                             end) = Throw code'
                     /\ (In code' errorCodes
                         \/ exists a', AppOptions_new o' = Normal a'
                                       /\ newQueryString a' s = Throw code')).
    { destruct (newQueryString a s) as [q|code] eqn:Hq.
      - destruct (popup_blocked s); [right; apply T; simpl; tauto|left; reflexivity].
      - right. exists o, code. split; [reflexivity|]. split; [reflexivity|].
        right. exists a. auto. }
    unfold currentWindowOpen.
    destruct (currentAppContext s) as [this|].
    + destruct (heap s !! this) as [ctx|]; [|auto].
      destruct (windowOpen ctx s); [right; right; apply T; simpl; tauto|].
      destruct N as [N|N]; auto.
    + destruct N as [N|N]; auto.
  - unfold closeAppWindow, bind, gets.
    destruct (currentAppContext s) as [this|]; [|auto].
    rewrite AppContext_closeAppWindow_result.
    destruct (heap s !! this) as [ctx|]; [|auto].
    destruct (appWindow_ ctx); [|auto]. destruct (windowOpen ctx s); auto.
  - unfold bind, gets, handleMessageEvent.
    destruct (listening s); [|auto]. unfold bind, gets.
    destruct (currentAppContext s) as [this|]; [|auto].
    rewrite AppContext_handleMessageEvent_result.
    destruct (heap s !! this) as [ctx|]; [|auto].
    destruct (negb _); [auto|]. cbv zeta. destruct (actionMap_get _ _); auto.
  - unfold bind, gets.
    destruct (timeouts s) as [|this ts]; [auto|].
    unfold modify. rewrite pollAppWindowClosed__result. simpl.
    destruct (heap s !! this) as [ctx|]; [|auto].
    destruct (appWindow_ ctx); [|auto].
    destruct (windowOpen ctx _).
    + destruct (_ || _); auto.
    + destruct (onFinish_ ctx), (onCancel_ ctx), (receivedAppOutcome_ ctx); auto.
  - unfold bind, gets, handleUnloadEvent, bind, modify.
    destruct (listening s); [|auto].
    unfold closeAppWindow, bind, gets. simpl.
    destruct (currentAppContext s) as [this|]; [|auto].
    rewrite AppContext_closeAppWindow_result. simpl.
    destruct (heap s !! this) as [ctx|]; [|auto].
    destruct (appWindow_ ctx); [|auto]. destruct (windowOpen ctx _); auto.
Qed.

(** X10: on every reachable page the entry points meet no dangling
    reference.  closeAppWindow and the unload handler return normally, and
    what openAppWindow throws is one of its six error codes or the error
    thrown while the URL of the new window is built from the validated
    options.  (The message handler and the closure poll run integrator
    callbacks and are left out.) *)
Theorem X10_errors_thrown (s : State) (e : Event) :
  reachable s -> runsCallback e = false ->
  fst (step e s) = Normal tt
  \/ exists o code, e = CallOpenAppWindow o
       /\ fst (step e s) = Throw code
       /\ (In code errorCodes
           \/ exists a, AppOptions_new o = Normal a
                        /\ newQueryString a s = Throw code).
Proof.
  intros R _. apply reachable_sound in R as [W _].
  destruct (step_completion e s) as [H|[H|H]]; auto.
  destruct (wellFormed_no_TypeError e s W H) as (o & a & -> & Ha & Hq).
  right. exists o, "TypeError". split; [reflexivity|]. split; [exact H|].
  right. exists a. auto.
Qed.

Lemma X10_errors_thrown_witness :
  fst (step CallCloseAppWindow sampleSession) = Normal tt
  /\ fst (step Unload (run [WindowCloses 0] sampleSession)) = Normal tt
  /\ fst (step (CallOpenAppWindow unconvertibleOptions)
           (run [WindowCloses 0] sampleSession)) = Throw "TypeError".
Proof.
  split; [|split].
  - destruct (X10_errors_thrown sampleSession CallCloseAppWindow
                reachable_sampleSession eq_refl)
      as [H|(o & code & He & _)]; [exact H|discriminate He].
  - destruct (X10_errors_thrown (run [WindowCloses 0] sampleSession) Unload
                (reachable_run _ _ reachable_sampleSession) eq_refl)
      as [H|(o & code & He & _)]; [exact H|discriminate He].
  - destruct (X10_errors_thrown (run [WindowCloses 0] sampleSession)
                (CallOpenAppWindow unconvertibleOptions)
                (reachable_run _ _ reachable_sampleSession) eq_refl)
      as [H|(o & code & He & H & _)]; [discriminate H|].
    reflexivity.
Defined.

Lemma effect_current (s s' : State) (e : Event) :
  effect s e s' ->
  currentAppContext s' = currentAppContext s
  \/ (exists o, e = CallOpenAppWindow o /\ fst (openAppWindow o s) = Normal tt)
     /\ currentAppContext s' = Some (length (heap s)).
Proof.
  intros E.
  destruct E as [e _|o a Ha Hw Hbuilds Hb| | | | | | | | | |]; try (left; reflexivity).
  - right. split; [|reflexivity]. exists o. split; [reflexivity|].
    rewrite openAppWindow_cases, Ha, Hw, Hb.
    destruct (newQueryString a s); [|discriminate Hbuilds].
    destruct o; try reflexivity;
      rewrite AppOptions_new_cases in Ha; discriminate Ha.
  - left. unfold routed. destruct (isOutcome _), (actionMap_get _ _); reflexivity.
Qed.

(** X11: the singleton is replaced only by a call of openAppWindow that
    returns normally, and then by a new session object; no other event,
    closing the window and unloading the page included, changes or clears
    it. *)
Theorem X11_singleton_changes_on_open (e : Event) (s : State) :
  currentAppContext (exec e s) <> currentAppContext s ->
  (exists o, e = CallOpenAppWindow o /\ fst (openAppWindow o s) = Normal tt)
  /\ currentAppContext (exec e s) = Some (length (heap s))
  /\ heap s !! length (heap s) = None.
Proof.
  intros H. destruct (effect_current s _ e (exec_effect e s)) as [E|[E1 E2]].
  - contradiction.
  - split; [exact E1|]. split; [exact E2|]. apply lookup_ge_None_2. lia.
Qed.

Lemma X11_singleton_changes_on_open_witness :
  currentAppContext (exec (CallOpenAppWindow sampleOptions) samplePage) = Some 0.
Proof.
  apply (X11_singleton_changes_on_open (CallOpenAppWindow sampleOptions) samplePage).
  discriminate.
Defined.

Lemma heap_length_exec (e : Event) (s : State) :
  length (heap s) <= length (heap (exec e s)).
Proof.
  destruct (heap_exec e s) as [->|[[a ->]|[that [_ ->]]]].
  - lia.
  - rewrite length_app. lia.
  - rewrite length_alter. lia.
Qed.

(** The current session only moves forward in the store. *)
Lemma stale_exec (this cur : nat) (e : Event) (s : State) :
  wellFormed s -> currentAppContext s = Some cur -> this < cur ->
  (exists cur', currentAppContext (exec e s) = Some cur' /\ this < cur')
  /\ routesOutcome this e s = false.
Proof.
  intros W Hc Hlt. split.
  - destruct (effect_current s _ e (exec_effect e s)) as [E|[_ E]].
    + exists cur. rewrite E. auto.
    + exists (length (heap s)). split; [exact E|].
      pose proof (wf_current s W cur Hc). lia.
  - destruct e; try reflexivity. simpl. rewrite Hc.
    rewrite bool_decide_eq_false_2; [|intros [= ->]; lia].
    rewrite andb_false_r. reflexivity.
Qed.

(** X12: a session that is no longer the current one receives no message
    any more: on a well-formed page, the outcome flag of a session object
    older than the current one keeps its value over every sequence of
    events. *)
Theorem X12_replaced_session_hears_nothing (s : State) (this cur : nat)
    (es : list Event) :
  wellFormed s -> currentAppContext s = Some cur -> this < cur ->
  outcomeReceived this (run es s) = outcomeReceived this s.
Proof.
  revert s cur; induction es as [|e es IH]; intros s cur W Hc Hlt; [reflexivity|].
  destruct (stale_exec this cur e s W Hc Hlt) as [(cur' & Hc' & Hlt') Hr].
  unfold run in *; simpl.
  rewrite (IH _ cur' (wellFormed_exec e s W) Hc' Hlt').
  rewrite outcomeReceived_exec, Hr. apply orb_false_r.
Qed.

Lemma X12_replaced_session_hears_nothing_witness :
  let s := run [WindowCloses 0; CallOpenAppWindow sampleOptions] sampleSession in
  outcomeReceived 0
    (run [MessageArrives (sampleMessage "success" FIXED_APP_WINDOW_ID_1
                            TEST_GOOGLE_PAY_ORIGIN)] s)
  = false.
Proof.
  intros s.
  rewrite (X12_replaced_session_hears_nothing s 0 1); [reflexivity| |reflexivity|lia].
  apply wellFormed_run. unfold sampleSession. apply wellFormed_run, wellFormed_initial.
Defined.

(* ===================================================================== *)
(** ** Closing and unloading *)
(* ===================================================================== *)

Lemma currentWindowOpen_closed (s : State) :
  wellFormed s ->
  (forall this ctx, currentAppContext s = Some this ->
     heap s !! this = Some ctx -> windowOpen ctx s = false) ->
  currentWindowOpen s = Normal false.
Proof.
  intros W H. unfold currentWindowOpen.
  destruct (currentAppContext s) as [this|] eqn:Hc; [|reflexivity].
  pose proof (wf_current s W this Hc) as Hlt.
  apply lookup_lt_is_Some_2 in Hlt as [ctx Hctx].
  rewrite Hctx, (H this ctx eq_refl Hctx). reflexivity.
Qed.

Lemma closeAppWindow_closes (s : State) :
  wellFormed s ->
  currentWindowOpen (snd (closeAppWindow s)) = Normal false
  /\ wellFormed (snd (closeAppWindow s))
  /\ heap (snd (closeAppWindow s)) = heap s
  /\ currentAppContext (snd (closeAppWindow s)) = currentAppContext s
  /\ timeouts (snd (closeAppWindow s)) = timeouts s
  /\ calls (snd (closeAppWindow s)) = calls s
  /\ popup_blocked (snd (closeAppWindow s)) = popup_blocked s
  /\ listening (snd (closeAppWindow s)) = listening s.
Proof.
  intros W.
  destruct (closeAppWindow_effect s)
    as [[-> Hn]|(this & w & ctx & H1 & H2 & H3 & H4 & ->)].
  - split; [apply currentWindowOpen_closed; assumption|].
    split; [exact W|]. repeat (split; [reflexivity|]). reflexivity.
  - split.
    + unfold currentWindowOpen; simpl. rewrite H1, H2.
      rewrite (closing_window this w ctx s H2 H3). reflexivity.
    + split; [apply wellFormed_close, W|].
      repeat (split; [reflexivity|]). reflexivity.
Qed.

(** X13: on a well-formed page closeAppWindow returns normally; afterwards
    no session has its window open, while the session objects, the
    singleton, the pending polls and the calls made are as before; a
    second call changes nothing; and with no window open the call changes
    nothing at all. *)
Theorem X13_closeAppWindow (s : State) :
  wellFormed s ->
  let s' := snd (closeAppWindow s) in
  fst (closeAppWindow s) = Normal tt
  /\ currentWindowOpen s' = Normal false
  /\ heap s' = heap s /\ currentAppContext s' = currentAppContext s
  /\ timeouts s' = timeouts s /\ calls s' = calls s
  /\ closeAppWindow s' = (Normal tt, s')
  /\ (currentWindowOpen s = Normal false -> s' = s).
Proof.
  intros W s'.
  assert (Hfst : forall t, wellFormed t -> fst (closeAppWindow t) = Normal tt).
  { intros t Wt.
    destruct (step_completion CallCloseAppWindow t) as [H|[H|(o & c & H & _)]].
    - exact H.
    - destruct (wellFormed_no_TypeError CallCloseAppWindow t Wt H)
        as (o & a & He & _).
      discriminate He.
    - discriminate H. }
  assert (Hid : forall t, wellFormed t -> currentWindowOpen t = Normal false ->
                snd (closeAppWindow t) = t).
  { intros t Wt Ht.
    destruct (closeAppWindow_effect t)
      as [[E _]|(this & w & ctx & H1 & H2 & H3 & H4 & _)]; [exact E|].
    unfold currentWindowOpen in Ht. rewrite H1, H2, H4 in Ht. discriminate. }
  destruct (closeAppWindow_closes s W) as (C1 & W' & C2 & C3 & C4 & C5 & _).
  fold s' in C1, W', C2, C3, C4, C5.
  split; [apply Hfst, W|]. split; [exact C1|]. split; [exact C2|].
  split; [exact C3|]. split; [exact C4|]. split; [exact C5|]. split.
  - rewrite (surjective_pairing (closeAppWindow s')).
    rewrite (Hfst s' W'), (Hid s' W' C1). reflexivity.
  - intros H. apply Hid; assumption.
Qed.

Lemma X13_closeAppWindow_witness :
  currentWindowOpen (snd (closeAppWindow sampleSession)) = Normal false
  /\ currentAppContext (snd (closeAppWindow sampleSession)) = Some 0.
Proof.
  assert (W : wellFormed sampleSession).
  { unfold sampleSession. apply wellFormed_run, wellFormed_initial. }
  destruct (X13_closeAppWindow sampleSession W) as (_ & H1 & _ & H2 & _).
  split; [exact H1|]. rewrite H2. reflexivity.
Defined.

(** X14: closeAppWindow always makes room for a new session: on a
    well-formed page where popups are not blocked, a call of openAppWindow
    right after closeAppWindow, with a valid configuration object from
    which the URL of the new window can be built, returns normally. *)
Theorem X14_close_then_open (s : State) (props : list (string * JSValue))
    (a : AppOptions) :
  wellFormed s -> popup_blocked s = false ->
  AppOptions_new (VObject props) = Normal a ->
  builds (newQueryString a s) = true ->
  fst (openAppWindow (VObject props) (snd (closeAppWindow s))) = Normal tt.
Proof.
  intros W Hb Ha Hq.
  destruct (closeAppWindow_closes s W) as (C1 & _ & _ & _ & _ & _ & C6 & _).
  rewrite openAppWindow_cases, Ha, C1, C6, Hb.
  rewrite (frame_closeAppWindow (newQueryString a)) by reflexivity.
  destruct (newQueryString a s); [reflexivity|discriminate Hq].
Qed.

Lemma X14_close_then_open_witness :
  fst (openAppWindow sampleOptions (snd (closeAppWindow sampleSession))) = Normal tt
  /\ fst (openAppWindow sampleOptions sampleSession) = Throw "E410".
Proof.
  split; [|reflexivity].
  eapply (X14_close_then_open sampleSession sampleFields).
  - unfold sampleSession. apply wellFormed_run, wellFormed_initial.
  - reflexivity.
  - reflexivity.
  - reflexivity.
Defined.

Lemma effect_listening (s s' : State) (e : Event) :
  effect s e s' -> listening s = false -> listening s' = false.
Proof.
  intros E H. destruct E; simpl; try assumption; try congruence.
  all: unfold routed; destruct (isOutcome _), (actionMap_get _ _); exact H.
Qed.

Lemma listening_run (es : list Event) (s : State) :
  listening s = false -> listening (run es s) = false.
Proof.
  revert s; induction es as [|e es IH]; intros s H; [exact H|].
  apply IH. apply (effect_listening s _ e (exec_effect e s) H).
Qed.

(** X15: unloading ends the library's part in the page.  On a well-formed
    page whose listeners are registered, after the unload handler no
    window is open and the listeners are gone for good: after every
    further sequence of events a message changes nothing, and neither does
    a second unload. *)
Theorem X15_unload_is_final (s : State) (es : list Event) :
  wellFormed s -> listening s = true ->
  let s' := exec Unload s in
  listening s' = false
  /\ currentWindowOpen s' = Normal false
  /\ (forall event, exec (MessageArrives event) (run es s') = run es s')
  /\ exec Unload (run es s') = run es s'.
Proof.
  intros W Hl s'.
  assert (E : s' = snd (closeAppWindow (set_listening false s))).
  { unfold s', exec; simpl. unfold bind, gets, handleUnloadEvent, bind, modify.
    rewrite Hl. reflexivity. }
  assert (W0 : wellFormed (set_listening false s)).
  { apply (wellFormed_frame s); try reflexivity; [apply (wf_timeouts s W)|exact W]. }
  destruct (closeAppWindow_closes _ W0) as (C1 & _ & _ & _ & _ & _ & _ & C7).
  rewrite <- E in C1, C7. simpl in C7.
  split; [exact C7|]. split; [exact C1|].
  pose proof (listening_run es s' C7) as L.
  split.
  - intros event. unfold exec; simpl. unfold bind, gets. rewrite L. reflexivity.
  - unfold exec; simpl. unfold bind, gets. rewrite L. reflexivity.
Qed.

Lemma X15_unload_is_final_witness :
  let s' := exec Unload sampleSession in
  exec (MessageArrives (sampleMessage "success" FIXED_APP_WINDOW_ID_1
                          TEST_GOOGLE_PAY_ORIGIN))
    (run [CallOpenAppWindow sampleOptions] s')
  = run [CallOpenAppWindow sampleOptions] s'.
Proof.
  intros s'.
  refine (proj1 (proj2 (proj2 (X15_unload_is_final sampleSession
            [CallOpenAppWindow sampleOptions] _ eq_refl))) _).
  unfold sampleSession. apply wellFormed_run, wellFormed_initial.
Defined.

(** X16: session objects are never discarded, and every field of a session
    object but the outcome flag keeps its value: after every sequence of
    events the object is still in the store, with the same action map,
    callbacks, window identifier, origin and window. *)
Theorem X16_session_fields_constant (s : State) (this : nat) (c : AppContext)
    (es : list Event) :
  heap s !! this = Some c ->
  length (heap s) <= length (heap (run es s))
  /\ exists c', heap (run es s) !! this = Some c' /\ sameSession c c'.
Proof.
  intros H. split; [|apply session_run, H].
  clear H. revert s; induction es as [|e es IH]; intros s; [reflexivity|].
  unfold run in *; simpl. specialize (IH (exec e s)).
  pose proof (heap_length_exec e s). lia.
Qed.

Lemma X16_session_fields_constant_witness :
  exists c',
    heap (run [MessageArrives (sampleMessage "success" FIXED_APP_WINDOW_ID_1
                                 TEST_GOOGLE_PAY_ORIGIN);
               WindowCloses 0; CallOpenAppWindow sampleOptions] sampleSession) !! 0
    = Some c'
    /\ onFinish_ c' = Some (sampleCallback 3).
Proof.
  destruct (X16_session_fields_constant sampleSession 0 _
              [MessageArrives (sampleMessage "success" FIXED_APP_WINDOW_ID_1
                                 TEST_GOOGLE_PAY_ORIGIN);
               WindowCloses 0; CallOpenAppWindow sampleOptions] eq_refl)
    as (_ & c' & Hc & _ & Hf & _).
  exists c'. split; [exact Hc|exact Hf].
Defined.

(* ===================================================================== *)
(** ** The URL of the application window *)
(* ===================================================================== *)

Lemma isSent_typeof (v : JSValue) :
  negb (String.eqb (typeof v) "undefined") && negb (strict_eq_string v "")
  && negb (is_null v) = isSent v.
Proof. destruct v; reflexivity. Qed.

Lemma processUrlParam_isSent (k : string) (v : JSValue) (m : Map string) :
  processUrlParam k v m
  = if isSent v
    then (let! x := encoded v in Normal (Map_set k x m))%completion
    else Normal m.
Proof.
  unfold processUrlParam, encoded, cbind. rewrite isSent_typeof.
  destruct (isSent v); [|reflexivity].
  destruct (toString v); reflexivity.
Qed.


Lemma appUrlParamMap_closed_form (pageOrigin : string) (a : AppOptions)
    (appWindowFeatures : string) :
  appUrlParamMap pageOrigin a appWindowFeatures
  = (let! sent := sentParams (optionalParams a appWindowFeatures) in
     Normal ((UrlParamKey.API_VERSION, API_VERSION)
             :: (UrlParamKey.ORIGIN, encodeURIComponent pageOrigin)
             :: sent))%completion.
Proof.
  unfold appUrlParamMap, sentParams, optionalParams, cbind.
  url_param processUrlParam_isSent (integratorId a);
  url_param processUrlParam_isSent (tokenSetting a);
  url_param processUrlParam_isSent (cardSetting a);
  url_param processUrlParam_isSent (clientSessionId a);
  url_param processUrlParam_isSent (hl a);
  url_param processUrlParam_isSent (VString appWindowFeatures);
  reflexivity.
Qed.



Lemma uri_safe_encoded_char (c : ascii) :
  uri_unreserved c = false ->
  (uri_unreserved (hex_digit (N_of_ascii c / 16))
   && uri_unreserved (hex_digit (N_of_ascii c mod 16)))%bool = true.
Proof.
  destruct c as [[] [] [] [] [] [] [] []]; vm_compute; intros H;
    first [reflexivity|discriminate H].
Qed.

Lemma encodeURIComponent_uriSafe (str : string) :
  uriSafe (encodeURIComponent str) = true.
Proof.
  unfold uriSafe. induction str as [|c str IH]; [reflexivity|].
  simpl. destruct (uri_unreserved c) eqn:Hc.
  - simpl. rewrite Hc. exact IH.
  - pose proof (uri_safe_encoded_char c Hc) as H.
    apply andb_prop in H as [H1 H2].
    cbn [list_ascii_of_string forallb]. rewrite H1, H2, IH. reflexivity.
Qed.

Lemma uriSafe_chars (str : string) (c : ascii) :
  uriSafe str = true -> In c (list_ascii_of_string str) ->
  uri_unreserved c || Ascii.eqb c "%" = true.
Proof.
  unfold uriSafe. intros H Hin.
  rewrite forallb_forall in H. apply H, Hin.
Qed.

Lemma encodeURIComponent_value_uriSafe (v : JSValue) (x : string) :
  encodeURIComponent_value v = Normal x -> uriSafe x = true.
Proof.
  unfold encodeURIComponent_value, cbind.
  destruct (ToPrimitive v) as [[| |b|y|str|units|f|props]|]; try discriminate;
    intros [= <-];
    first [apply encodeURIComponent_uriSafe|reflexivity|destruct b; reflexivity].
Qed.

Lemma encoded_uriSafe (v : JSValue) (x : string) :
  encoded v = Normal x -> uriSafe x = true.
Proof.
  unfold encoded, cbind. destruct (toString v) as [str|]; [|discriminate].
  apply encodeURIComponent_value_uriSafe.
Qed.

Lemma sentParams_uriSafe (l : list (string * JSValue)) (m : Map string)
    (k v : string) :
  sentParams l = Normal m -> In (k, v) m -> uriSafe v = true.
Proof.
  revert m; induction l as [|[k' v'] l IH]; simpl; intros m.
  - intros [= <-] [].
  - destruct (isSent v'); [|apply IH]. unfold cbind.
    destruct (encoded v') as [x|] eqn:Hx; [|discriminate].
    destruct (sentParams l) as [m'|]; [|discriminate].
    intros [= <-] [[= _ <-]|Hin].
    + exact (encoded_uriSafe _ _ Hx).
    + exact (IH m' eq_refl Hin).
Qed.

(** X18: every value in the URL parameters of a session is made only of
    the characters A-Z a-z 0-9 - _ . ! ~ * ' ( ) and %: whatever the
    integrator passes, a value contains no ampersand, equals sign, hash,
    question mark, slash, plus sign or space, so it cannot add or change a
    parameter of the query string. *)
Theorem X18_url_values_are_safe (pageOrigin : string) (a : AppOptions)
    (appWindowFeatures : string) (urlParamMap : Map string) (k v : string) :
  appUrlParamMap pageOrigin a appWindowFeatures = Normal urlParamMap ->
  In (k, v) urlParamMap ->
  uriSafe v = true
  /\ forall c, In c (list_ascii_of_string "&=#?/+ ") ->
               ~ In c (list_ascii_of_string v).
Proof.
  intros Hm H. rewrite appUrlParamMap_closed_form in Hm. unfold cbind in Hm.
  destruct (sentParams _) as [sent|] eqn:Hs; [|discriminate].
  injection Hm as <-.
  assert (S : uriSafe v = true).
  { destruct H as [[= _ <-]|[[= _ <-]|H]].
    - reflexivity.
    - apply encodeURIComponent_uriSafe.
    - apply (sentParams_uriSafe _ _ k v Hs H). }
  split; [exact S|].
  intros c Hc Hin. pose proof (uriSafe_chars v c S Hin) as Hs'.
  simpl in Hc.
  destruct Hc as [<-|[<-|[<-|[<-|[<-|[<-|[<-|[]]]]]]]]; discriminate Hs'.
Qed.

Lemma X18_url_values_are_safe_witness :
  uriSafe (encodeURIComponent "a&b=c#d") = true
  /\ ~ In "&"%char (list_ascii_of_string (encodeURIComponent "a&b=c#d")).
Proof.
  pose (a := mkAppOptions None None None None None None None None
               (VString "a&b=c#d") VUndefined VUndefined VUndefined
               VUndefined VUndefined).
  destruct (X18_url_values_are_safe "" a "" _ UrlParamKey.INTEGRATOR_ID
              (encodeURIComponent "a&b=c#d") eq_refl) as [H1 H2].
  - vm_compute. right; right; left. reflexivity.
  - split; [exact H1|]. apply H2. left; reflexivity.
Defined.

(* ===================================================================== *)
(** ** What a session is opened with, and what the router calls *)
(* ===================================================================== *)

Lemma prefix_append (p str : string) : String.prefix p (p +:+ str) = true.
Proof.
  induction p as [|c p IH]; simpl; [destruct str; reflexivity|].
  destruct (ascii_dec c c) as [_|H]; [exact IH|contradiction].
Qed.

Lemma AppOptions_new_isTestEnvironment (o : JSValue) (a : AppOptions) :
  AppOptions_new o = Normal a ->
  isTestEnvironment a = get o AppOptionKey.IS_TEST_ENVIRONMENT
  /\ onFinish a = asCallback (get o AppOptionKey.ON_FINISH)
  /\ onCancel a = asCallback (get o AppOptionKey.ON_CANCEL).
Proof.
  rewrite AppOptions_new_cases.
  destruct (negb _); [discriminate|].
  destruct (negb _); [discriminate|].
  destruct (negb _); [discriminate|].
  intros [= <-]. repeat split.
Qed.

(** X19: a call of openAppWindow that returns normally has opened exactly
    one window, which is open, is named by the session's window identifier
    and was given the session's features string; its URL starts with the
    session's origin followed by the fixed path.  The origin is the
    sandbox origin when isTestEnvironment is truthy and the production
    origin when it is falsy or absent. *)
Theorem X19_window_of_a_session (o : JSValue) (s s' : State) :
  openAppWindow o s = (Normal tt, s') ->
  exists this ctx p a,
    AppOptions_new o = Normal a
    /\ currentAppContext s' = Some this /\ heap s' !! this = Some ctx
    /\ popups s' = (popups s ++ [p])%list
    /\ appWindow_ ctx = Some (length (popups s))
    /\ closed p = false
    /\ popup_name p = appWindowId_ ctx
    /\ popup_features p = getAppWindowFeatures_ a
    /\ (exists appQueryString,
          getAppQueryString_ (getCurrentPageOrigin s) a (getAppWindowFeatures_ a)
          = Normal appQueryString
          /\ popup_url p = appOrigin_ ctx +:+ APP_URL_PATH +:+ appQueryString)
    /\ String.prefix (appOrigin_ ctx +:+ APP_URL_PATH) (popup_url p) = true
    /\ appOrigin_ ctx
       = (if truthy (get o AppOptionKey.IS_TEST_ENVIRONMENT)
          then TEST_GOOGLE_PAY_ORIGIN else PROD_GOOGLE_PAY_ORIGIN).
Proof.
  intros H. apply openAppWindow_Normal in H as (a & Ha & _ & Hq & _ & ->).
  exists (length (heap s)), (newContext a s), (newPopup a s), a.
  destruct (AppOptions_new_isTestEnvironment o a Ha) as [Ht _].
  unfold newQueryString in Hq.
  destruct (getAppQueryString_ _ _ _) as [q|] eqn:Eq; [clear Hq|discriminate Hq].
  split; [exact Ha|]. split; [reflexivity|].
  split; [simpl; apply list_lookup_middle; reflexivity|].
  split; [reflexivity|]. split; [reflexivity|]. split; [reflexivity|].
  split; [reflexivity|]. split; [reflexivity|].
  split.
  { exists q. split; [reflexivity|]. simpl. unfold newQueryString.
    rewrite Eq. reflexivity. }
  split.
  - simpl. unfold newAppOrigin, newQueryString. rewrite Eq. cbn [built].
    rewrite <- (prefix_append
                  ((if truthy (isTestEnvironment a)
                    then TEST_GOOGLE_PAY_ORIGIN else PROD_GOOGLE_PAY_ORIGIN)
                   +:+ APP_URL_PATH) q).
    f_equal. destruct (truthy (isTestEnvironment a)); reflexivity.
  - simpl. unfold newAppOrigin. rewrite Ht. reflexivity.
Qed.

Lemma X19_window_of_a_session_witness :
  exists p,
    popups sampleSession = [p]
    /\ popup_name p = FIXED_APP_WINDOW_ID_1
    /\ String.prefix "https://pay.sandbox.google.com/gp/v/a/pushprovisioning/frame"
         (popup_url p) = true.
Proof.
  destruct (X19_window_of_a_session sampleOptions samplePage sampleSession eq_refl)
    as (this & ctx & p & a & Ha & Hc & Hctx & Hp & _ & _ & Hn & _ & _ & Hpre & Ho).
  injection Hc as <-. injection Hctx as <-.
  exists p. split; [exact Hp|]. split; [exact Hn|]. exact Hpre.
Defined.

Lemma actionMap_get_makeActionMap_ (a : AppOptions) (action : JSValue) :
  (forall name f, In (name, f) (actionCallbacks a) -> action = VString name ->
     actionMap_get action (makeActionMap_ a) = f)
  /\ ((forall name f, In (name, f) (actionCallbacks a) -> action <> VString name) ->
      actionMap_get action (makeActionMap_ a) = None
      /\ isOutcome action = false).
Proof.
  split.
  - intros name f Hin ->. simpl in Hin.
    destruct Hin as [[= <- <-]|[[= <- <-]|[[= <- <-]|[[= <- <-]|[]]]]]; reflexivity.
  - intros H. destruct action as [| |b|x|str|units|f|props]; try (split; reflexivity).
    assert (H1 : String.eqb Action.SESSION_CREATED str = false).
    { apply String.eqb_neq. intros <-. eapply H; [left; reflexivity|reflexivity]. }
    assert (H2 : String.eqb Action.READY str = false).
    { apply String.eqb_neq. intros <-.
      eapply H; [right; left; reflexivity|reflexivity]. }
    assert (H3 : String.eqb Action.SUCCESS str = false).
    { apply String.eqb_neq. intros <-.
      eapply H; [right; right; left; reflexivity|reflexivity]. }
    assert (H4 : String.eqb Action.FAILURE str = false).
    { apply String.eqb_neq. intros <-.
      eapply H; [right; right; right; left; reflexivity|reflexivity]. }
    split.
    + change (makeActionMap_ a) with (actionCallbacks a).
      unfold actionMap_get, Map_get, actionCallbacks. cbn [assoc].
      rewrite H1, H2, H3, H4. reflexivity.
    + unfold isOutcome, strict_eq_string.
      rewrite (String.eqb_sym str), H3, (String.eqb_sym str), H4. reflexivity.
Qed.

(** X20: the router's dispatch.  For a session opened with options [a] and
    a message the router accepts: if the action is 'sessionCreated',
    'ready', 'success' or 'failure', the callback registered for it, if
    any, is called once with the message's payload, after the outcome flag
    has been set for 'success' and 'failure', and nothing but the flag and
    the call log changes; if the action is anything else, the message is
    dropped and the page is left as it was.  In no case is onFinish or
    onCancel called by the router. *)
Theorem X20_router_dispatch (this : nat) (ctx : AppContext) (a : AppOptions)
    (event : MessageEvent) (s : State) :
  heap s !! this = Some ctx -> actionMap_ ctx = makeActionMap_ a ->
  accepts ctx event s = true ->
  let s' := snd (AppContext_handleMessageEvent this event s) in
  (forall name f, In (name, f) (actionCallbacks a) ->
     actionOf event = VString name ->
     calls s'
     = (calls s
        ++ match f with
           | Some g =>
               [mkInvocation g (payloadOf event) this
                  (isOutcome (VString name) || receivedAppOutcome_ ctx)]
           | None => []
           end)%list
     /\ outcomeReceived this s'
        = isOutcome (VString name) || receivedAppOutcome_ ctx
     /\ timeouts s' = timeouts s /\ popups s' = popups s
     /\ currentAppContext s' = currentAppContext s)
  /\ ((forall name f, In (name, f) (actionCallbacks a) ->
         actionOf event <> VString name) ->
      s' = s).
Proof.
  intros Hctx Hmap Hacc s'.
  assert (E : s' = routed this ctx event s).
  { unfold s'. rewrite AppContext_handleMessageEvent_result, Hctx, Hacc.
    unfold routed. simpl. destruct (actionMap_get _ _); reflexivity. }
  rewrite E. unfold routed. rewrite Hmap.
  destruct (actionMap_get_makeActionMap_ a (actionOf event)) as [Hknown Hunknown].
  split.
  - intros name f Hin Hname. rewrite (Hknown name f Hin Hname), Hname.
    assert (Hflag : outcomeReceived this
                      (if isOutcome (VString name) then markOutcome this s else s)
                    = isOutcome (VString name) || receivedAppOutcome_ ctx).
    { destruct (isOutcome (VString name)); unfold outcomeReceived; simpl.
      - rewrite list_lookup_alter_eq, Hctx. reflexivity.
      - rewrite Hctx. reflexivity. }
    destruct f as [g|].
    + rewrite Hflag. unfold outcomeReceived in *.
      destruct (isOutcome (VString name)); simpl in *;
        rewrite ?list_lookup_alter_eq, ?Hctx; repeat split.
    + rewrite Hflag. rewrite app_nil_r.
      destruct (isOutcome (VString name)); repeat split.
  - intros H. destruct (Hunknown H) as [-> ->]. reflexivity.
Qed.

Lemma X20_router_dispatch_witness :
  let success := sampleMessage "success" FIXED_APP_WINDOW_ID_1 TEST_GOOGLE_PAY_ORIGIN in
  let finish := sampleMessage "onFinish" FIXED_APP_WINDOW_ID_1 TEST_GOOGLE_PAY_ORIGIN in
  calls (snd (AppContext_handleMessageEvent 0 success sampleSession))
  = [mkInvocation (sampleCallback 2) (payloadOf success) 0 true]
  /\ snd (AppContext_handleMessageEvent 0 finish sampleSession) = sampleSession.
Proof.
  intros success finish. split.
  - exact (proj1 (proj1 (X20_router_dispatch 0 _ (sampleAppOptions None None)
                           success sampleSession eq_refl eq_refl eq_refl)
                    Action.SUCCESS (Some (sampleCallback 2))
                    (or_intror (or_intror (or_introl eq_refl))) eq_refl)).
  - apply (proj2 (X20_router_dispatch 0 _ (sampleAppOptions None None)
                    finish sampleSession eq_refl eq_refl eq_refl)).
    intros name f Hin. simpl in Hin.
    destruct Hin as [[= <- _]|[[= <- _]|[[= <- _]|[[= <- _]|[]]]]]; discriminate.
Defined.

(* ===================================================================== *)
(** ** The host application *)
(* ===================================================================== *)

Lemma UtilsService_appOptions_valid :
  AppOptions_new UtilsService_appOptions = Normal UtilsService_validated.
Proof. reflexivity. Qed.

Lemma UtilsService_popup (s : State) :
  newPopup UtilsService_validated s
  = mkPopup (UtilsService_url (getCurrentPageOrigin s)) (newAppWindowId s) "" false.
Proof.
  unfold newPopup, UtilsService_url. f_equal.
Qed.

(** X21: the button of the host page.  While a session's window is open,
    AppComponent.link throws E410 and changes nothing; with no window open
    and popups blocked it throws E411 and changes nothing; otherwise it
    returns normally, having opened one window, without a features string,
    at the sandbox URL with the parameters apiVersion, origin,
    integratorId=CAPITALONE_1, tokenSetting=1, cardSetting=1 and hl=en-US,
    and having made a new session the current one, for which no closure
    poll is started. *)
Theorem X21_link (s : State) :
  (currentWindowOpen s = Normal true ->
   AppComponent_link s = (Throw ErrorCode.APP_WINDOW_ALREADY_OPEN, s))
  /\ (currentWindowOpen s = Normal false -> popup_blocked s = true ->
      AppComponent_link s = (Throw ErrorCode.APP_WINDOW_NOT_OPENED, s))
  /\ (currentWindowOpen s = Normal false -> popup_blocked s = false ->
      exists s',
        AppComponent_link s = (Normal tt, s')
        /\ popups s'
           = (popups s
              ++ [mkPopup (UtilsService_url (getCurrentPageOrigin s))
                    (newAppWindowId s) "" false])%list
        /\ currentAppContext s' = Some (length (heap s))
        /\ heap s' = (heap s ++ [newContext UtilsService_validated s])%list
        /\ timeouts s' = timeouts s /\ calls s' = calls s).
Proof.
  assert (E : AppComponent_link s = openAppWindow UtilsService_appOptions s).
  { reflexivity. }
  rewrite E, openAppWindow_cases, UtilsService_appOptions_valid.
  change (negb (String.eqb (typeof UtilsService_appOptions) "object")
          || is_null UtilsService_appOptions) with false. cbv iota.
  split; [intros ->; reflexivity|]. split; [intros -> ->; reflexivity|].
  intros -> ->. eexists. split; [reflexivity|]. simpl.
  rewrite UtilsService_popup, app_nil_r. repeat split.
Qed.

Lemma X21_link_witness :
  AppComponent_link (snd (AppComponent_link samplePage))
  = (Throw "E410", snd (AppComponent_link samplePage))
  /\ AppComponent_link blockedPage = (Throw "E411", blockedPage)
  /\ fst (AppComponent_link samplePage) = Normal tt.
Proof.
  split; [|split].
  - apply (proj1 (X21_link (snd (AppComponent_link samplePage)))). reflexivity.
  - apply (proj1 (proj2 (X21_link blockedPage))); reflexivity.
  - destruct (proj2 (proj2 (X21_link samplePage)) eq_refl eq_refl) as (s' & H & _).
    rewrite H. reflexivity.
Defined.

(** X22: the hooks of the host page.  In the session opened by
    AppComponent.link, a message the router accepts calls the
    session-created hook with the payload when its action is
    'sessionCreated' and the ready hook when it is 'ready'; a 'success' or
    'failure' message calls nothing, and neither does any other action. *)
Theorem X22_hooks (s s1 : State) (event : MessageEvent) :
  AppComponent_link s = (Normal tt, s1) ->
  exists this ctx,
    currentAppContext s1 = Some this /\ heap s1 !! this = Some ctx
    /\ appOrigin_ ctx = TEST_GOOGLE_PAY_ORIGIN
    /\ (accepts ctx event s1 = true ->
        let s2 := snd (AppContext_handleMessageEvent this event s1) in
        (actionOf event = VString Action.SESSION_CREATED ->
         calls s2
         = (calls s1 ++ [mkInvocation UtilsService_onSessionCreated
                           (payloadOf event) this false])%list)
        /\ (actionOf event = VString Action.READY ->
            calls s2
            = (calls s1 ++ [mkInvocation UtilsService_onReady
                              (payloadOf event) this false])%list)
        /\ (actionOf event <> VString Action.SESSION_CREATED ->
            actionOf event <> VString Action.READY ->
            calls s2 = calls s1)).
Proof.
  intros H. change (openAppWindow UtilsService_appOptions s = (Normal tt, s1)) in H.
  apply openAppWindow_Normal in H as (a & Ha & _ & _ & _ & ->).
  rewrite UtilsService_appOptions_valid in Ha. injection Ha as <-.
  exists (length (heap s)), (newContext UtilsService_validated s).
  split; [reflexivity|].
  assert (Hctx : heap (set_currentAppContext (Some (length (heap s)))
                         (afterOpen UtilsService_validated s)) !! length (heap s)
                 = Some (newContext UtilsService_validated s)).
  { simpl. apply list_lookup_middle. reflexivity. }
  split; [exact Hctx|]. split; [reflexivity|].
  intros Hacc. cbv zeta.
  rewrite AppContext_handleMessageEvent_result, Hctx, Hacc. cbn [negb]. cbv zeta.
  change (actionMap_ (newContext UtilsService_validated s))
    with (makeActionMap_ UtilsService_validated).
  destruct (actionMap_get_makeActionMap_ UtilsService_validated (actionOf event))
    as [Hknown Hunknown].
  assert (Hfalse : outcomeReceived (length (heap s))
                     (set_currentAppContext (Some (length (heap s)))
                        (afterOpen UtilsService_validated s)) = false).
  { unfold outcomeReceived. rewrite Hctx. reflexivity. }
  split; [|split].
  - intros Hact.
    rewrite (Hknown Action.SESSION_CREATED (Some UtilsService_onSessionCreated))
      by (simpl; auto).
    rewrite Hact. change (isOutcome (VString Action.SESSION_CREATED)) with false.
    cbv iota. rewrite Hfalse. reflexivity.
  - intros Hact.
    rewrite (Hknown Action.READY (Some UtilsService_onReady)) by (simpl; auto).
    rewrite Hact. change (isOutcome (VString Action.READY)) with false.
    cbv iota. rewrite Hfalse. reflexivity.
  - intros Hn1 Hn2.
    destruct (actionOf event) as [| |b|x|str|units|f|props] eqn:Hact;
      try (destruct (Hunknown ltac:(intros; discriminate)) as [-> ->]; reflexivity).
    destruct (String.eqb_spec str Action.SUCCESS) as [->|Hs].
    { rewrite (Hknown Action.SUCCESS None) by (simpl; auto). reflexivity. }
    destruct (String.eqb_spec str Action.FAILURE) as [->|Hf].
    { rewrite (Hknown Action.FAILURE None) by (simpl; auto). reflexivity. }
    destruct Hunknown as [-> ->]; [|reflexivity].
    intros name f Hin [= ->]. simpl in Hin.
    destruct Hin as [[= <- _]|[[= <- _]|[[= <- _]|[[= <- _]|[]]]]]; congruence.
Qed.

Lemma X22_hooks_witness :
  let s1 := snd (AppComponent_link samplePage) in
  let created := sampleMessage "sessionCreated" FIXED_APP_WINDOW_ID_1
                   TEST_GOOGLE_PAY_ORIGIN in
  calls (snd (AppContext_handleMessageEvent 0 created s1))
  = [mkInvocation UtilsService_onSessionCreated (payloadOf created) 0 false].
Proof.
  intros s1 created.
  destruct (X22_hooks samplePage s1 created eq_refl)
    as (this & ctx & Hc & Hctx & _ & H).
  injection Hc as <-. injection Hctx as <-.
  exact (proj1 (H eq_refl) eq_refl).
Defined.

(* ===================================================================== *)
(** ** Edge cases of the router and of the call log *)
(* ===================================================================== *)

(** X23: a message whose data is not an object (undefined, null, a
    boolean, a number, a string or a function) is ignored by the router,
    whatever its origin: the page is left as it was. *)
Theorem X23_data_must_be_object (this : nat) (event : MessageEvent) (s : State) :
  (forall props, data event <> VObject props) ->
  is_Some (heap s !! this) ->
  AppContext_handleMessageEvent this event s = (Normal tt, s).
Proof.
  intros Hd [ctx Hctx].
  rewrite AppContext_handleMessageEvent_result, Hctx.
  assert (Ha : accepts ctx event s = false).
  { unfold accepts. rewrite get_messageDataOf.
    destruct (data event) as [| |b|x|str|units|f|props]; simpl;
      try (rewrite andb_false_r; reflexivity).
    destruct (Hd props eq_refl). }
  rewrite Ha. reflexivity.
Qed.

Lemma X23_data_must_be_object_witness :
  AppContext_handleMessageEvent 0
    (mkMessageEvent (VString "success") TEST_GOOGLE_PAY_ORIGIN) sampleSession
  = (Normal tt, sampleSession)
  /\ AppContext_handleMessageEvent 0
       (mkMessageEvent VUndefined TEST_GOOGLE_PAY_ORIGIN) sampleSession
     = (Normal tt, sampleSession).
Proof.
  split; apply X23_data_must_be_object;
    first [intros props; discriminate | eexists; reflexivity].
Defined.

Lemma effect_calls (s s' : State) (e : Event) :
  effect s e s' ->
  calls s' = calls s
  \/ exists i, calls s' = (calls s ++ [i])%list
       /\ ((exists event, e = MessageArrives event)
           /\ currentAppContext s = Some (inv_this i)
           \/ e = TimeoutFires /\ head (timeouts s) = Some (inv_this i)
              /\ inv_payload i = empty_object).
Proof.
  intros E.
  destruct E as [e _|o a Ha Hw Hbuilds Hb|this w ctx Hc Hctx Haw Ho
                 |event this ctx Hl Hc Hctx Hacc
                 |this ts Ht Hd|this ts ctx Ht Hctx Hp
                 |this ts ctx f r Ht Hctx Ho Hd|w|b|name|Hl Hn
                 |this w ctx Hl Hc Hctx Haw Ho];
    try (left; reflexivity).
  - unfold routed.
    destruct (actionMap_get _ _) as [f|];
      [|left; destruct (isOutcome _); reflexivity].
    destruct (isOutcome _);
      (right; eexists; split; [reflexivity|left; split; [eauto|exact Hc]]).
  - right. eexists. split; [reflexivity|].
    right. rewrite Ht. repeat split.
Qed.

(** X24: callbacks are only ever called from a delivered message or a
    poll tick, one per event at most.  openAppWindow, closeAppWindow and
    the unload handler call no callback themselves; a message makes at
    most one call, on behalf of the current session; a poll tick makes at
    most one call, with an empty object, on behalf of the session whose
    poll fired.  Calls already made stay in the log. *)
Theorem X24_one_call_per_event (e : Event) (s : State) :
  (match e with
   | MessageArrives _ | TimeoutFires => True
   | _ => calls (exec e s) = calls s
   end)
  /\ (calls (exec e s) = calls s
      \/ exists i, calls (exec e s) = (calls s ++ [i])%list
           /\ ((exists event, e = MessageArrives event)
               /\ currentAppContext s = Some (inv_this i)
               \/ e = TimeoutFires /\ head (timeouts s) = Some (inv_this i)
                  /\ inv_payload i = empty_object)).
Proof.
  pose proof (effect_calls s _ e (exec_effect e s)) as H.
  split; [|exact H].
  destruct e; try exact I;
    (destruct H as [H|(i & _ & [[[ev He] _]|[He _]])];
     [exact H|discriminate He|discriminate He]).
Qed.

Lemma X3_open_succeeds_iff_witness :
  fst (openAppWindow sampleOptions samplePage) = Normal tt.
Proof.
  apply (proj2 (X3_open_succeeds_iff sampleOptions samplePage)).
  split; [exists sampleFields; reflexivity|].
  split; [reflexivity|]. split; [reflexivity|]. split; [reflexivity|].
  split; [|reflexivity]. eexists. split; reflexivity.
Defined.


Lemma X24_one_call_per_event_witness :
  calls (exec (CallOpenAppWindow sampleOptions) samplePage) = calls samplePage
  /\ calls (exec CallCloseAppWindow sampleSession) = calls sampleSession.
Proof.
  split.
  - exact (proj1 (X24_one_call_per_event (CallOpenAppWindow sampleOptions) samplePage)).
  - exact (proj1 (X24_one_call_per_event CallCloseAppWindow sampleSession)).
Defined.
